(** * File classification and dual-encoding upload pipeline

    A shallow embedding of the attachment pipeline of agent-chat-ui:

    - [src/lib/multimodal-utils.ts]: [fileToContentBlock], [fileToBase64],
      [isContentBlock], [isBase64ContentBlock], in its two variants (the
      object-store variant is the top level of this file, the older
      inline-only variant lives in [Module Legacy]);
    - the upload client [uploadFileToS3] and the route handlers [POST] and
      [GET] of the upload endpoint;
    - the [useFileUpload] hook: [isCADFile], [isValidFile], [isDuplicate],
      the three ingestion handlers and [removeBlock].

    Modelling choices.

    - JavaScript strings are [string]s: sequences of 8-bit characters, with
      the ASCII letter case mapping.  No character outside ASCII lower-cases
      to a dot or to a letter of [dwg], [dxf] or [py], so the tests on
      extensions read the same on the strings of the source.
    - A promise is a function from a [World] to its outcome (fulfilled or
      rejected) and the world it leaves.  The world records the toasts shown
      to the user and the objects of the bucket; console output is left out.
    - What the code does not decide (whether a file can be read, whether the
      network and the store answer, the identifiers and the dates generated)
      is read from an [Env], at the number of requests sent so far.
    - A call that runs next to others is an [Async]: it is cut at the events
      it waits for (the reader has read the file, the endpoint has answered,
      the body of the response has been read).  The builds that
      [Promise.all] joins are all started, in the order of the batch, and
      each goes on when its event arrives; the order of the arrivals is a
      parameter, and the join is rejected at the first rejection, while the
      other builds go on.
    - Of the state of the hook the handlers of files see [contentBlocks]
      only: they return it as it is after the user action.  The drag state
      is modelled on its own, in [Module Drag], with the listeners of the
      effect and its cleanup. *)

From Stdlib Require Import String Ascii List Bool Arith ZArith Lia Permutation.
From Stdlib Require Import DecimalString Strings.Byte.
Import ListNotations.
Local Open Scope string_scope.
Local Open Scope list_scope.
Local Open Scope nat_scope.

(** JavaScript's [a === b] on strings and [a + b] on strings. *)
Infix "===" := String.eqb (at level 70, no associativity).
Infix "+++" := String.append (at level 60, right associativity).

(** ** JavaScript string primitives *)

Module JsString.

(** [c.toLowerCase()] on one ASCII character. *)
Definition lower_ascii (c : ascii) : ascii :=
  let n := nat_of_ascii c in
  if (65 <=? n) && (n <=? 90) then ascii_of_nat (n + 32) else c.

(** [s.toLowerCase()]. *)
Fixpoint toLowerCase (s : string) : string :=
  match s with
  | EmptyString => EmptyString
  | String c s' => String (lower_ascii c) (toLowerCase s')
  end.

(** [s.startsWith(p)]. *)
Definition startsWith (s p : string) : bool := String.prefix p s.

(** [s.endsWith(suffix)]: the last [suffix.length] characters of [s] are
    [suffix]. *)
Definition endsWith (s suffix : string) : bool :=
  (String.length suffix <=? String.length s) &&
  (substring (String.length s - String.length suffix)
             (String.length suffix) s === suffix).

(** [s.split(sep)] for a one-character separator: never the empty array. *)
Fixpoint split (sep : ascii) (s : string) : list string :=
  match s with
  | EmptyString => [EmptyString]
  | String c s' =>
      if Ascii.eqb c sep then EmptyString :: split sep s'
      else match split sep s' with
           | [] => [String c EmptyString]
           | seg :: segs => String c seg :: segs
           end
  end.

(** [arr.pop()]: the last element, [undefined] on the empty array. *)
Fixpoint pop (arr : list string) : option string :=
  match arr with
  | [] => None
  | [x] => Some x
  | _ :: rest => pop rest
  end.

(** [arr.includes(x)]. *)
Definition includes (arr : list string) (x : string) : bool :=
  existsb (String.eqb x) arr.

(** [arr.join(sep)]. *)
Definition join (sep : string) (arr : list string) : string :=
  String.concat sep arr.

(** [String(n)] for a non-negative integer. *)
Definition ofNat (n : nat) : string :=
  NilEmpty.string_of_uint (Nat.to_uint n).

(** [s.padStart(n, c)] with a one-character filler. *)
Definition padStart (n : nat) (c : ascii) (s : string) : string :=
  string_of_list_ascii (repeat c (n - String.length s)) +++ s.

(** [s || d] on a possibly undefined string: the empty string is falsy. *)
Definition orElse (s : option string) (d : string) : string :=
  match s with
  | Some (String c r) => String c r
  | _ => d
  end.

(** [s] contains the character [c]. *)
Fixpoint mem (c : ascii) (s : string) : bool :=
  match s with
  | EmptyString => false
  | String c' s' => Ascii.eqb c' c || mem c s'
  end.


End JsString.
Import JsString.

(** ** Files *)

(** A browser [File]: its name, its declared media type and its bytes.
    [file.size] is the number of bytes. *)
Record File := mkFile {
  name : string;
  type : string;
  bytes : list byte
}.

Definition size (file : File) : nat := List.length (bytes file).

(** ** The classification tables of [fileToContentBlock] *)

Definition supportedImageTypes : list string :=
  [ "image/jpeg"; "image/png"; "image/gif"; "image/webp" ].

Definition supportedCADTypes : list string :=
  [ "application/acad"; "image/vnd.dwg"; "application/dwg"; "image/x-dwg";
    "application/dxf"; "image/vnd.dxf"; "application/octet-stream";
    "application/x-dwg"; "image/x-autocad" ].

Definition supportedPythonTypes : list string :=
  [ "text/x-python"; "application/x-python-code" ].

Definition supportedFileTypes : list string :=
  supportedImageTypes ++ [ "application/pdf" ] ++ supportedCADTypes
    ++ supportedPythonTypes ++ [ "text/plain" ].

(** [isCADFile] of multimodal-utils: by suffix of the lower-cased name. *)
Definition isCADFile (file : File) : bool :=
  let fileName := toLowerCase (name file) in
  endsWith fileName ".dwg" || endsWith fileName ".dxf".

Definition isPythonFile (file : File) : bool :=
  let fileName := toLowerCase (name file) in
  endsWith fileName ".py".

Definition isSupported (file : File) : bool :=
  includes supportedFileTypes (type file) || isCADFile file || isPythonFile file.

(** The handling category a file falls into: the branch that
    [fileToContentBlock] takes for it, its tests read in the order of the
    source.  The last branch of the source serves both the CAD and the
    Python files; its disjuncts are read left to right.  [Unexpected] is the
    fall-through after the last branch. *)
Inductive Category :=
| Image | PDF | CADLike | CodeLike | Unsupported | Unexpected.

Definition classify (file : File) : Category :=
  if negb (isSupported file) then Unsupported
  else if includes supportedImageTypes (type file) then Image
  else if type file === "application/pdf" then PDF
  else if includes supportedCADTypes (type file) || isCADFile file then CADLike
  else if includes supportedPythonTypes (type file) || isPythonFile file
       then CodeLike
  else Unexpected.

(** ** Base64 (the platform's encoder and decoder, RFC 4648)

    [FileReader.readAsDataURL] produces the Base64 text of the bytes; the
    consumer of an inline block decodes it.  A byte is read as its eight
    bits, three bytes are regrouped into four sextets. *)

Module Base64.

(** A sextet, most significant bit first. *)
Definition sextet : Type := bool * bool * bool * bool * bool * bool.

Definition alphabet : string :=
  "ABCDEFGHIJKLMNOPQRSTUVWXYZabcdefghijklmnopqrstuvwxyz0123456789+/".

Definition bit (b : bool) (weight : nat) : nat := if b then weight else 0.

Definition index_of_sextet (s : sextet) : nat :=
  let '(b5, b4, b3, b2, b1, b0) := s in
  bit b5 32 + bit b4 16 + bit b3 8 + bit b2 4 + bit b1 2 + bit b0 1.


Definition char_of_sextet (s : sextet) : ascii :=
  match String.get (index_of_sextet s) alphabet with
  | Some c => c
  | None => "="%char
  end.



(** Three bytes as four sextets, and back. [Byte.to_bits] is least
    significant bit first. *)
Definition sextets_of_bytes (a b c : byte) : sextet * sextet * sextet * sextet :=
  let '(a0, (a1, (a2, (a3, (a4, (a5, (a6, a7))))))) := Byte.to_bits a in
  let '(b0, (b1, (b2, (b3, (b4, (b5, (b6, b7))))))) := Byte.to_bits b in
  let '(c0, (c1, (c2, (c3, (c4, (c5, (c6, c7))))))) := Byte.to_bits c in
  ((a7, a6, a5, a4, a3, a2), (a1, a0, b7, b6, b5, b4),
   (b3, b2, b1, b0, c7, c6), (c5, c4, c3, c2, c1, c0)).


Definition pad : ascii := "="%char.

Fixpoint encode (bs : list byte) : string :=
  match bs with
  | [] => EmptyString
  | [a] =>
      let '(s1, s2, _, _) := sextets_of_bytes a x00 x00 in
      String (char_of_sextet s1) (String (char_of_sextet s2)
        (String pad (String pad EmptyString)))
  | [a; b] =>
      let '(s1, s2, s3, _) := sextets_of_bytes a b x00 in
      String (char_of_sextet s1) (String (char_of_sextet s2)
        (String (char_of_sextet s3) (String pad EmptyString)))
  | a :: b :: c :: rest =>
      let '(s1, s2, s3, s4) := sextets_of_bytes a b c in
      String (char_of_sextet s1) (String (char_of_sextet s2)
        (String (char_of_sextet s3) (String (char_of_sextet s4)
          (encode rest))))
  end.



End Base64.

(** ** Content blocks *)

(** The [metadata] object of an upload result. *)
Module Meta.
Record t := mk {
  filename : string;
  original_name : string;
  size : nat;
  mime_type : string;
  uploaded_at : string
}.
End Meta.

(** [S3UploadResult], the success body of the upload endpoint. *)
Record S3UploadResult := mkResult {
  s3_key : string;
  s3_bucket : string;
  s3_region : string;
  metadata : Meta.t
}.

(** The union [Base64ContentBlock | S3ContentBlock], by the three object
    literals that [fileToContentBlock] returns.  [data] is what
    [fileToBase64] resolved with, [None] standing for [undefined]. *)
Inductive ContentBlock :=
| ImageBlock (mime_type : string) (data : option string) (name : string)
    (* { type: "image", source_type: "base64", mime_type, data, metadata: { name } } *)
| InlineFileBlock (mime_type : string) (data : option string) (filename : string)
    (* { type: "file", source_type: "base64", mime_type, data, metadata: { filename } } *)
| RemoteFileBlock (s3Result : S3UploadResult).
    (* { type: "file", source_type: "s3", s3_key, s3_bucket, s3_region, metadata } *)

(** The property reads of the hook: [b.type], [b.source_type],
    [b.mime_type], [b.metadata?.filename], [b.metadata?.name]; [None] is
    [undefined]. *)
Definition block_type (b : ContentBlock) : string :=
  match b with
  | ImageBlock _ _ _ => "image"
  | InlineFileBlock _ _ _ | RemoteFileBlock _ => "file"
  end.

Definition block_source_type (b : ContentBlock) : string :=
  match b with
  | ImageBlock _ _ _ | InlineFileBlock _ _ _ => "base64"
  | RemoteFileBlock _ => "s3"
  end.

Definition block_mime_type (b : ContentBlock) : option string :=
  match b with
  | ImageBlock m _ _ | InlineFileBlock m _ _ => Some m
  | RemoteFileBlock _ => None
  end.

Definition metadata_filename (b : ContentBlock) : option string :=
  match b with
  | ImageBlock _ _ _ => None
  | InlineFileBlock _ _ f => Some f
  | RemoteFileBlock r => Some (Meta.filename (metadata r))
  end.

Definition metadata_name (b : ContentBlock) : option string :=
  match b with
  | ImageBlock _ _ n => Some n
  | _ => None
  end.

(** [x === s] for a possibly undefined [x] and a string [s]. *)
Definition strictEq (x : option string) (s : string) : bool :=
  match x with
  | Some v => v === s
  | None => false
  end.

(** ** Untyped values, as the runtime guards see them *)

Local Set Warnings "-register-all".

Inductive JsValue :=
| JsUndefined
| JsNull
| JsNumber (n : nat)
| JsString (s : string)
| JsObject (props : list (string * JsValue)).

Definition jsOfOption (o : option string) : JsValue :=
  match o with
  | Some s => JsString s
  | None => JsUndefined
  end.

(** The object literal behind each block. *)
Definition toJs (b : ContentBlock) : JsValue :=
  match b with
  | ImageBlock m d n =>
      JsObject [ ("type", JsString "image"); ("source_type", JsString "base64");
                 ("mime_type", JsString m); ("data", jsOfOption d);
                 ("metadata", JsObject [ ("name", JsString n) ]) ]
  | InlineFileBlock m d f =>
      JsObject [ ("type", JsString "file"); ("source_type", JsString "base64");
                 ("mime_type", JsString m); ("data", jsOfOption d);
                 ("metadata", JsObject [ ("filename", JsString f) ]) ]
  | RemoteFileBlock r =>
      JsObject [ ("type", JsString "file"); ("source_type", JsString "s3");
                 ("s3_key", JsString (s3_key r));
                 ("s3_bucket", JsString (s3_bucket r));
                 ("s3_region", JsString (s3_region r));
                 ("metadata",
                  JsObject [ ("filename", JsString (Meta.filename (metadata r)));
                             ("original_name",
                              JsString (Meta.original_name (metadata r)));
                             ("size", JsNumber (Meta.size (metadata r)));
                             ("mime_type",
                              JsString (Meta.mime_type (metadata r)));
                             ("uploaded_at",
                              JsString (Meta.uploaded_at (metadata r))) ]) ]
  end.

(** [obj[key]] and [key in obj] on an object's own properties. *)
Fixpoint getProp (props : list (string * JsValue)) (key : string) : option JsValue :=
  match props with
  | [] => None
  | (k, v) :: rest => if k === key then Some v else getProp rest key
  end.

Definition hasProp (props : list (string * JsValue)) (key : string) : bool :=
  match getProp props key with
  | Some _ => true
  | None => false
  end.

(** [obj.key === s]. *)
Definition propIs (props : list (string * JsValue)) (key s : string) : bool :=
  match getProp props key with
  | Some (JsString v) => v === s
  | _ => false
  end.

(** ** The world: toasts, the object store, and the external outcomes *)

Inductive Toast :=
| toast_error (message : string)
| toast_info (message : string)
| toast_success (message : string).

(** What a promise rejects with, or a [throw] throws: an [Error] carrying a
    message, or a value that is not an [Error] (the [FileReader]'s error
    event). *)
Inductive Thrown :=
| Error (message : string)
| ErrorEvent.

(** [error instanceof Error ? error.message : fallback]. *)
Definition messageOf (error : Thrown) (fallback : string) : string :=
  match error with
  | Error m => m
  | ErrorEvent => fallback
  end.

(** One object of the bucket, as written by [PutObjectCommand]. *)
Record S3Object := mkObject {
  Body : list byte;
  ContentType : string;
  ContentLength : nat;
  originalName : string;
  uploadedAt : string
}.

(** [tick] counts the requests sent to the upload endpoint; the outcomes of
    the external collaborators are read at the current tick. *)
Record World := mkWorld {
  toasts : list Toast;
  bucket : list (string * S3Object);
  tick : nat
}.

(** The external collaborators: the file reader, the network, the object
    store client, the UUID generator, the clock and the process environment. *)
Record Env := mkEnv {
  readFails : File -> bool;
  fetchFails : nat -> option string;
  sendFails : nat -> option Thrown;
  uuidv4 : nat -> string;
  getFullYear : nat -> nat;
  getMonth : nat -> nat;
  putISOString : nat -> string;
  replyISOString : nat -> string;
  APP_AWS_REGION : option string;
  ENV_BUCKET_NAME : option string
}.

(** ** Promises: state passing with rejection *)

Inductive Settled (A : Type) :=
| Fulfilled (a : A)
| Rejected (e : Thrown).
Arguments Fulfilled {A} a.
Arguments Rejected {A} e.

Definition Promise (A : Type) : Type := World -> Settled A * World.

Definition resolve {A} (a : A) : Promise A := fun w => (Fulfilled a, w).
Definition reject {A} (e : Thrown) : Promise A := fun w => (Rejected e, w).

Definition await {A B} (p : Promise A) (k : A -> Promise B) : Promise B :=
  fun w =>
    match p w with
    | (Fulfilled a, w') => k a w'
    | (Rejected e, w') => (Rejected e, w')
    end.

Notation "x <- p ;; k" := (await p (fun x => k))
  (at level 61, p at next level, right associativity).
Notation "p ;; k" := (await p (fun _ => k))
  (at level 61, right associativity).

(** [try { p } catch (error) { handler error }]. *)
Definition tryCatch {A} (p : Promise A) (handler : Thrown -> Promise A) : Promise A :=
  fun w =>
    match p w with
    | (Fulfilled a, w') => (Fulfilled a, w')
    | (Rejected e, w') => handler e w'
    end.

Definition toast (t : Toast) : Promise unit :=
  fun w => (Fulfilled tt, mkWorld (toasts w ++ [t]) (bucket w) (tick w)).

(** A promise that has settled. *)
Definition settled {A} (r : Settled A) : Promise A := fun w => (r, w).

(** What a join of settled promises is fulfilled or rejected with: all the
    values, or a rejection of the list. *)
Fixpoint joinAll {A} (rs : list (Settled A)) : Settled (list A) :=
  match rs with
  | [] => Fulfilled []
  | Fulfilled a :: rest =>
      match joinAll rest with
      | Fulfilled l => Fulfilled (a :: l)
      | Rejected e => Rejected e
      end
  | Rejected e :: _ => Rejected e
  end.

(** ** The file reader and [fileToBase64] *)

(** [reader.result] after [readAsDataURL]: the data URL of the file, with
    the media type the platform writes for a file that declares none. *)
Definition readAsDataURL (file : File) : string :=
  "data:" +++ orElse (Some (type file)) "application/octet-stream"
          +++ ";base64," +++ Base64.encode (bytes file).

(** [result.split(",")[1]]. *)
Definition stripDataUrlPrefix (result : string) : option string :=
  nth_error (split ","%char result) 1.

Definition fileToBase64 (env : Env) (file : File) : Promise (option string) :=
  if readFails env file then reject ErrorEvent
  else resolve (stripDataUrlPrefix (readAsDataURL file)).

(** ** The upload endpoint *)

Inductive FormDataEntryValue :=
| EntryFile (file : File)
| EntryString (s : string).

(** A request, by what [request.formData()] and [formData.get('file')]
    give: a body that does not parse, or the entry named [file] if any. *)
Inductive NextRequest :=
| MalformedBody (e : Thrown)
| FormDataBody (file : option FormDataEntryValue).

Inductive ErrorStatus := BadRequest | MethodNotAllowed | InternalServerError.

Definition statusCode (s : ErrorStatus) : nat :=
  match s with
  | BadRequest => 400
  | MethodNotAllowed => 405
  | InternalServerError => 500
  end.

Definition statusText (s : ErrorStatus) : string :=
  match s with
  | BadRequest => "Bad Request"
  | MethodNotAllowed => "Method Not Allowed"
  | InternalServerError => "Internal Server Error"
  end.

(** [NextResponse.json({ error }, { status })] and
    [NextResponse.json(result)]. *)
Inductive NextResponse :=
| JsonError (error : string) (s : ErrorStatus)
| JsonResult (result : S3UploadResult).

Definition status (response : NextResponse) : nat :=
  match response with
  | JsonError _ s => statusCode s
  | JsonResult _ => 200
  end.

Definition ok (response : NextResponse) : bool :=
  (200 <=? status response) && (status response <=? 299).

Definition BUCKET_NAME (env : Env) : string :=
  orElse (ENV_BUCKET_NAME env) "keystone-user-content-files".

Definition region (env : Env) : string :=
  orElse (APP_AWS_REGION env) "eu-north-1".

(** The object store writes under a key, replacing what the key held. *)
Definition putObject (Key : string) (o : S3Object) (b : list (string * S3Object))
  : list (string * S3Object) :=
  (Key, o) :: filter (fun entry => negb (fst entry === Key)) b.


(** [s3Client.send(new PutObjectCommand(...))]. *)
Definition s3Client_send (env : Env) (Key : string) (o : S3Object) : Promise unit :=
  fun w =>
    match sendFails env (tick w) with
    | Some e => (Rejected e, w)
    | None => (Fulfilled tt, mkWorld (toasts w) (putObject Key o (bucket w)) (tick w))
    end.

(** [file.name.split('.').pop()?.toLowerCase() || '']. *)
Definition fileExtensionOf (fileName : string) : string :=
  orElse (option_map toLowerCase (pop (split "."%char fileName))) "".

Definition s3KeyOf (year : nat) (month uniqueId fileExtension : string) : string :=
  "user-uploads/drawings/" +++ ofNat year +++ "/" +++ month +++ "/"
     +++ uniqueId +++ "." +++ fileExtension.

(** One request has been served: the external outcomes move on. *)
Definition served {A} (p : Promise A) : Promise A :=
  fun w =>
    let '(r, w') := p w in
    (r, mkWorld (toasts w') (bucket w') (S (tick w'))).

Definition POST (env : Env) (request : NextRequest) : Promise NextResponse :=
  fun w =>
  let now := tick w in
  served
    (tryCatch
      (match request with
       | MalformedBody e => reject e
       | FormDataBody None =>
           resolve (JsonError "No file provided" BadRequest)
       | FormDataBody (Some (EntryString EmptyString)) =>
           resolve (JsonError "No file provided" BadRequest)
       | FormDataBody (Some (EntryString _)) =>
           (* [file.name] is undefined *)
           reject (Error "Cannot read properties of undefined (reading 'toLowerCase')")
       | FormDataBody (Some (EntryFile file)) =>
           let fileName := toLowerCase (name file) in
           if negb (endsWith fileName ".dwg") && negb (endsWith fileName ".dxf")
           then resolve (JsonError "Only .dwg and .dxf files are supported" BadRequest)
           else
             let fileExtension := fileExtensionOf (name file) in
             let uniqueId := uuidv4 env now in
             let year := getFullYear env now in
             let month := padStart 2 "0" (ofNat (getMonth env now + 1)) in
             let s3Key := s3KeyOf year month uniqueId fileExtension in
             let contentType :=
               orElse (Some (type file)) "application/octet-stream" in
             (s3Client_send env s3Key
                (mkObject (bytes file) contentType (size file) (name file)
                          (putISOString env now)) ;;
              resolve (JsonResult
                (mkResult s3Key (BUCKET_NAME env) (region env)
                   (Meta.mk (uniqueId +++ "." +++ fileExtension) (name file)
                            (size file) contentType
                            (replyISOString env now)))))
       end)
      (fun error =>
         resolve (JsonError ("Upload failed: " +++ messageOf error "Unknown error")
                            InternalServerError)))
    w.




(** ** The upload client *)

(** [fetch('/api/upload', { method: 'POST', body: formData })] with the
    file appended as the part named [file]: the network fails, or the
    request reaches the endpoint. *)
Definition fetch (env : Env) (file : File) : Promise NextResponse :=
  fun w =>
    match fetchFails env (tick w) with
    | Some message => served (reject (Error message)) w
    | None => POST env (FormDataBody (Some (EntryFile file))) w
    end.

Definition uploadFileToS3 (env : Env) (file : File) : Promise S3UploadResult :=
  tryCatch
    (response <- fetch env file ;;
     match response with
     | JsonError error s =>
         (* [response.ok] is false *)
         reject (Error (orElse (Some error)
                   ("HTTP " +++ ofNat (statusCode s) +++ ": " +++ statusText s)))
     | JsonResult result =>
         (* [response.ok] *)
         resolve result
     end)
    (fun error =>
       reject (Error ("Failed to upload file to S3: "
                        +++ messageOf error "Unknown error"))).

(** ** [fileToContentBlock] *)

(** The [try] and [catch] blocks of its last branch. *)
Definition uploadBranch (env : Env) (file : File) : Promise ContentBlock :=
  tryCatch
    (toast (toast_info ("Uploading " +++ name file +++ " to cloud storage...")) ;;
     s3Result <- uploadFileToS3 env file ;;
     toast (toast_success (name file +++ " uploaded successfully!")) ;;
     resolve (RemoteFileBlock s3Result))
    (fun error =>
       toast (toast_error ("Failed to upload " +++ name file +++ ". Please try again.")) ;;
       reject error).

Definition fileToContentBlock (env : Env) (file : File) : Promise ContentBlock :=
  if negb (isSupported file) then
    (toast (toast_error ("Unsupported file type: " +++ type file +++
       ". Supported types are: images (JPEG, PNG, GIF, WEBP), PDF, DWG, DXF, and Python files.")) ;;
     reject (Error ("Unsupported file type: " +++ type file)))
  else
    (data <- fileToBase64 env file ;;
     if includes supportedImageTypes (type file) then
       resolve (ImageBlock (type file) data (name file))
     else if type file === "application/pdf" then
       resolve (InlineFileBlock "application/pdf" data (name file))
     else if includes supportedCADTypes (type file) || isCADFile file
             || includes supportedPythonTypes (type file) || isPythonFile file
     then uploadBranch env file
     else
       (toast (toast_error ("Unexpected file type: " +++ type file)) ;;
        reject (Error ("Unexpected file type: " +++ type file)))).

(** ** The runtime type guards *)

(** [typeof obj.key === "string"], with the string. *)
Definition stringProp (props : list (string * JsValue)) (key : string) : option string :=
  match getProp props key with
  | Some (JsString v) => Some v
  | _ => None
  end.

Definition isStringProp (props : list (string * JsValue)) (key : string) : bool :=
  match stringProp props key with
  | Some _ => true
  | None => false
  end.

Definition isContentBlock (block : JsValue) : bool :=
  match block with
  | JsObject props =>
      if negb (hasProp props "type") then false
      else if propIs props "type" "file" && hasProp props "source_type"
              && propIs props "source_type" "s3" && hasProp props "s3_key"
              && hasProp props "s3_bucket" && hasProp props "s3_region"
      then true
      else if propIs props "type" "file" && hasProp props "source_type"
              && propIs props "source_type" "base64"
              && hasProp props "mime_type" && isStringProp props "mime_type"
      then
        match stringProp props "mime_type" with
        | Some mimeType =>
            startsWith mimeType "image/"
            || (mimeType === "application/pdf")
            || (mimeType === "application/acad")
            || (mimeType === "application/dwg")
            || (mimeType === "application/dxf")
            || (mimeType === "image/vnd.dwg")
            || (mimeType === "image/vnd.dxf")
            || (mimeType === "image/x-dwg")
            || (mimeType === "text/x-python")
            || (mimeType === "application/x-python-code")
        | None => false
        end
      else if propIs props "type" "image" && hasProp props "source_type"
              && propIs props "source_type" "base64"
              && hasProp props "mime_type" && isStringProp props "mime_type"
              && match stringProp props "mime_type" with
                 | Some mimeType => startsWith mimeType "image/"
                 | None => false
                 end
      then true
      else false
  | _ => false
  end.

(** [(block as any).source_type === "base64"]. *)
Definition sourceTypeIs (block : JsValue) (s : string) : bool :=
  match block with
  | JsObject props => propIs props "source_type" s
  | _ => false
  end.

Definition isBase64ContentBlock (block : JsValue) : bool :=
  isContentBlock block && sourceTypeIs block "base64".

(** ** The inline-only variant of multimodal-utils *)

Module Legacy.

Definition supportedFileTypes : list string :=
  supportedImageTypes ++ [ "application/pdf" ] ++ supportedCADTypes
    ++ [ "text/plain" ].

Definition isSupported (file : File) : bool :=
  includes supportedFileTypes (type file) || isCADFile file.

(** The media type written on a CAD block. *)
Definition cadMimeType (file : File) : string :=
  let mimeType := type file in
  if (mimeType === "") || (mimeType === "text/plain") then
    let fileName := toLowerCase (name file) in
    if endsWith fileName ".dwg" then "application/acad"
    else if endsWith fileName ".dxf" then "application/dxf"
    else mimeType
  else mimeType.

Definition fileToContentBlock (env : Env) (file : File) : Promise ContentBlock :=
  if negb (isSupported file) then
    (toast (toast_error ("Unsupported file type: " +++ type file +++
       ". Supported types are: images (JPEG, PNG, GIF, WEBP), PDF, DWG, and DXF files.")) ;;
     reject (Error ("Unsupported file type: " +++ type file)))
  else
    (data <- fileToBase64 env file ;;
     if includes supportedImageTypes (type file) then
       resolve (ImageBlock (type file) data (name file))
     else if type file === "application/pdf" then
       resolve (InlineFileBlock "application/pdf" data (name file))
     else if includes supportedCADTypes (type file) || isCADFile file then
       resolve (InlineFileBlock (cadMimeType file) data (name file))
     else
       (toast (toast_error ("Unexpected file type: " +++ type file)) ;;
        reject (Error ("Unexpected file type: " +++ type file)))).

Definition isBase64ContentBlock (block : JsValue) : bool :=
  match block with
  | JsObject props =>
      if negb (hasProp props "type") then false
      else if propIs props "type" "file" && hasProp props "source_type"
              && propIs props "source_type" "base64"
              && hasProp props "mime_type" && isStringProp props "mime_type"
      then
        match stringProp props "mime_type" with
        | Some mimeType =>
            startsWith mimeType "image/"
            || (mimeType === "application/pdf")
            || (mimeType === "application/acad")
            || (mimeType === "application/dwg")
            || (mimeType === "application/dxf")
            || (mimeType === "image/vnd.dwg")
            || (mimeType === "image/vnd.dxf")
            || (mimeType === "image/x-dwg")
        | None => false
        end
      else if propIs props "type" "image" && hasProp props "source_type"
              && propIs props "source_type" "base64"
              && hasProp props "mime_type" && isStringProp props "mime_type"
              && match stringProp props "mime_type" with
                 | Some mimeType => startsWith mimeType "image/"
                 | None => false
                 end
      then true
      else false
  | _ => false
  end.

End Legacy.

(** ** Calls that run at the same time

    The definitions above give a call as it runs when nothing else does.
    The handlers of the hook start the builds of a batch together and join
    them with [Promise.all]: each build runs up to the first [await] of a
    promise of the platform, and goes on when the event it waits for
    arrives (the reader has read the file, the endpoint has served the
    request, the body of the response has been read), whatever the other
    builds have done in between.  A [Task] is a call cut at these events. *)

Inductive Task (A : Type) :=
| Settle (r : Settled A)
| Wait (resume : World -> Task A * World).
Arguments Settle {A} r.
Arguments Wait {A} resume.

(** An [async] call: it runs at once, up to its first wait. *)
Definition Async (A : Type) : Type := World -> Task A * World.

(** The call run with nothing else: each event arrives as soon as it is
    waited for. *)
Fixpoint settle {A} (t : Task A) (w : World) : Settled A * World :=
  match t with
  | Settle r => (r, w)
  | Wait resume => let '(t', w') := resume w in settle t' w'
  end.

Definition alone {A} (p : Async A) : Promise A :=
  fun w => let '(t, w') := p w in settle t w'.

Declare Scope async_scope.
Delimit Scope async_scope with async.

Module Async.

(** What settles without a wait. *)
Definition now {A} (p : Promise A) : Async A :=
  fun w => let '(r, w') := p w in (Settle r, w').

(** A promise of the platform: it settles when its event arrives, as [p]
    does then. *)
Definition onEvent {A} (p : Promise A) : Async A :=
  fun w => (Wait (now p), w).

Definition resolve {A} (a : A) : Async A := now (resolve a).
Definition reject {A} (e : Thrown) : Async A := now (reject e).
Definition toast (t : Toast) : Async unit := now (toast t).

Fixpoint andThen {A B} (t : Task A) (k : A -> Async B) : Async B :=
  fun w =>
    match t with
    | Settle (Fulfilled a) => k a w
    | Settle (Rejected e) => (Settle (Rejected e), w)
    | Wait resume =>
        (Wait (fun w1 => let '(t', w2) := resume w1 in andThen t' k w2), w)
    end.

Definition await {A B} (p : Async A) (k : A -> Async B) : Async B :=
  fun w => let '(t, w') := p w in andThen t k w'.

Fixpoint orHandle {A} (t : Task A) (handler : Thrown -> Async A) : Async A :=
  fun w =>
    match t with
    | Settle (Fulfilled a) => (Settle (Fulfilled a), w)
    | Settle (Rejected e) => handler e w
    | Wait resume =>
        (Wait (fun w1 => let '(t', w2) := resume w1 in orHandle t' handler w2), w)
    end.

(** [try { p } catch (error) { handler error }]. *)
Definition tryCatch {A} (p : Async A) (handler : Thrown -> Async A) : Async A :=
  fun w => let '(t, w') := p w in orHandle t handler w'.

Notation "x <- p ;; k" := (await p (fun x => k))
  (at level 61, p at next level, right associativity) : async_scope.
Notation "p ;; k" := (await p (fun _ => k))
  (at level 61, right associativity) : async_scope.

(** [fileToBase64]: its promise settles when the reader has read the file,
    or has failed. *)
Definition fileToBase64 (env : Env) (file : File) : Async (option string) :=
  onEvent (fileToBase64 env file).

(** [fetch('/api/upload', ...)]: its promise settles when the endpoint has
    served the request, or the network has failed. *)
Definition fetch (env : Env) (file : File) : Async NextResponse :=
  onEvent (fetch env file).

(** [response.json()]: its promise settles when the body has been read. *)
Definition json {A} (body : A) : Async A := onEvent (settled (Fulfilled body)).

Definition uploadFileToS3 (env : Env) (file : File) : Async S3UploadResult :=
  tryCatch
    (response <- fetch env file ;;
     match response with
     | JsonError error s =>
         (* [response.ok] is false *)
         errorData <- json error ;;
         reject (Error (orElse (Some errorData)
                   ("HTTP " +++ ofNat (statusCode s) +++ ": " +++ statusText s)))
     | JsonResult body =>
         (* [response.ok] *)
         result <- json body ;;
         resolve result
     end)%async
    (fun error =>
       reject (Error ("Failed to upload file to S3: "
                        +++ messageOf error "Unknown error"))).

Definition uploadBranch (env : Env) (file : File) : Async ContentBlock :=
  tryCatch
    (toast (toast_info ("Uploading " +++ name file +++ " to cloud storage...")) ;;
     s3Result <- uploadFileToS3 env file ;;
     toast (toast_success (name file +++ " uploaded successfully!")) ;;
     resolve (RemoteFileBlock s3Result))%async
    (fun error =>
       toast (toast_error ("Failed to upload " +++ name file +++ ". Please try again.")) ;;
       reject error)%async.

Definition fileToContentBlock (env : Env) (file : File) : Async ContentBlock :=
  if negb (isSupported file) then
    (toast (toast_error ("Unsupported file type: " +++ type file +++
       ". Supported types are: images (JPEG, PNG, GIF, WEBP), PDF, DWG, DXF, and Python files.")) ;;
     reject (Error ("Unsupported file type: " +++ type file)))%async
  else
    (data <- fileToBase64 env file ;;
     if includes supportedImageTypes (type file) then
       resolve (ImageBlock (type file) data (name file))
     else if type file === "application/pdf" then
       resolve (InlineFileBlock "application/pdf" data (name file))
     else if includes supportedCADTypes (type file) || isCADFile file
             || includes supportedPythonTypes (type file) || isPythonFile file
     then uploadBranch env file
     else
       (toast (toast_error ("Unexpected file type: " +++ type file)) ;;
        reject (Error ("Unexpected file type: " +++ type file))))%async.

(** The inline-only variant. *)
Definition inlineFileToContentBlock (env : Env) (file : File) : Async ContentBlock :=
  if negb (Legacy.isSupported file) then
    (toast (toast_error ("Unsupported file type: " +++ type file +++
       ". Supported types are: images (JPEG, PNG, GIF, WEBP), PDF, DWG, and DXF files.")) ;;
     reject (Error ("Unsupported file type: " +++ type file)))%async
  else
    (data <- fileToBase64 env file ;;
     if includes supportedImageTypes (type file) then
       resolve (ImageBlock (type file) data (name file))
     else if type file === "application/pdf" then
       resolve (InlineFileBlock "application/pdf" data (name file))
     else if includes supportedCADTypes (type file) || isCADFile file then
       resolve (InlineFileBlock (Legacy.cadMimeType file) data (name file))
     else
       (toast (toast_error ("Unexpected file type: " +++ type file)) ;;
        reject (Error ("Unexpected file type: " +++ type file))))%async.

End Async.

(** ** [Promise.all] and the events

    [arrival] is the order in which the events arrive: each number names
    the call, by its place in the list, whose awaited event arrives next (a
    number that names no waiting call is passed over).  The events still
    awaited after the last of [arrival] arrive call by call, in the order of
    the list.  [onSettled] is how the caller goes on from its
    [await Promise.all(...)]: at once when a call is rejected, while the
    other calls still run, or once all calls are fulfilled. *)

Section EventLoop.

Context {A B : Type}.
Variable onSettled : Settled (list A) -> Promise B.

Record Loop := mkLoop {
  tasks : list (Task A);
  caught : option (Settled B);
  world : World
}.

(** [calls.map(call)]: every call is started, in the order of the list. *)
Fixpoint callAll (ps : list (Async A)) (w : World) : list (Task A) * World :=
  match ps with
  | [] => ([], w)
  | p :: rest =>
      let '(t, w1) := p w in
      let '(ts, w2) := callAll rest w1 in
      (t :: ts, w2)
  end.

Fixpoint firstRejection (ts : list (Task A)) : option Thrown :=
  match ts with
  | [] => None
  | Settle (Rejected e) :: _ => Some e
  | _ :: rest => firstRejection rest
  end.

(** What the calls that have settled have settled with. *)
Fixpoint results (ts : list (Task A)) : list (Settled A) :=
  match ts with
  | [] => []
  | Settle r :: rest => r :: results rest
  | Wait _ :: rest => results rest
  end.

(** The join is rejected as soon as a call is: the caller goes on, once. *)
Definition notify (l : Loop) : Loop :=
  match caught l, firstRejection (tasks l) with
  | None, Some e =>
      let '(r, w') := onSettled (Rejected e) (world l) in
      mkLoop (tasks l) (Some r) w'
  | _, _ => l
  end.

Fixpoint update {X} (i : nat) (x : X) (xs : list X) : list X :=
  match xs, i with
  | [], _ => []
  | _ :: rest, 0 => x :: rest
  | y :: rest, S i' => y :: update i' x rest
  end.

(** The event that call [i] waits for arrives. *)
Definition arrive (i : nat) (l : Loop) : Loop :=
  match nth_error (tasks l) i with
  | Some (Wait resume) =>
      let '(t', w') := resume (world l) in
      notify (mkLoop (update i t' (tasks l)) (caught l) w')
  | _ => l
  end.

Definition events (arrival : list nat) (l : Loop) : Loop :=
  fold_left (fun l i => arrive i l) arrival l.

(** The events that call [i], now [t], still waits for arrive. *)
Fixpoint complete (i : nat) (t : Task A) (l : Loop) : Loop :=
  match t with
  | Settle _ => l
  | Wait resume =>
      let '(t', w') := resume (world l) in
      complete i t' (notify (mkLoop (update i t' (tasks l)) (caught l) w'))
  end.

Definition drain (l : Loop) : Loop :=
  fold_left
    (fun l i =>
       match nth_error (tasks l) i with
       | Some t => complete i t l
       | None => l
       end)
    (seq 0 (length (tasks l))) l.

(** The calls are started, the events arrive, every call settles. *)
Definition eventLoop (arrival : list nat) (ps : list (Async A)) (w : World) : Loop :=
  let '(ts, w1) := callAll ps w in
  drain (events arrival (notify (mkLoop ts None w1))).

(** The caller, from its [await Promise.all(ps)] on: it has gone on when a
    call was rejected, or goes on now that all are fulfilled. *)
Definition Promise_all (arrival : list nat) (ps : list (Async A)) : Promise B :=
  fun w =>
    let l := eventLoop arrival ps w in
    match caught l with
    | Some r => (r, world l)
    | None => onSettled (joinAll (results (tasks l))) (world l)
    end.

End EventLoop.

Arguments Loop : clear implicits.

(** What the calls settle with when their events arrive in this order. *)
Definition outcomes {A} (arrival : list nat) (ps : list (Async A)) (w : World)
  : list (Settled A) :=
  results (tasks (eventLoop (fun _ => resolve tt) arrival ps w)).

(** ** The [useFileUpload] hook

    The hook state modelled is [contentBlocks]; a handler is a promise of the
    state after the user action.  The hook is written over the builder it
    imports, so that it can be run with either variant. *)

Module UseFileUpload.

Definition SUPPORTED_FILE_TYPES : list string :=
  [ "image/jpeg"; "image/png"; "image/gif"; "image/webp"; "application/pdf";
    "application/acad"; "image/vnd.dwg"; "application/dwg"; "image/x-dwg";
    "application/x-dwg"; "image/x-autocad"; "application/octet-stream";
    "application/dxf"; "image/vnd.dxf"; "text/plain" ].

(** The hook's own [isCADFile]: by the last dot-separated segment. *)
Definition isCADFile (file : File) : bool :=
  let fileName := toLowerCase (name file) in
  let extension := pop (split "."%char fileName) in
  strictEq extension "dwg" || strictEq extension "dxf".

Definition isValidFile (file : File) : bool :=
  if isCADFile file then true
  else if includes SUPPORTED_FILE_TYPES (type file) then true
  else if (type file === "application/octet-stream")
          && (let extension :=
                option_map toLowerCase (pop (split "."%char (name file))) in
              strictEq extension "dwg" || strictEq extension "dxf")
  then true
  else false.

Definition isDuplicate (file : File) (blocks : list ContentBlock) : bool :=
  if type file === "application/pdf" then
    existsb (fun b =>
               (block_type b === "file")
               && strictEq (block_mime_type b) "application/pdf"
               && strictEq (metadata_filename b) (name file)) blocks
  else if isCADFile file then
    existsb (fun b =>
               (block_type b === "file")
               && strictEq (metadata_filename b) (name file)) blocks
  else if isValidFile file then
    existsb (fun b =>
               ((block_type b === "image")
                && strictEq (metadata_name b) (name file))
               || ((block_type b === "file")
                   && strictEq (metadata_filename b) (name file))) blocks
  else false.

(** The duplicate test that [handlePaste] defines for itself. *)
Definition isDuplicatePaste (contentBlocks : list ContentBlock) (file : File) : bool :=
  if type file === "application/pdf" then
    existsb (fun b =>
               (block_type b === "file")
               && strictEq (block_mime_type b) "application/pdf"
               && strictEq (metadata_filename b) (name file)) contentBlocks
  else if isValidFile file then
    existsb (fun b =>
               ((block_type b === "image")
                && strictEq (metadata_name b) (name file))
               || ((block_type b === "file")
                   && strictEq (metadata_filename b) (name file))) contentBlocks
  else false.

(** [if (c) { p }]. *)
Definition when (c : bool) (p : Promise unit) : Promise unit :=
  if c then p else resolve tt.

Definition names (files : list File) (sep : string) : string :=
  join sep (map name files).

Definition duplicateNotice (duplicateFiles : list File) : Toast :=
  toast_error ("Duplicate file(s) detected: " +++ names duplicateFiles ", "
               +++ ". Each file can only be uploaded once per message.").

(** [arr.filter((x, i) => keep x i)]. *)
Fixpoint filterIndexed {A} (keep : A -> nat -> bool) (i : nat) (arr : list A) : list A :=
  match arr with
  | [] => []
  | x :: rest =>
      if keep x i then x :: filterIndexed keep (S i) rest
      else filterIndexed keep (S i) rest
  end.

Definition removeBlock (idx : nat) (prev : list ContentBlock) : list ContentBlock :=
  filterIndexed (fun _ i => negb (i =? idx)) 0 prev.

Definition resetBlocks : list ContentBlock := [].

(** An item of the clipboard: its [kind] and what [getAsFile()] gives. *)
Record DataTransferItem := mkItem {
  kind : string;
  getAsFile : option File
}.

Section Handlers.

(** The imported [fileToContentBlock]. *)
Variable fileToContentBlock : File -> Async ContentBlock.

(** The order in which the events of the builds arrive. *)
Variable arrival : list nat.

(** The state at the time of the user action. *)
Variable contentBlocks : list ContentBlock.

Definition handleFileUpload (files : option (list File)) : Promise (list ContentBlock) :=
  match files with
  | None => resolve contentBlocks
  | Some fileArray =>
      let validFiles := filter isValidFile fileArray in
      let invalidFiles := filter (fun file => negb (isValidFile file)) fileArray in
      let duplicateFiles :=
        filter (fun file => isDuplicate file contentBlocks) validFiles in
      let uniqueFiles :=
        filter (fun file => negb (isDuplicate file contentBlocks)) validFiles in
      when (0 <? length invalidFiles)
        (toast (toast_error ("Invalid file type(s): " +++ names invalidFiles ", "
           +++ ". Please upload JPEG, PNG, GIF, WEBP images, PDF, DWG or DXF files."))) ;;
      when (0 <? length duplicateFiles) (toast (duplicateNotice duplicateFiles)) ;;
      if 0 <? length uniqueFiles then
        Promise_all
          (fun joined =>
             tryCatch
               (newBlocks <- settled joined ;;
                resolve (contentBlocks ++ newBlocks))
               (fun error =>
                  toast (toast_error "Error processing files. Please try again.") ;;
                  resolve contentBlocks))
          arrival (map fileToContentBlock uniqueFiles)
      else resolve contentBlocks
  end.

Definition handleWindowDrop (dataTransfer : option (list File)) : Promise (list ContentBlock) :=
  match dataTransfer with
  | None => resolve contentBlocks
  | Some files =>
      let validFiles := filter isValidFile files in
      let invalidFiles := filter (fun file => negb (isValidFile file)) files in
      let duplicateFiles :=
        filter (fun file => isDuplicate file contentBlocks) validFiles in
      let uniqueFiles :=
        filter (fun file => negb (isDuplicate file contentBlocks)) validFiles in
      when (0 <? length invalidFiles)
        (toast (toast_error ("Invalid file type(s): " +++ names invalidFiles ", "
           +++ ". Please upload JPEG, PNG, GIF, WEBP images, PDF, DWG or DXF files."))) ;;
      when (0 <? length duplicateFiles) (toast (duplicateNotice duplicateFiles)) ;;
      if 0 <? length uniqueFiles then
        Promise_all
          (fun joined =>
             tryCatch
               (newBlocks <- settled joined ;;
                resolve (contentBlocks ++ newBlocks))
               (fun error =>
                  toast (toast_error "Error processing dropped files. Please try again.") ;;
                  resolve contentBlocks))
          arrival (map fileToContentBlock uniqueFiles)
      else resolve contentBlocks
  end.

(** The files of the clipboard items, in order. *)
Fixpoint pastedFiles (items : list DataTransferItem) : list File :=
  match items with
  | [] => []
  | item :: rest =>
      if kind item === "file" then
        match getAsFile item with
        | Some file => file :: pastedFiles rest
        | None => pastedFiles rest
        end
      else pastedFiles rest
  end.

Definition handlePaste (items : option (list DataTransferItem)) : Promise (list ContentBlock) :=
  match items with
  | None => resolve contentBlocks
  | Some items =>
      let files := pastedFiles items in
      if length files =? 0 then resolve contentBlocks
      else
        let validFiles := filter isValidFile files in
        let invalidFiles := filter (fun file => negb (isValidFile file)) files in
        let duplicateFiles := filter (isDuplicatePaste contentBlocks) validFiles in
        let uniqueFiles :=
          filter (fun file => negb (isDuplicatePaste contentBlocks file)) validFiles in
        when (0 <? length invalidFiles)
          (toast (toast_error ("Invalid pasted file type(s): "
             +++ names invalidFiles ", "
             +++ ". Please paste JPEG, PNG, GIF, WEBP images, PDF, DWG or DXF files."))) ;;
        when (0 <? length duplicateFiles) (toast (duplicateNotice duplicateFiles)) ;;
        if 0 <? length uniqueFiles then
          Promise_all
            (fun joined =>
               tryCatch
                 (newBlocks <- settled joined ;;
                  resolve (contentBlocks ++ newBlocks))
                 (fun error =>
                    toast (toast_error "Error processing pasted files. Please try again.") ;;
                    resolve contentBlocks))
            arrival (map fileToContentBlock uniqueFiles)
        else resolve contentBlocks
  end.

End Handlers.

End UseFileUpload.

(** ** The rest of the upload client *)

(** [shouldUploadToS3] of the upload client. *)
Definition shouldUploadToS3 (file : File) : bool :=
  let fileName := toLowerCase (name file) in
  endsWith fileName ".dwg" || endsWith fileName ".dxf".

(** ** The drag state of the hook *)

Module Drag.

(** [dragCounter.current] and [dragOver]. *)
Record State := mkState {
  dragCounter : Z;
  dragOver : bool
}.

Definition initial : State := mkState 0%Z false.

(** What changes the drag state, once the drop element is mounted.  The
    listeners that the effect of the hook registers: five on the window, three on the drop element (these
    stop the propagation, so the window does not hear what the element
    heard); [files] is [e.dataTransfer?.types?.includes("Files")].  And a
    change of [contentBlocks], on which the effect depends: its cleanup runs
    (and the listeners are registered anew). *)
Inductive Event :=
| WindowDragEnter (files : bool)
| WindowDragLeave (files : bool)
| WindowDrop
| WindowDragEnd
| WindowDragOver
| ElementDragOver
| ElementDragEnter
| ElementDragLeave
| ContentBlocksChange.

Definition handleWindowDragEnter (files : bool) (s : State) : State :=
  if files then mkState (dragCounter s + 1)%Z true else s.

Definition handleWindowDragLeave (files : bool) (s : State) : State :=
  if files then
    let counter := (dragCounter s - 1)%Z in
    if (counter <=? 0)%Z then mkState 0%Z false
    else mkState counter (dragOver s)
  else s.

(** What [handleWindowDrop] does to the drag state, before it looks at the
    files; [handleWindowDragEnd] does the same. *)
Definition releaseDrag (s : State) : State := mkState 0%Z false.

(** The cleanup of the effect: the listeners are removed and the counter
    is set to zero; [dragOver] is a state of the component and stays. *)
Definition effectCleanup (s : State) : State := mkState 0%Z (dragOver s).

Definition handle (e : Event) (s : State) : State :=
  match e with
  | WindowDragEnter files => handleWindowDragEnter files s
  | WindowDragLeave files => handleWindowDragLeave files s
  | WindowDrop => releaseDrag s
  | WindowDragEnd => releaseDrag s
  | WindowDragOver => s
  | ElementDragOver => mkState (dragCounter s) true
  | ElementDragEnter => mkState (dragCounter s) true
  | ElementDragLeave => mkState (dragCounter s) false
  | ContentBlocksChange => effectCleanup s
  end.

(** The events in the order they are heard. *)
Definition run (events : list Event) (s : State) : State :=
  fold_left (fun s e => handle e s) events s.

(** A listener of the window. *)
Definition onWindow (e : Event) : bool :=
  match e with
  | ElementDragOver | ElementDragEnter | ElementDragLeave
  | ContentBlocksChange => false
  | _ => true
  end.

(** A listener of the window, or the cleanup of the effect. *)
Definition offElement (e : Event) : bool :=
  match e with
  | ElementDragOver | ElementDragEnter | ElementDragLeave => false
  | _ => true
  end.

End Drag.

(** ** The path of the geometry viewer *)

Module Geometry.

(** [\s] on the code units below 256. *)
Definition isSpace (c : ascii) : bool :=
  let n := nat_of_ascii c in
  ((9 <=? n) && (n <=? 13)) || (n =? 32) || (n =? 160).

(** No character of [s] is a space. *)
Fixpoint noSpace (s : string) : bool :=
  match s with
  | EmptyString => true
  | String c s' => negb (isSpace c) && noSpace s'
  end.

(** What is left of [s] after the prefix [p], if [s] starts with [p]. *)
Fixpoint dropPrefix (p s : string) : option string :=
  match p, s with
  | EmptyString, _ => Some s
  | String a p', String b s' => if Ascii.eqb a b then dropPrefix p' s' else None
  | String _ _, EmptyString => None
  end.

(** [[^\s]+] followed by [k]: one character that is no space, then as many
    as can be while the rest of the pattern still matches. *)
Fixpoint plusNotSpace {A} (s : string) (k : string -> option A) : option A :=
  match s with
  | EmptyString => None
  | String c s' =>
      if isSpace c then None
      else match plusNotSpace s' k with
           | Some r => Some r
           | None => k s'
           end
  end.

(** The pattern [/VTP file created: (\/tmp\/[^\s]+\.vtp)/] tried at the
    start of [s]: the text of its group. *)
Definition matchHere (s : string) : option string :=
  match dropPrefix "VTP file created: " s with
  | None => None
  | Some group =>
      match dropPrefix "/tmp/" group with
      | None => None
      | Some body =>
          plusNotSpace body (fun rest =>
            match dropPrefix ".vtp" rest with
            | Some after =>
                Some (substring 0 (String.length group - String.length after) group)
            | None => None
            end)
      end
  end.

(** [result.match(pattern)]: the leftmost position at which it matches. *)
Fixpoint search (s : string) : option string :=
  match matchHere s with
  | Some path => Some path
  | None =>
      match s with
      | EmptyString => None
      | String _ s' => search s'
      end
  end.

Definition extractVtpPath (result : option string) : option string :=
  match result with
  | None => None
  | Some EmptyString => None
  | Some r => search r
  end.

(** The properties of [GeometryResult] that decide the path. *)
Record Props := mkProps {
  vtpFilePath : option string;
  codeExecutionResult : option string
}.

(** [vtpFilePath || extractVtpPath(codeExecutionResult) || "/structural_building.vtp"]. *)
Definition vtpPath (props : Props) : string :=
  orElse (vtpFilePath props)
    (orElse (extractVtpPath (codeExecutionResult props)) "/structural_building.vtp").

End Geometry.

(** ** Vocabulary of the statements *)

(** The name under which a block shows its file to the user: the display
    name of an image, the file name of an inline file, the original name of
    an uploaded file. *)
Definition shownName (b : ContentBlock) : string :=
  match b with
  | ImageBlock _ _ n => n
  | InlineFileBlock _ _ f => f
  | RemoteFileBlock r => Meta.original_name (metadata r)
  end.

(** The media type a file block carries: its own [mime_type], or the one in
    the metadata of an upload. *)
Definition carriedMimeType (b : ContentBlock) : string :=
  match b with
  | ImageBlock m _ _ | InlineFileBlock m _ _ => m
  | RemoteFileBlock r => Meta.mime_type (metadata r)
  end.


(** A failure notice is an error toast. *)
Definition isFailureNotice (t : Toast) : bool :=
  match t with
  | toast_error _ => true
  | _ => false
  end.

(** A toast that is not an error toast whose message starts with [E]: none
    of the three notices with which the handlers report a failed batch. *)
Definition quiet (t : Toast) : Prop :=
  forall rest, t <> toast_error (String "E"%char rest).

(** A rejection with an [Error]: every rejection of a build but the one of
    an unreadable file, which rejects with the reader's event. *)
Definition isErrorRejection {A} (r : Settled A) : bool :=
  match r with
  | Rejected (Error _) => true
  | _ => false
  end.

(** A promise that reads of the world the store and the tick only, and adds
    to the toasts already shown some toasts that, with its outcome,
    satisfy [Q]. *)
Definition emits {A} (Q : Settled A -> list Toast -> Prop) (p : Promise A) : Prop :=
  forall b t, exists r ts b' t',
    Q r ts /\
    forall shown, p (mkWorld shown b t) = (r, mkWorld (shown ++ ts) b' t').

(** It shows nothing. *)
Definition silent {A} (p : Promise A) : Prop :=
  emits (fun _ ts => ts = []) p.

(** A task that reads of the world the store and the tick only, whatever
    these have become when its events arrive, and adds toasts to those
    shown: with the toasts [sofar] that the call has added already, its
    toasts and what it settles with satisfy [Q]. *)
Fixpoint emitsT {A} (Q : Settled A -> list Toast -> Prop) (sofar : list Toast)
  (t : Task A) : Prop :=
  match t with
  | Settle r => Q r sofar
  | Wait resume =>
      forall b tk, exists ts b' tk',
        (forall shown,
           resume (mkWorld shown b tk)
           = (fst (resume (mkWorld [] b tk)), mkWorld (shown ++ ts) b' tk')) /\
        emitsT Q (sofar ++ ts) (fst (resume (mkWorld [] b tk)))
  end.

(** The same of a call, from its start. *)
Definition emitsA {A} (Q : Settled A -> list Toast -> Prop) (p : Async A) : Prop :=
  forall b tk, exists t ts b' tk',
    (forall shown, p (mkWorld shown b tk) = (t, mkWorld (shown ++ ts) b' tk')) /\
    emitsT Q ts t.

(** What a build of [file] shows and gives, however the events arrive:
    quiet toasts, one failure notice among them when it is rejected with an
    [Error] and none otherwise, and a block under the name of the file. *)
Definition builtFrom (file : File) (r : Settled ContentBlock) (ts : list Toast) : Prop :=
  Forall quiet ts /\
  length (filter isFailureNotice ts) = (if isErrorRejection r then 1 else 0) /\
  (forall b, r = Fulfilled b -> shownName b = name file).

(** How a caller goes on from a join when all it does is to show toasts:
    [noticed] and the outcome [caughtWith] on a rejection, nothing and the
    outcome [goesOn values] otherwise. *)
Definition goesOnWith {A B} (onSettled : Settled (list A) -> Promise B)
  (noticed : list Toast) (caughtWith : Settled B) (goesOn : list A -> Settled B)
  : Prop :=
  (forall e w,
     onSettled (Rejected e) w
     = (caughtWith, mkWorld (toasts w ++ noticed) (bucket w) (tick w))) /\
  (forall values w, onSettled (Fulfilled values) w = (goesOn values, w)).

(** The state of two runs of the same calls, under the same arrivals, whose
    callers go on each in its way, from worlds that differ by the toasts
    shown.  [Qs] are the conditions of the calls, [pre] and [pre0] the
    toasts shown before the calls; [x] are the toasts that the calls have
    added before one was rejected, [y] those they have added since. *)
Definition inStep {A B B0}
  (Qs : list (Settled A -> list Toast -> Prop))
  (pre pre0 noticed noticed0 : list Toast)
  (caughtWith : Settled B) (caughtWith0 : Settled B0)
  (l : Loop A B) (l0 : Loop A B0) : Prop :=
  tasks l = tasks l0 /\
  bucket (world l) = bucket (world l0) /\
  tick (world l) = tick (world l0) /\
  exists qs x y,
    map fst qs = Qs /\
    Forall2 (fun q t => emitsT (fst q) (snd q) t) qs (tasks l) /\
    Permutation (x ++ y) (concat (map snd qs)) /\
    match firstRejection (tasks l) with
    | Some _ =>
        caught l = Some caughtWith /\ caught l0 = Some caughtWith0 /\
        toasts (world l) = pre ++ x ++ noticed ++ y /\
        toasts (world l0) = pre0 ++ x ++ noticed0 ++ y
    | None =>
        caught l = None /\ caught l0 = None /\ y = [] /\
        toasts (world l) = pre ++ x /\
        toasts (world l0) = pre0 ++ x
    end.


(** ** Sample files, environments and worlds *)

Module Sample.

Definition uuid (n : nat) : string :=
  "3f2b8c1e-7a4d-4e6f-9b0a-" +++ padStart 12 "0" (ofNat n).

(** Nothing fails: the reader reads, the network and the store answer. *)
Definition healthy : Env :=
  mkEnv (fun _ => false) (fun _ => None) (fun _ => None) uuid
        (fun _ => 2025) (fun _ => 0)
        (fun _ => "2025-01-15T10:00:00.000Z")
        (fun _ => "2025-01-15T10:00:00.120Z") None None.

(** The store refuses every write. *)
Definition storeDown : Env :=
  mkEnv (fun _ => false) (fun _ => None)
        (fun _ => Some (Error "connect ETIMEDOUT")) uuid
        (fun _ => 2025) (fun _ => 0)
        (fun _ => "2025-01-15T10:00:00.000Z")
        (fun _ => "2025-01-15T10:00:00.120Z") None None.

(** No file can be read. *)
Definition unreadable : Env :=
  mkEnv (fun _ => true) (fun _ => None) (fun _ => None) uuid
        (fun _ => 2025) (fun _ => 0)
        (fun _ => "2025-01-15T10:00:00.000Z")
        (fun _ => "2025-01-15T10:00:00.120Z") None None.

Definition world0 : World := mkWorld [] [] 0.

Definition photo : File := mkFile "site.png" "image/png" (list_byte_of_string "PNG!").
Definition report : File := mkFile "report.pdf" "application/pdf" (list_byte_of_string "%PDF-1.7").
Definition drawing : File := mkFile "plan.dwg" "" (list_byte_of_string "AC1027").
Definition outline : File := mkFile "outline.dxf" "text/plain" (list_byte_of_string "0 SECTION").
Definition script : File := mkFile "mesh.py" "text/x-python" (list_byte_of_string "import bpy").
Definition sketch : File := mkFile "elevation.png" "image/png" (list_byte_of_string "PNG?").

End Sample.

(** * Properties *)

(** ** Strings *)

Section StringFacts.

Lemma length_append (a b : string) :
  String.length (a +++ b) = String.length a + String.length b.
Proof. induction a as [| c a IH]; simpl; [reflexivity | now rewrite IH]. Qed.

Lemma append_assoc (a b c : string) : (a +++ b) +++ c = a +++ (b +++ c).
Proof. induction a as [| x a IH]; simpl; [reflexivity | now rewrite IH]. Qed.

(** Two concatenations that agree, with left parts of one length, agree
    part by part. *)
Lemma append_inj_l (a a' b b' : string) :
  String.length a = String.length a' ->
  a +++ b = a' +++ b' -> a = a' /\ b = b'.
Proof.
  revert a'; induction a as [| x a IH]; intros [| x' a'] Hlen Heq;
    simpl in *; try discriminate.
  - now split.
  - injection Heq as -> Heq. injection Hlen as Hlen.
    destruct (IH a' Hlen Heq) as [-> ->]. now split.
Qed.

Lemma append_inj_r (a a' b b' : string) :
  String.length b = String.length b' ->
  a +++ b = a' +++ b' -> a = a' /\ b = b'.
Proof.
  intros Hlen Heq. apply append_inj_l; [| exact Heq].
  apply (f_equal String.length) in Heq. rewrite !length_append in Heq. lia.
Qed.

Lemma substring_append_r (a b : string) :
  substring (String.length a) (String.length b) (a +++ b) = b.
Proof.
  induction a as [| x a IH]; simpl; [| exact IH].
  induction b as [| y b IHb]; simpl; [reflexivity | now rewrite IHb].
Qed.

(** What [substring] cuts off, and what it leaves. *)
Lemma substring_split (n m : nat) (s : string) :
  n + m = String.length s ->
  s = substring 0 n s +++ substring n m s.
Proof.
  revert n; induction s as [| c s IH]; intros [| n] Hlen; simpl in *.
  - destruct m; [reflexivity | discriminate].
  - discriminate.
  - destruct m as [| m]; [discriminate |].
    injection Hlen as Hlen. simpl. f_equal.
    clear IH. revert m Hlen. induction s as [| d s IHs]; intros m Hlen; simpl in *.
    + subst m. reflexivity.
    + destruct m as [| m]; [discriminate |]. injection Hlen as Hlen.
      f_equal. now apply IHs.
  - injection Hlen as Hlen. f_equal. now apply IH.
Qed.

(** [endsWith] is the suffix relation. *)
Lemma endsWith_iff (s suffix : string) :
  endsWith s suffix = true <-> exists p, s = p +++ suffix.
Proof.
  unfold endsWith. rewrite andb_true_iff, Nat.leb_le, String.eqb_eq. split.
  - intros [Hle Hsub].
    set (n := String.length s - String.length suffix) in *.
    exists (substring 0 n s).
    rewrite <- Hsub. apply substring_split. subst n. lia.
  - intros [p ->]. rewrite length_append. split; [lia |].
    replace (String.length p + String.length suffix - String.length suffix)
      with (String.length p) by lia.
    apply substring_append_r.
Qed.

Lemma includes_In (arr : list string) (x : string) :
  includes arr x = true <-> In x arr.
Proof.
  unfold includes. rewrite existsb_exists. split.
  - intros [y [Hin Heq]]. apply String.eqb_eq in Heq. now subst.
  - intros Hin. exists x. split; [exact Hin | apply String.eqb_refl].
Qed.

End StringFacts.

(** ** Classification *)

(** [classify] names the branch that [fileToContentBlock] takes. *)
Lemma fileToContentBlock_by_category (env : Env) (file : File) :
  fileToContentBlock env file =
  match classify file with
  | Unsupported =>
      toast (toast_error ("Unsupported file type: " +++ type file +++
        ". Supported types are: images (JPEG, PNG, GIF, WEBP), PDF, DWG, DXF, and Python files.")) ;;
      reject (Error ("Unsupported file type: " +++ type file))
  | Image =>
      data <- fileToBase64 env file ;;
      resolve (ImageBlock (type file) data (name file))
  | PDF =>
      data <- fileToBase64 env file ;;
      resolve (InlineFileBlock "application/pdf" data (name file))
  | CADLike | CodeLike =>
      data <- fileToBase64 env file ;; uploadBranch env file
  | Unexpected =>
      data <- fileToBase64 env file ;;
      toast (toast_error ("Unexpected file type: " +++ type file)) ;;
      reject (Error ("Unexpected file type: " +++ type file))
  end.
Proof.
  unfold fileToContentBlock, classify.
  destruct (isSupported file); cbn [negb]; [| reflexivity].
  destruct (includes supportedImageTypes (type file)); [reflexivity |].
  destruct (type file === "application/pdf"); [reflexivity |].
  destruct (includes supportedCADTypes (type file)); cbn [orb]; [reflexivity |].
  destruct (isCADFile file); cbn [orb]; [reflexivity |].
  destruct (includes supportedPythonTypes (type file)); cbn [orb]; [reflexivity |].
  destruct (isPythonFile file); reflexivity.
Qed.

Lemma isCADFile_isSupported (file : File) :
  isCADFile file = true -> isSupported file = true.
Proof.
  intros H. unfold isSupported. rewrite H. now rewrite orb_true_r.
Qed.

(** C3, as amended.  A file whose lower-cased name ends in [.dwg] or [.dxf]
    is classified CADLike, and its build is the upload branch, for every
    declared media type that is neither one of the four image types nor the
    PDF type; the empty media type is among them.  With one of the four
    image types the same file is classified Image and built as an image
    block, with the PDF type it is classified PDF and built as a PDF block:
    these two tests come first. *)
Theorem C3_cad_extension_classified_CADLike (env : Env) (file : File) :
  isCADFile file = true ->
  (includes supportedImageTypes (type file) = false ->
   (type file === "application/pdf") = false ->
   classify file = CADLike /\
   fileToContentBlock env file =
     (data <- fileToBase64 env file ;; uploadBranch env file)) /\
  (type file = "" -> classify file = CADLike) /\
  (includes supportedImageTypes (type file) = true ->
   classify file = Image /\
   fileToContentBlock env file =
     (data <- fileToBase64 env file ;;
      resolve (ImageBlock (type file) data (name file)))) /\
  (type file = "application/pdf" ->
   classify file = PDF /\
   fileToContentBlock env file =
     (data <- fileToBase64 env file ;;
      resolve (InlineFileBlock "application/pdf" data (name file)))).
Proof.
  intros Hcad.
  assert (Hclass :
    classify file =
      if includes supportedImageTypes (type file) then Image
      else if type file === "application/pdf" then PDF else CADLike).
  { unfold classify. rewrite (isCADFile_isSupported file Hcad), Hcad.
    cbn [negb]. now rewrite orb_true_r. }
  assert (Hbuild : forall c, classify file = c ->
            classify file = c /\
            fileToContentBlock env file =
              match c with
              | Unsupported =>
                  toast (toast_error ("Unsupported file type: " +++ type file +++
                    ". Supported types are: images (JPEG, PNG, GIF, WEBP), PDF, DWG, DXF, and Python files.")) ;;
                  reject (Error ("Unsupported file type: " +++ type file))
              | Image =>
                  data <- fileToBase64 env file ;;
                  resolve (ImageBlock (type file) data (name file))
              | PDF =>
                  data <- fileToBase64 env file ;;
                  resolve (InlineFileBlock "application/pdf" data (name file))
              | CADLike | CodeLike =>
                  data <- fileToBase64 env file ;; uploadBranch env file
              | Unexpected =>
                  data <- fileToBase64 env file ;;
                  toast (toast_error ("Unexpected file type: " +++ type file)) ;;
                  reject (Error ("Unexpected file type: " +++ type file))
              end).
  { intros c Hc. split; [exact Hc |].
    now rewrite fileToContentBlock_by_category, Hc. }
  split; [| split; [| split]].
  - intros Himg Hpdf. apply (Hbuild CADLike). now rewrite Hclass, Himg, Hpdf.
  - intros Hempty. rewrite Hclass, Hempty. reflexivity.
  - intros Himg. apply (Hbuild Image). now rewrite Hclass, Himg.
  - intros Hpdf. apply (Hbuild PDF). rewrite Hclass, Hpdf. reflexivity.
Qed.

Lemma C3_cad_extension_classified_CADLike_witness :
  let file := mkFile "Plan.DWG" "" [] in
  let env := mkEnv (fun _ => false) (fun _ => None) (fun _ => None)
                   (fun _ => "") (fun _ => 2025) (fun _ => 0)
                   (fun _ => "") (fun _ => "") None None in
  classify file = CADLike /\
  fileToContentBlock env file =
    (data <- fileToBase64 env file ;; uploadBranch env file).
Proof.
  intros file env.
  apply (C3_cad_extension_classified_CADLike env file); reflexivity.
Defined.

(** C3, as stated, fails: a [.dwg] name with an image media type is built as
    an image, and with the PDF media type as a PDF. *)
Lemma C3_counterexample :
  let drawing := mkFile "plan.dwg" "image/png" [] in
  let scan := mkFile "plan.dxf" "application/pdf" [] in
  isCADFile drawing = true /\ classify drawing = Image /\
  isCADFile scan = true /\ classify scan = PDF /\
  forall env w, readFails env drawing = false ->
    fileToContentBlock env drawing w =
      (Fulfilled (ImageBlock "image/png" (Some "") "plan.dwg"), w).
Proof.
  repeat split; try reflexivity.
  intros env w Hread. unfold fileToContentBlock, fileToBase64, await. simpl.
  rewrite Hread. reflexivity.
Qed.

(** ** Removal *)

Lemma filterIndexed_past {A} (idx : nat) (l : list A) (k : nat) :
  idx < k ->
  UseFileUpload.filterIndexed (fun _ j => negb (j =? idx)) k l = l.
Proof.
  revert k; induction l as [| y l IH]; intros k Hk; simpl; [reflexivity |].
  destruct (Nat.eqb_spec k idx); [lia |]. simpl. f_equal. apply IH. lia.
Qed.

Lemma filterIndexed_remove {A} (idx : nat) (l : list A) (i : nat) :
  i <= idx ->
  UseFileUpload.filterIndexed (fun _ j => negb (j =? idx)) i l
  = firstn (idx - i) l ++ skipn (S (idx - i)) l.
Proof.
  revert i; induction l as [| x l IH]; intros i Hle; simpl.
  - now destruct (idx - i).
  - destruct (Nat.eqb_spec i idx) as [-> | Hne]; simpl.
    + rewrite Nat.sub_diag. simpl. apply filterIndexed_past. lia.
    + rewrite IH by lia.
      replace (idx - i) with (S (idx - S i)) by lia. reflexivity.
Qed.

(** C9.  On a collection of size N and an index below N, [removeBlock]
    leaves the elements before the index followed by the elements after it,
    in their order, N-1 elements in all. *)
Theorem C9_removeBlock_removes_one (prev : list ContentBlock) (idx : nat) :
  idx < length prev ->
  UseFileUpload.removeBlock idx prev = firstn idx prev ++ skipn (S idx) prev /\
  length (UseFileUpload.removeBlock idx prev) = length prev - 1 /\
  (forall j, j < idx ->
     nth_error (UseFileUpload.removeBlock idx prev) j = nth_error prev j) /\
  (forall j, idx <= j ->
     nth_error (UseFileUpload.removeBlock idx prev) j = nth_error prev (S j)).
Proof.
  intros Hlt. unfold UseFileUpload.removeBlock.
  rewrite filterIndexed_remove by lia. rewrite Nat.sub_0_r.
  assert (Hfirst : length (firstn idx prev) = idx)
    by (rewrite length_firstn; lia).
  repeat split.
  - rewrite length_app, length_skipn, Hfirst. lia.
  - intros j Hj. rewrite nth_error_app1 by lia. rewrite nth_error_firstn.
    destruct (Nat.ltb_spec j idx); [reflexivity | lia].
  - intros j Hj. rewrite nth_error_app2 by lia. rewrite Hfirst.
    rewrite nth_error_skipn. f_equal. lia.
Qed.

Lemma C9_removeBlock_removes_one_witness :
  let a := ImageBlock "image/png" (Some "QQ==") "a.png" in
  let b := InlineFileBlock "application/pdf" (Some "Qg==") "b.pdf" in
  let c := ImageBlock "image/gif" (Some "Qw==") "c.gif" in
  UseFileUpload.removeBlock 1 [a; b; c] = firstn 1 [a; b; c] ++ skipn 2 [a; b; c] /\
  length (UseFileUpload.removeBlock 1 [a; b; c]) = length [a; b; c] - 1 /\
  (forall j, j < 1 ->
     nth_error (UseFileUpload.removeBlock 1 [a; b; c]) j = nth_error [a; b; c] j) /\
  (forall j, 1 <= j ->
     nth_error (UseFileUpload.removeBlock 1 [a; b; c]) j = nth_error [a; b; c] (S j)).
Proof.
  intros a b c. apply (C9_removeBlock_removes_one [a; b; c] 1). simpl. lia.
Defined.

(** ** What a build returns *)

Ltac run_promise :=
  unfold await, tryCatch, resolve, reject, toast in *; cbn beta iota in *.

Lemma uploadBranch_fulfilled (env : Env) (file : File) (w w' : World) (b : ContentBlock) :
  uploadBranch env file w = (Fulfilled b, w') ->
  exists s3Result w1,
    uploadFileToS3 env file
      (mkWorld (toasts w ++ [toast_info ("Uploading " +++ name file +++ " to cloud storage...")])
               (bucket w) (tick w))
    = (Fulfilled s3Result, w1) /\
    b = RemoteFileBlock s3Result.
Proof.
  unfold uploadBranch. run_promise.
  destruct (uploadFileToS3 env file _) as [[s3Result | e] w1] eqn:Hup;
    intros H; [| discriminate].
  injection H as <- _. now exists s3Result, w1.
Qed.

(** A fulfilled build returned one of the three object literals. *)
Lemma fileToContentBlock_fulfilled (env : Env) (file : File) (w w' : World) (b : ContentBlock) :
  fileToContentBlock env file w = (Fulfilled b, w') ->
  (includes supportedImageTypes (type file) = true /\
   b = ImageBlock (type file) (stripDataUrlPrefix (readAsDataURL file)) (name file))
  \/ (type file = "application/pdf" /\
      b = InlineFileBlock "application/pdf"
            (stripDataUrlPrefix (readAsDataURL file)) (name file))
  \/ (exists s3Result, b = RemoteFileBlock s3Result).
Proof.
  rewrite fileToContentBlock_by_category. unfold fileToBase64.
  pose proof (fun H => proj1 (String.eqb_eq (type file) "application/pdf") H) as Hpdf.
  unfold classify.
  destruct (isSupported file); cbn [negb];
    [| run_promise; discriminate].
  destruct (includes supportedImageTypes (type file)) eqn:Himg.
  { destruct (readFails env file); run_promise; [discriminate |].
    intros H. injection H as <- _. left. now split. }
  destruct (type file === "application/pdf") eqn:Hp.
  { destruct (readFails env file); run_promise; [discriminate |].
    intros H. injection H as <- _. right. left. split; [now apply Hpdf | reflexivity]. }
  assert (Hup : forall w0, uploadBranch env file w0 = (Fulfilled b, w') ->
                exists s3Result, b = RemoteFileBlock s3Result).
  { intros w0 H0. apply uploadBranch_fulfilled in H0.
    destruct H0 as (r & _ & _ & ->). now exists r. }
  destruct (includes supportedCADTypes (type file) || isCADFile file).
  { destruct (readFails env file); run_promise; [discriminate |].
    intros H. right. right. eapply Hup, H. }
  destruct (includes supportedPythonTypes (type file) || isPythonFile file).
  { destruct (readFails env file); run_promise; [discriminate |].
    intros H. right. right. eapply Hup, H. }
  destruct (readFails env file); run_promise; discriminate.
Qed.

(** ** The guards on the blocks of the pipeline *)

Lemma image_types_start_with_image (m : string) :
  includes supportedImageTypes m = true -> startsWith m "image/" = true.
Proof.
  rewrite includes_In. unfold supportedImageTypes. simpl.
  intros [<- | [<- | [<- | [<- | []]]]]; reflexivity.
Qed.

Lemma isContentBlock_image (m : string) (d : option string) (n : string) :
  isContentBlock (toJs (ImageBlock m d n)) = startsWith m "image/".
Proof.
  unfold isContentBlock, toJs. cbn.
  destruct (startsWith m "image/"); reflexivity.
Qed.

(** C10.  Every block that the object-store variant of
    [fileToContentBlock] is fulfilled with passes [isContentBlock], and
    passes [isBase64ContentBlock] exactly when its [source_type] is
    ["base64"]. *)
Theorem C10_produced_blocks_pass_guards
  (env : Env) (file : File) (w w' : World) (b : ContentBlock) :
  fileToContentBlock env file w = (Fulfilled b, w') ->
  isContentBlock (toJs b) = true /\
  (isBase64ContentBlock (toJs b) = true <-> block_source_type b = "base64").
Proof.
  intros H. apply fileToContentBlock_fulfilled in H.
  destruct H as [[Himg ->] | [[_ ->] | [r ->]]].
  - apply image_types_start_with_image in Himg.
    unfold isBase64ContentBlock. rewrite isContentBlock_image, Himg.
    split; [reflexivity | split; reflexivity].
  - split; [reflexivity | split; reflexivity].
  - split; [reflexivity |]. split; intros H; discriminate H.
Qed.

(** ** Base64 *)

Section Base64Facts.
Import Base64.
Local Arguments Byte.of_bits : simpl never.
Local Arguments Byte.to_bits : simpl never.









End Base64Facts.

(** ** Splitting at a separator *)

Section SplitFacts.

Variable sep : ascii.

Lemma mem_append (c : ascii) (a b : string) :
  mem c (a +++ b) = mem c a || mem c b.
Proof.
  induction a as [| x a IH]; simpl; [reflexivity |].
  rewrite IH. now rewrite orb_assoc.
Qed.

Lemma split_not_nil (s : string) : split sep s <> [].
Proof.
  destruct s as [| c s]; simpl; [discriminate |].
  destruct (Ascii.eqb c sep); [discriminate |].
  destruct (split sep s); discriminate.
Qed.

Lemma split_without_sep (s : string) :
  mem sep s = false -> split sep s = [s].
Proof.
  induction s as [| c s IH]; simpl; [reflexivity |].
  destruct (Ascii.eqb c sep); simpl; [discriminate |].
  intros H. now rewrite (IH H).
Qed.


(** No segment holds the separator. *)
Lemma split_segments (s : string) :
  Forall (fun seg => mem sep seg = false) (split sep s).
Proof.
  induction s as [| c s IH]; simpl.
  - repeat constructor.
  - destruct (Ascii.eqb c sep) eqn:Hc.
    + constructor; [reflexivity | exact IH].
    + destruct (split sep s) as [| seg segs].
      * repeat constructor. simpl. now rewrite Hc.
      * inversion IH as [| ? ? Hseg Hsegs]; subst.
        constructor; [| exact Hsegs]. simpl. now rewrite Hc, Hseg.
Qed.

(** A string that holds the separator has a second segment. *)
Lemma split_second (s : string) :
  mem sep s = true -> exists a b rest, split sep s = a :: b :: rest.
Proof.
  induction s as [| c s IH]; simpl; [discriminate |].
  destruct (Ascii.eqb c sep); simpl.
  - intros _. destruct (split sep s) as [| b rest] eqn:Hs.
    + now apply split_not_nil in Hs.
    + now exists EmptyString, b, rest.
  - intros H. destruct (IH H) as (a & b & rest & ->).
    now exists (String c a), b, rest.
Qed.

End SplitFacts.

(** ** [fileToBase64] *)

Lemma stripDataUrlPrefix_no_comma (result text : string) :
  stripDataUrlPrefix result = Some text -> mem ","%char text = false.
Proof.
  unfold stripDataUrlPrefix. intros H. apply nth_error_In in H.
  pose proof (split_segments ","%char result) as Hall.
  rewrite Forall_forall in Hall. now apply Hall.
Qed.

Lemma stripDataUrlPrefix_defined (result : string) :
  mem ","%char result = true -> exists text, stripDataUrlPrefix result = Some text.
Proof.
  intros H. destruct (split_second ","%char result H) as (a & b & rest & Hs).
  exists b. unfold stripDataUrlPrefix. now rewrite Hs.
Qed.


Lemma readAsDataURL_has_comma (file : File) :
  mem ","%char (readAsDataURL file) = true.
Proof.
  unfold readAsDataURL. rewrite !mem_append. simpl. now rewrite !orb_true_r.
Qed.

Lemma comma_free_no_prefix (text : string) :
  mem ","%char text = false ->
  forall p rest, text <> p +++ ";base64," +++ rest.
Proof.
  intros H p rest ->. rewrite !mem_append in H. simpl in H.
  rewrite !orb_true_r in H. discriminate.
Qed.







Lemma C10_produced_blocks_pass_guards_witness :
  exists b w',
    fileToContentBlock Sample.healthy Sample.drawing Sample.world0 = (Fulfilled b, w') /\
    isContentBlock (toJs b) = true /\
    (isBase64ContentBlock (toJs b) = true <-> block_source_type b = "base64").
Proof.
  eexists. eexists. split; [reflexivity |].
  eapply (C10_produced_blocks_pass_guards Sample.healthy Sample.drawing Sample.world0).
  reflexivity.
Defined.

(** ** The extension of a name *)

Section ExtensionFacts.




(** The last segment of a string that holds the separator is what follows
    its last occurrence. *)
Lemma pop_split_decompose (sep : ascii) (s : string) :
  mem sep s = true ->
  exists stem e,
    s = stem +++ String sep e /\ mem sep e = false /\
    pop (split sep s) = Some e.
Proof.
  induction s as [| c s IH]; simpl; [discriminate |].
  destruct (Ascii.eqb_spec c sep) as [-> | Hne]; simpl.
  - intros _. destruct (mem sep s) eqn:Hs.
    + destruct (IH eq_refl) as (stem & e & -> & He & Hpop).
      exists (String sep stem), e. repeat split; [exact He |].
      destruct (split sep (stem +++ String sep e)) eqn:Hsp;
        [now apply split_not_nil in Hsp | exact Hpop].
    + exists EmptyString, s. repeat split; [exact Hs |].
      now rewrite (split_without_sep _ _ Hs).
  - intros Hs. destruct (IH Hs) as (stem & e & -> & He & Hpop).
    exists (String c stem), e. repeat split; [exact He |].
    destruct (split_second sep _ Hs) as (a & b & rest & Hsp).
    rewrite Hsp in *. exact Hpop.
Qed.

Lemma pop_split_suffix (sep : ascii) (p q : string) :
  mem sep q = false -> pop (split sep (p +++ String sep q)) = Some q.
Proof.
  intros Hq.
  assert (Hm : mem sep (p +++ String sep q) = true).
  { rewrite mem_append. simpl. rewrite Ascii.eqb_refl. now rewrite orb_true_r. }
  destruct (pop_split_decompose sep _ Hm) as (stem & e & Heq & He & ->).
  f_equal. symmetry.
  assert (Hlen : String.length e = String.length q).
  { clear Hm. revert stem Heq. induction p as [| c p IH]; intros stem Heq.
    - destruct stem as [| d stem]; simpl in Heq.
      + now injection Heq as ->.
      + injection Heq as <- Heq. subst q. rewrite mem_append in Hq. simpl in Hq.
        rewrite Ascii.eqb_refl, orb_true_r in Hq. discriminate.
    - destruct stem as [| d stem]; simpl in Heq.
      + injection Heq as -> Heq. subst e. rewrite mem_append in He. simpl in He.
        rewrite Ascii.eqb_refl, orb_true_r in He. discriminate.
      + injection Heq as _ Heq. now apply (IH stem). }
  apply (append_inj_r p stem (String sep q) (String sep e)) in Heq.
  - destruct Heq as [_ Heq]. now injection Heq.
  - simpl. now rewrite Hlen.
Qed.



End ExtensionFacts.

(** ** Numbers in a key *)



(** ** The upload endpoint *)

Section Endpoint.

Variable env : Env.

Lemma extension_test (file : File) :
  negb (endsWith (toLowerCase (name file)) ".dwg")
    && negb (endsWith (toLowerCase (name file)) ".dxf")
  = negb (isCADFile file).
Proof. unfold isCADFile. now rewrite negb_orb. Qed.

Lemma POST_rejects_extension (file : File) (w : World) :
  isCADFile file = false ->
  POST env (FormDataBody (Some (EntryFile file))) w =
    (Fulfilled (JsonError "Only .dwg and .dxf files are supported" BadRequest),
     mkWorld (toasts w) (bucket w) (S (tick w))).
Proof.
  intros Hcad. unfold POST, served, tryCatch.
  rewrite extension_test, Hcad. reflexivity.
Qed.

Lemma POST_store_fails (file : File) (w : World) (e : Thrown) :
  isCADFile file = true -> sendFails env (tick w) = Some e ->
  POST env (FormDataBody (Some (EntryFile file))) w =
    (Fulfilled (JsonError ("Upload failed: " +++ messageOf e "Unknown error")
                          InternalServerError),
     mkWorld (toasts w) (bucket w) (S (tick w))).
Proof.
  intros Hcad Hsend. unfold POST, served, tryCatch, await, s3Client_send.
  rewrite extension_test, Hcad. cbn [negb]. rewrite Hsend. reflexivity.
Qed.

Lemma POST_accepts (file : File) (w : World) :
  isCADFile file = true -> sendFails env (tick w) = None ->
  let now := tick w in
  let fileExtension := fileExtensionOf (name file) in
  let month := padStart 2 "0" (ofNat (getMonth env now + 1)) in
  let s3Key := s3KeyOf (getFullYear env now) month (uuidv4 env now) fileExtension in
  let contentType := orElse (Some (type file)) "application/octet-stream" in
  POST env (FormDataBody (Some (EntryFile file))) w =
    (Fulfilled (JsonResult
       (mkResult s3Key (BUCKET_NAME env) (region env)
          (Meta.mk (uuidv4 env now +++ "." +++ fileExtension) (name file)
                   (size file) contentType (replyISOString env now)))),
     mkWorld (toasts w)
             (putObject s3Key
                (mkObject (bytes file) contentType (size file) (name file)
                          (putISOString env now))
                (bucket w))
             (S (tick w))).
Proof.
  intros Hcad Hsend. unfold POST, served, tryCatch, await, s3Client_send.
  rewrite extension_test, Hcad. cbn [negb]. rewrite Hsend. reflexivity.
Qed.

(** The endpoint always answers, and writes to the store only when it
    answers with a result. *)
Lemma POST_answers (request : NextRequest) (w : World) :
  exists response w',
    POST env request w = (Fulfilled response, w') /\
    tick w' = S (tick w) /\
    toasts w' = toasts w /\
    ((exists error s, response = JsonError error s /\ bucket w' = bucket w)
     \/ (exists file result,
           request = FormDataBody (Some (EntryFile file)) /\
           isCADFile file = true /\ sendFails env (tick w) = None /\
           response = JsonResult result)).
Proof.
  destruct request as [e | [[file | s] |]].
  - eexists. eexists. split; [reflexivity |]. repeat split.
    left. now eexists; eexists.
  - destruct (isCADFile file) eqn:Hcad.
    + destruct (sendFails env (tick w)) as [e |] eqn:Hsend.
      * rewrite (POST_store_fails file w e Hcad Hsend).
        eexists. eexists. split; [reflexivity |]. repeat split.
        left. now eexists; eexists.
      * rewrite (POST_accepts file w Hcad Hsend).
        eexists. eexists. split; [reflexivity |]. repeat split.
        right. exists file. eexists. now repeat split.
    + rewrite (POST_rejects_extension file w Hcad).
      eexists. eexists. split; [reflexivity |]. repeat split.
      left. now eexists; eexists.
  - destruct s; eexists; eexists; (split; [reflexivity |]); repeat split;
      left; now eexists; eexists.
  - eexists. eexists. split; [reflexivity |]. repeat split.
    left. now eexists; eexists.
Qed.



End Endpoint.

(** ** Store keys *)









(** ** Uploads of files that are not drawings *)

Lemma uploadFileToS3_rejects (env : Env) (file : File) (w : World) :
  isCADFile file = false ->
  exists message,
    uploadFileToS3 env file w =
      (Rejected (Error ("Failed to upload file to S3: " +++ message)),
       mkWorld (toasts w) (bucket w) (S (tick w))).
Proof.
  intros Hcad. unfold uploadFileToS3, tryCatch, await, fetch.
  destruct (fetchFails env (tick w)) as [message |].
  - exists message. reflexivity.
  - rewrite (POST_rejects_extension env file w Hcad).
    exists "Only .dwg and .dxf files are supported". reflexivity.
Qed.

Lemma uploadBranch_rejects (env : Env) (file : File) (w : World) :
  isCADFile file = false ->
  exists e w', uploadBranch env file w = (Rejected e, w').
Proof.
  intros Hcad. unfold uploadBranch. run_promise.
  match goal with
  | |- context [uploadFileToS3 env file ?w1] =>
      destruct (uploadFileToS3_rejects env file w1 Hcad) as [message ->]
  end.
  now eexists; eexists.
Qed.

Lemma CodeLike_not_CAD (file : File) :
  classify file = CodeLike -> isCADFile file = false.
Proof.
  unfold classify.
  destruct (isSupported file); cbn [negb]; [| discriminate].
  destruct (includes supportedImageTypes (type file)); [discriminate |].
  destruct (type file === "application/pdf"); [discriminate |].
  destruct (includes supportedCADTypes (type file)); cbn [orb]; [discriminate |].
  destruct (isCADFile file); [discriminate | reflexivity].
Qed.

(** No build of a CodeLike file is ever fulfilled: the endpoint refuses the
    name. *)
Lemma CodeLike_build_rejected (env : Env) (file : File) (w : World) :
  classify file = CodeLike ->
  exists e w', fileToContentBlock env file w = (Rejected e, w').
Proof.
  intros Hc. rewrite fileToContentBlock_by_category, Hc.
  unfold await, fileToBase64.
  destruct (readFails env file); [now eexists; eexists |].
  cbn beta iota. unfold resolve.
  apply uploadBranch_rejects, CodeLike_not_CAD, Hc.
Qed.

(** The part of C5 that holds: on the upload branch the block is the
    endpoint's result, and a rejection of the upload is the rejection of the
    build. *)
Lemma upload_build_outcome (env : Env) (file : File) (w : World) :
  classify file = CADLike \/ classify file = CodeLike ->
  readFails env file = false ->
  let uploading :=
    mkWorld (toasts w ++ [toast_info ("Uploading " +++ name file +++ " to cloud storage...")])
            (bucket w) (tick w) in
  match uploadFileToS3 env file uploading with
  | (Fulfilled s3Result, w1) =>
      fileToContentBlock env file w =
        (Fulfilled (RemoteFileBlock s3Result),
         mkWorld (toasts w1 ++ [toast_success (name file +++ " uploaded successfully!")])
                 (bucket w1) (tick w1))
  | (Rejected e, w1) =>
      fileToContentBlock env file w =
        (Rejected e,
         mkWorld (toasts w1 ++ [toast_error ("Failed to upload " +++ name file +++ ". Please try again.")])
                 (bucket w1) (tick w1))
  end.
Proof.
  intros Hc Hread uploading. rewrite fileToContentBlock_by_category.
  assert (Hrun : (data <- fileToBase64 env file ;; uploadBranch env file) w
                 = uploadBranch env file w).
  { unfold await, fileToBase64. now rewrite Hread. }
  destruct Hc as [-> | ->]; rewrite Hrun; unfold uploadBranch; run_promise;
    fold uploading; destruct (uploadFileToS3 env file uploading) as [[r | e] w1];
    reflexivity.
Qed.

(** C5, at the failing input.  A Python file is CodeLike and its build is
    the upload branch, but no build of it is ever fulfilled, whatever the
    reader, the network and the store do: with everything healthy, the
    endpoint answers 400 to the name and the build is rejected after one
    failure notice.  A drawing goes through. *)
Theorem C5_python_upload_never_succeeds :
  classify Sample.script = CodeLike /\
  (forall env w, exists e w',
     fileToContentBlock env Sample.script w = (Rejected e, w')) /\
  fileToContentBlock Sample.healthy Sample.script Sample.world0 =
    (Rejected (Error "Failed to upload file to S3: Only .dwg and .dxf files are supported"),
     mkWorld [ toast_info "Uploading mesh.py to cloud storage...";
               toast_error "Failed to upload mesh.py. Please try again." ]
             [] 1) /\
  classify Sample.drawing = CADLike /\
  (exists s3Result w',
     fileToContentBlock Sample.healthy Sample.drawing Sample.world0 =
       (Fulfilled (RemoteFileBlock s3Result), w')).
Proof.
  split; [reflexivity |]. split.
  - intros env w. now apply CodeLike_build_rejected.
  - split; [reflexivity |]. split; [reflexivity |].
    eexists. eexists. reflexivity.
Qed.

(** ** The media type of a drawing *)

(** The inline-only variant writes the media type of a drawing from its
    extension when the file declares none, or plain text. *)
Lemma Legacy_cad_mime_fallback (env : Env) (file : File) (w w' : World) (b : ContentBlock) :
  type file = "" \/ type file = "text/plain" ->
  Legacy.fileToContentBlock env file w = (Fulfilled b, w') ->
  isCADFile file = true /\
  (endsWith (toLowerCase (name file)) ".dwg" = true ->
   carriedMimeType b = "application/acad") /\
  (endsWith (toLowerCase (name file)) ".dwg" = false ->
   endsWith (toLowerCase (name file)) ".dxf" = true /\
   carriedMimeType b = "application/dxf").
Proof.
  intros Hty. unfold Legacy.fileToContentBlock, Legacy.isSupported, fileToBase64.
  assert (Hcases :
    includes Legacy.supportedFileTypes (type file) = (type file === "text/plain") /\
    includes supportedImageTypes (type file) = false /\
    (type file === "application/pdf") = false /\
    includes supportedCADTypes (type file) = false /\
    Legacy.cadMimeType file =
      if endsWith (toLowerCase (name file)) ".dwg" then "application/acad"
      else if endsWith (toLowerCase (name file)) ".dxf" then "application/dxf"
      else type file).
  { unfold Legacy.cadMimeType. destruct Hty as [-> | ->]; repeat split. }
  destruct Hcases as (-> & -> & -> & -> & Hmime).
  cbn [orb]. unfold isCADFile in *.
  destruct (endsWith (toLowerCase (name file)) ".dwg") eqn:Hdwg;
    destruct (endsWith (toLowerCase (name file)) ".dxf") eqn:Hdxf;
    cbn [orb negb] in *;
    try (rewrite orb_true_r; cbn [negb]);
    try (rewrite orb_false_r);
    try (destruct (type file === "text/plain"); cbn [negb]);
    destruct (readFails env file); run_promise; intros H;
    try discriminate H; injection H as <- _; cbn [carriedMimeType];
    rewrite Hmime; repeat split; intros; try discriminate; try reflexivity;
    repeat split; reflexivity.
Qed.

(** C4, at the failing input.  In the object-store variant the block of a
    drawing carries the media type that the endpoint wrote: the declared
    one, or [application/octet-stream] when the file declares none.  A
    [.dxf] file declared as plain text keeps [text/plain], where the
    inline-only variant writes [application/dxf]. *)
Theorem C4_remote_block_keeps_declared_type :
  classify Sample.outline = CADLike /\
  type Sample.outline = "text/plain" /\
  endsWith (toLowerCase (name Sample.outline)) ".dxf" = true /\
  (exists b w',
     fileToContentBlock Sample.healthy Sample.outline Sample.world0 = (Fulfilled b, w') /\
     carriedMimeType b = "text/plain") /\
  (exists b w',
     Legacy.fileToContentBlock Sample.healthy Sample.outline Sample.world0
       = (Fulfilled b, w') /\
     carriedMimeType b = "application/dxf") /\
  classify Sample.drawing = CADLike /\
  type Sample.drawing = "" /\
  endsWith (toLowerCase (name Sample.drawing)) ".dwg" = true /\
  (exists b w',
     fileToContentBlock Sample.healthy Sample.drawing Sample.world0 = (Fulfilled b, w') /\
     carriedMimeType b = "application/octet-stream").
Proof.
  do 3 (split; [reflexivity |]).
  split; [eexists; eexists; split; reflexivity |].
  split; [eexists; eexists; split; reflexivity |].
  do 3 (split; [reflexivity |]).
  eexists. eexists. split; reflexivity.
Qed.

(** ** Duplicates *)

(** The duplicate test reads the generated file name of an uploaded block,
    never its original name. *)
Lemma isDuplicate_remote (file : File) (s3Result : S3UploadResult) :
  Meta.filename (metadata s3Result) <> name file ->
  UseFileUpload.isDuplicate file [RemoteFileBlock s3Result] = false /\
  UseFileUpload.isDuplicatePaste [RemoteFileBlock s3Result] file = false.
Proof.
  intros Hne. apply String.eqb_neq in Hne.
  unfold UseFileUpload.isDuplicate, UseFileUpload.isDuplicatePaste.
  cbn [existsb block_type block_mime_type metadata_filename metadata_name strictEq].
  rewrite Hne.
  destruct (type file === "application/pdf"); [split; reflexivity |].
  destruct (UseFileUpload.isCADFile file), (UseFileUpload.isValidFile file);
    split; reflexivity.
Qed.

(** ** Promises and the toasts they add *)

Section Frames.

Lemma silent_resolve {A} (a : A) : silent (resolve a).
Proof.
  intros b t. exists (Fulfilled a), [], b, t. split; [reflexivity |].
  intros shown. unfold resolve. now rewrite app_nil_r.
Qed.

Lemma silent_reject {A} (e : Thrown) : silent (@reject A e).
Proof.
  intros b t. exists (Rejected e), [], b, t. split; [reflexivity |].
  intros shown. unfold reject. now rewrite app_nil_r.
Qed.

Lemma silent_await {A B} (p : Promise A) (k : A -> Promise B) :
  silent p -> (forall a, silent (k a)) -> silent (await p k).
Proof.
  intros Hp Hk b t.
  destruct (Hp b t) as ([a | e] & ts & b1 & t1 & -> & Hrun).
  - destruct (Hk a b1 t1) as (r2 & ts2 & b2 & t2 & -> & Hrun2).
    exists r2, [], b2, t2. split; [reflexivity |].
    intros shown. unfold await. rewrite Hrun, Hrun2. now rewrite !app_nil_r.
  - exists (Rejected e), [], b1, t1. split; [reflexivity |].
    intros shown. unfold await. now rewrite Hrun.
Qed.

Lemma silent_tryCatch {A} (p : Promise A) (handler : Thrown -> Promise A) :
  silent p -> (forall e, silent (handler e)) -> silent (tryCatch p handler).
Proof.
  intros Hp Hh b t.
  destruct (Hp b t) as ([a | e] & ts & b1 & t1 & -> & Hrun).
  - exists (Fulfilled a), [], b1, t1. split; [reflexivity |].
    intros shown. unfold tryCatch. now rewrite Hrun.
  - destruct (Hh e b1 t1) as (r2 & ts2 & b2 & t2 & -> & Hrun2).
    exists r2, [], b2, t2. split; [reflexivity |].
    intros shown. unfold tryCatch. rewrite Hrun, Hrun2. now rewrite !app_nil_r.
Qed.

Lemma silent_served {A} (p : Promise A) : silent p -> silent (served p).
Proof.
  intros Hp b t. destruct (Hp b t) as (r & ts & b1 & t1 & -> & Hrun).
  exists r, [], b1, (S t1). split; [reflexivity |].
  intros shown. unfold served. now rewrite Hrun.
Qed.

(** A promise that first reads the tick. *)
Lemma silent_at_tick {A} (p : Promise A) (at_tick : nat -> Promise A) :
  (forall w, p w = at_tick (tick w) w) ->
  (forall n, silent (at_tick n)) -> silent p.
Proof.
  intros Hp Hf b t. destruct (Hf t b t) as (r & ts & b1 & t1 & -> & Hrun).
  exists r, [], b1, t1. split; [reflexivity |].
  intros shown. now rewrite Hp, <- Hrun.
Qed.

Variable env : Env.

Lemma silent_s3Client_send (Key : string) (o : S3Object) :
  silent (s3Client_send env Key o).
Proof.
  intros b t. unfold s3Client_send. cbn [tick bucket toasts].
  destruct (sendFails env t) as [e |].
  - exists (Rejected e), [], b, t. split; [reflexivity |].
    intros shown. now rewrite app_nil_r.
  - exists (Fulfilled tt), [], (putObject Key o b), t. split; [reflexivity |].
    intros shown. now rewrite app_nil_r.
Qed.

Lemma silent_POST (request : NextRequest) : silent (POST env request).
Proof.
  apply (silent_at_tick _ (fun now =>
    served
      (tryCatch
        (match request with
         | MalformedBody e => reject e
         | FormDataBody None =>
             resolve (JsonError "No file provided" BadRequest)
         | FormDataBody (Some (EntryString EmptyString)) =>
             resolve (JsonError "No file provided" BadRequest)
         | FormDataBody (Some (EntryString _)) =>
             reject (Error "Cannot read properties of undefined (reading 'toLowerCase')")
         | FormDataBody (Some (EntryFile file)) =>
             let fileName := toLowerCase (name file) in
             if negb (endsWith fileName ".dwg") && negb (endsWith fileName ".dxf")
             then resolve (JsonError "Only .dwg and .dxf files are supported" BadRequest)
             else
               let fileExtension := fileExtensionOf (name file) in
               let uniqueId := uuidv4 env now in
               let year := getFullYear env now in
               let month := padStart 2 "0" (ofNat (getMonth env now + 1)) in
               let s3Key := s3KeyOf year month uniqueId fileExtension in
               let contentType :=
                 orElse (Some (type file)) "application/octet-stream" in
               (s3Client_send env s3Key
                  (mkObject (bytes file) contentType (size file) (name file)
                            (putISOString env now)) ;;
                resolve (JsonResult
                  (mkResult s3Key (BUCKET_NAME env) (region env)
                     (Meta.mk (uniqueId +++ "." +++ fileExtension) (name file)
                              (size file) contentType
                              (replyISOString env now)))))
         end)
        (fun error =>
           resolve (JsonError ("Upload failed: " +++ messageOf error "Unknown error")
                              InternalServerError))))).
  - reflexivity.
  - intros now. apply silent_served, silent_tryCatch;
      [| intros e; apply silent_resolve].
    destruct request as [e | [[file | [| c s]] |]];
      try apply silent_resolve; try apply silent_reject.
    cbv zeta.
    destruct (negb _ && negb _); [apply silent_resolve |].
    apply silent_await; [apply silent_s3Client_send | intros _; apply silent_resolve].
Qed.

Lemma silent_fetch (file : File) : silent (fetch env file).
Proof.
  apply (silent_at_tick _ (fun now =>
    match fetchFails env now with
    | Some message => served (reject (Error message))
    | None => POST env (FormDataBody (Some (EntryFile file)))
    end)).
  - intros w. unfold fetch. now destruct (fetchFails env (tick w)).
  - intros now. destruct (fetchFails env now).
    + apply silent_served, silent_reject.
    + apply silent_POST.
Qed.

Lemma silent_uploadFileToS3 (file : File) : silent (uploadFileToS3 env file).
Proof.
  unfold uploadFileToS3. apply silent_tryCatch; [| intros e; apply silent_reject].
  apply silent_await; [apply silent_fetch |].
  intros [error s | result]; [apply silent_reject | apply silent_resolve].
Qed.

(** What the upload client throws is an [Error]. *)
Lemma uploadFileToS3_throws_Error (file : File) (w w' : World) (e : Thrown) :
  uploadFileToS3 env file w = (Rejected e, w') -> isErrorRejection (@Rejected unit e) = true.
Proof.
  unfold uploadFileToS3, tryCatch, reject.
  destruct (await _ _ w) as [[r | e0] w1]; intros H; [discriminate |].
  now injection H as <- _.
Qed.

Lemma quiet_info (message : string) : quiet (toast_info message).
Proof. intros rest H. discriminate H. Qed.

Lemma quiet_success (message : string) : quiet (toast_success message).
Proof. intros rest H. discriminate H. Qed.

Lemma quiet_error (c : ascii) (message : string) :
  c <> "E"%char -> quiet (toast_error (String c message)).
Proof. intros Hc rest H. injection H as H _. contradiction. Qed.

End Frames.

(** ** Tasks *)

Section Tasks.

(** Induction on a task: what holds of a settled task, and of a waiting
    task when it holds of every task it can go on as, holds of all. *)
Lemma Task_induction {A} (P : Task A -> Prop)
  (HS : forall r, P (Settle r))
  (HW : forall resume, (forall w, P (fst (resume w))) -> P (Wait resume))
  (t : Task A) : P t.
Proof.
  revert t. fix IH 1. intros [r | resume].
  - apply HS.
  - apply HW. intros w. apply IH.
Qed.

Lemma settle_andThen {A B} (t : Task A) (k : A -> Async B) (w : World) :
  (let '(t2, w2) := Async.andThen t k w in settle t2 w2)
  = match settle t w with
    | (Fulfilled a, w1) => alone (k a) w1
    | (Rejected e, w1) => (Rejected e, w1)
    end.
Proof.
  revert w. induction t as [[a | e] | resume IH] using Task_induction; intros w.
  - reflexivity.
  - reflexivity.
  - cbn [Async.andThen settle]. specialize (IH w).
    destruct (resume w) as [t' w']. exact (IH w').
Qed.

Lemma alone_await {A B} (p : Async A) (k : A -> Async B) (w : World) :
  alone (Async.await p k) w = await (alone p) (fun a => alone (k a)) w.
Proof.
  unfold Async.await, await, alone. destruct (p w) as [t w1].
  exact (settle_andThen t k w1).
Qed.

Lemma settle_orHandle {A} (t : Task A) (handler : Thrown -> Async A) (w : World) :
  (let '(t2, w2) := Async.orHandle t handler w in settle t2 w2)
  = match settle t w with
    | (Fulfilled a, w1) => (Fulfilled a, w1)
    | (Rejected e, w1) => alone (handler e) w1
    end.
Proof.
  revert w. induction t as [[a | e] | resume IH] using Task_induction; intros w.
  - reflexivity.
  - reflexivity.
  - cbn [Async.orHandle settle]. specialize (IH w).
    destruct (resume w) as [t' w']. exact (IH w').
Qed.

Lemma alone_tryCatch {A} (p : Async A) (handler : Thrown -> Async A) (w : World) :
  alone (Async.tryCatch p handler) w
  = tryCatch (alone p) (fun e => alone (handler e)) w.
Proof.
  unfold Async.tryCatch, tryCatch, alone. destruct (p w) as [t w1].
  exact (settle_orHandle t handler w1).
Qed.

Lemma alone_now {A} (p : Promise A) (w : World) : alone (Async.now p) w = p w.
Proof. unfold alone, Async.now. now destruct (p w). Qed.

Lemma alone_onEvent {A} (p : Promise A) (w : World) : alone (Async.onEvent p) w = p w.
Proof. unfold alone, Async.onEvent. cbn. unfold Async.now. now destruct (p w). Qed.

Ltac run_alone :=
  unfold alone, Async.tryCatch, Async.await, Async.onEvent, Async.now,
    Async.resolve, Async.reject, Async.toast, Async.json, settled;
  cbn [Async.andThen Async.orHandle settle].

Lemma alone_uploadFileToS3 (env : Env) (file : File) (w : World) :
  alone (Async.uploadFileToS3 env file) w = uploadFileToS3 env file w.
Proof.
  unfold Async.uploadFileToS3, uploadFileToS3, Async.fetch. run_alone.
  unfold tryCatch, await.
  destruct (fetch env file w) as [[[error s | result] | e] w1]; reflexivity.
Qed.

Lemma alone_uploadBranch (env : Env) (file : File) (w : World) :
  alone (Async.uploadBranch env file) w = uploadBranch env file w.
Proof.
  unfold Async.uploadBranch, uploadBranch.
  rewrite alone_tryCatch. unfold tryCatch.
  rewrite alone_await. unfold Async.toast, await. rewrite alone_now.
  unfold toast. cbn beta iota.
  rewrite alone_await. unfold await. rewrite alone_uploadFileToS3.
  destruct (uploadFileToS3 env file _) as [[result | e] w1];
    run_alone; reflexivity.
Qed.

Lemma alone_fileToContentBlock (env : Env) (file : File) (w : World) :
  alone (Async.fileToContentBlock env file) w = fileToContentBlock env file w.
Proof.
  unfold Async.fileToContentBlock, fileToContentBlock.
  destruct (negb (isSupported file)); [reflexivity |].
  rewrite alone_await. unfold await, Async.fileToBase64.
  rewrite alone_onEvent.
  destruct (fileToBase64 env file w) as [[data | e] w1]; [| reflexivity].
  destruct (includes supportedImageTypes (type file)); [reflexivity |].
  destruct (type file === "application/pdf"); [reflexivity |].
  destruct (includes supportedCADTypes (type file) || isCADFile file
            || includes supportedPythonTypes (type file) || isPythonFile file);
    [apply alone_uploadBranch | reflexivity].
Qed.

Lemma alone_inlineFileToContentBlock (env : Env) (file : File) (w : World) :
  alone (Async.inlineFileToContentBlock env file) w
  = Legacy.fileToContentBlock env file w.
Proof.
  unfold Async.inlineFileToContentBlock, Legacy.fileToContentBlock.
  destruct (negb (Legacy.isSupported file)); [reflexivity |].
  rewrite alone_await. unfold await, Async.fileToBase64.
  rewrite alone_onEvent.
  destruct (fileToBase64 env file w) as [[data | e] w1]; [| reflexivity].
  destruct (includes supportedImageTypes (type file)); [reflexivity |].
  destruct (type file === "application/pdf"); [reflexivity |].
  destruct (includes supportedCADTypes (type file) || isCADFile file);
    reflexivity.
Qed.

End Tasks.

(** ** The event loop *)

Section LoopFacts.

Context {A B : Type}.
Variable onSettled : Settled (list A) -> Promise B.

Lemma length_update {X} (i : nat) (x : X) (xs : list X) :
  length (update i x xs) = length xs.
Proof.
  revert i. induction xs as [| y xs IH]; intros [| i]; cbn; auto.
Qed.

Lemma nth_error_update {X} (i j : nat) (x : X) (xs : list X) :
  nth_error (update i x xs) j =
  if (i =? j) && (i <? length xs) then Some x else nth_error xs j.
Proof.
  revert i j. induction xs as [| y xs IH]; intros i j.
  - destruct i; cbn; now rewrite andb_false_r.
  - destruct i as [| i], j as [| j]; cbn [update nth_error]; try reflexivity.
    rewrite IH. reflexivity.
Qed.

Lemma tasks_notify (l : Loop A B) : tasks (notify onSettled l) = tasks l.
Proof.
  unfold notify. destruct (caught l); [reflexivity |].
  destruct (firstRejection (tasks l)); [| reflexivity].
  now destruct (onSettled _ _).
Qed.

Lemma arrive_waiting (i : nat) (l : Loop A B) (resume : World -> Task A * World) :
  nth_error (tasks l) i = Some (Wait resume) ->
  arrive onSettled i l =
    notify onSettled
      (mkLoop (update i (fst (resume (world l))) (tasks l)) (caught l)
              (snd (resume (world l)))).
Proof.
  intros Hi. unfold arrive. rewrite Hi. now destruct (resume (world l)).
Qed.

Lemma arrive_settled (i : nat) (l : Loop A B) :
  (forall resume, nth_error (tasks l) i <> Some (Wait resume)) ->
  arrive onSettled i l = l.
Proof.
  intros Hi. unfold arrive.
  destruct (nth_error (tasks l) i) as [[r | resume] |]; try reflexivity.
  now contradiction (Hi resume).
Qed.

Lemma complete_waiting (i : nat) (l : Loop A B) (resume : World -> Task A * World) :
  nth_error (tasks l) i = Some (Wait resume) ->
  complete onSettled i (Wait resume) l =
    complete onSettled i (fst (resume (world l))) (arrive onSettled i l).
Proof.
  intros Hi. rewrite (arrive_waiting i l resume Hi). cbn [complete].
  now destruct (resume (world l)).
Qed.

Lemma nth_error_arrive (i : nat) (l : Loop A B) (resume : World -> Task A * World) :
  nth_error (tasks l) i = Some (Wait resume) ->
  nth_error (tasks (arrive onSettled i l)) i = Some (fst (resume (world l))).
Proof.
  intros Hi. rewrite (arrive_waiting i l resume Hi), tasks_notify. cbn [tasks].
  rewrite nth_error_update, Nat.eqb_refl.
  assert (Hlt : i < length (tasks l)) by (apply nth_error_Some; congruence).
  apply Nat.ltb_lt in Hlt. now rewrite Hlt.
Qed.

(** A call joined alone: the caller goes on when it has settled. *)
Lemma single_events (arrival : list nat) (t : Task A) (w : World) :
  exists t' w',
    events onSettled arrival (notify onSettled (mkLoop [t] None w))
    = notify onSettled (mkLoop [t'] None w') /\
    settle t' w' = settle t w.
Proof.
  revert t w. induction arrival as [| i arrival IH]; intros t w.
  - exists t, w. now split.
  - cbn [events fold_left].
    destruct t as [r | resume].
    + rewrite arrive_settled.
      * apply IH.
      * intros resume. rewrite tasks_notify. cbn [tasks].
        destruct i as [| [| i]]; discriminate.
    + change (notify onSettled (mkLoop [Wait resume] None w))
        with (mkLoop [Wait resume] (@None (Settled B)) w).
      destruct i as [| i].
      * rewrite (arrive_waiting 0 (mkLoop [Wait resume] None w) resume eq_refl). cbn [tasks world caught update].
        destruct (IH (fst (resume w)) (snd (resume w))) as (t' & w' & Hrun & Hsettle).
        exists t', w'. split; [exact Hrun |].
        rewrite Hsettle. cbn [settle]. now destruct (resume w).
      * rewrite arrive_settled.
        -- apply (IH (Wait resume) w).
        -- intros resume'. cbn [tasks]. destruct i; discriminate.
Qed.

Lemma single_complete (t : Task A) (w : World) :
  complete onSettled 0 t (notify onSettled (mkLoop [t] None w))
  = notify onSettled (mkLoop [Settle (fst (settle t w))] None (snd (settle t w))).
Proof.
  revert w. induction t as [r | resume IH] using Task_induction; intros w.
  - reflexivity.
  - change (notify onSettled (mkLoop [Wait resume] None w))
      with (mkLoop [Wait resume] (@None (Settled B)) w).
    rewrite (complete_waiting 0 (mkLoop [Wait resume] None w) resume eq_refl).
    rewrite (arrive_waiting 0 (mkLoop [Wait resume] None w) resume eq_refl). cbn [tasks world caught update].
    rewrite IH. cbn [settle]. now destruct (resume w).
Qed.

Lemma Promise_all_single (arrival : list nat) (p : Async A) (w : World) :
  Promise_all onSettled arrival [p] w
  = let '(r, w') := alone p w in onSettled (joinAll [r]) w'.
Proof.
  unfold Promise_all, eventLoop, alone. cbn [callAll].
  destruct (p w) as [t w1].
  destruct (single_events arrival t w1) as (t' & w' & -> & <-).
  unfold drain. rewrite tasks_notify. cbn [tasks length seq fold_left].
  rewrite tasks_notify. cbn [tasks nth_error].
  rewrite single_complete.
  destruct (settle t' w') as [[a | e] w2]; cbn [fst snd].
  - reflexivity.
  - unfold notify. cbn [caught tasks firstRejection world joinAll].
    now destruct (onSettled (Rejected e) w2).
Qed.

End LoopFacts.

(** ** Lists updated at a place *)

Section UpdateFacts.

Lemma update_same {X} (i : nat) (x : X) (xs : list X) :
  nth_error xs i = Some x -> update i x xs = xs.
Proof.
  revert i. induction xs as [| y xs IH]; intros [| i] H; cbn in *;
    try discriminate.
  - now injection H as ->.
  - now rewrite IH.
Qed.

Lemma update_update {X} (i : nat) (x x' : X) (xs : list X) :
  update i x (update i x' xs) = update i x xs.
Proof.
  revert i. induction xs as [| y xs IH]; intros [| i]; cbn; try reflexivity.
  now rewrite IH.
Qed.

Lemma map_update {X Y} (f : X -> Y) (i : nat) (x : X) (xs : list X) :
  map f (update i x xs) = update i (f x) (map f xs).
Proof.
  revert i. induction xs as [| y xs IH]; intros [| i]; cbn; try reflexivity.
  now rewrite IH.
Qed.

Lemma Forall2_nth_error {X Y} (P : X -> Y -> Prop) (xs : list X) (ys : list Y)
  (i : nat) (y : Y) :
  Forall2 P xs ys -> nth_error ys i = Some y ->
  exists x, nth_error xs i = Some x /\ P x y.
Proof.
  intros H. revert i. induction H as [| x0 y0 xs ys Hxy H IH]; intros [| i] Hi;
    cbn in *; try discriminate.
  - injection Hi as <-. now exists x0.
  - now apply IH.
Qed.

Lemma Forall2_update {X Y} (P : X -> Y -> Prop) (xs : list X) (ys : list Y)
  (i : nat) (x : X) (y : Y) :
  Forall2 P xs ys -> P x y -> Forall2 P (update i x xs) (update i y ys).
Proof.
  intros H Hxy. revert i. induction H as [| x0 y0 xs ys H0 H IH]; intros [| i];
    cbn; constructor; auto.
Qed.

Lemma concat_update (i : nat) (s ts : list Toast) (ls : list (list Toast)) :
  nth_error ls i = Some s ->
  Permutation (concat (update i (s ++ ts) ls)) (concat ls ++ ts).
Proof.
  revert i. induction ls as [| l ls IH]; intros [| i] Hi; cbn in *;
    try discriminate.
  - injection Hi as ->. rewrite <- !app_assoc.
    apply Permutation_app_head, Permutation_app_comm.
  - rewrite <- app_assoc. apply Permutation_app_head. now apply IH.
Qed.

End UpdateFacts.

(** ** Two runs of the same calls *)

Section TwoRuns.

Context {A B B0 : Type}.
Variable onSettled : Settled (list A) -> Promise B.
Variable onSettled0 : Settled (list A) -> Promise B0.

Variable R : Loop A B -> Loop A B0 -> Prop.
Hypothesis R_tasks : forall l l0, R l l0 -> tasks l = tasks l0.
Hypothesis R_arrive :
  forall l l0 i resume,
    R l l0 -> nth_error (tasks l) i = Some (Wait resume) ->
    R (arrive onSettled i l) (arrive onSettled0 i l0).

Lemma events_R (arrival : list nat) (l : Loop A B) (l0 : Loop A B0) :
  R l l0 -> R (events onSettled arrival l) (events onSettled0 arrival l0).
Proof.
  revert l l0. induction arrival as [| i arrival IH]; intros l l0 HR.
  - exact HR.
  - cbn [events fold_left]. apply IH.
    destruct (nth_error (tasks l) i) as [[r | resume] |] eqn:Hi.
    + rewrite !arrive_settled; [exact HR | |]; intros resume;
        rewrite <- ?(R_tasks l l0 HR), Hi; discriminate.
    + now apply (R_arrive l l0 i resume).
    + rewrite !arrive_settled; [exact HR | |]; intros resume;
        rewrite <- ?(R_tasks l l0 HR), Hi; discriminate.
Qed.

Lemma complete_R (i : nat) (t : Task A) (l : Loop A B) (l0 : Loop A B0) :
  R l l0 -> nth_error (tasks l) i = Some t ->
  R (complete onSettled i t l) (complete onSettled0 i t l0).
Proof.
  revert l l0. induction t as [r | resume IH] using Task_induction;
    intros l l0 HR Hi.
  - exact HR.
  - assert (Hi0 : nth_error (tasks l0) i = Some (Wait resume))
      by (now rewrite <- (R_tasks l l0 HR)).
    rewrite (complete_waiting onSettled i l resume Hi).
    rewrite (complete_waiting onSettled0 i l0 resume Hi0).
    pose proof (R_arrive l l0 i resume HR Hi) as HR'.
    pose proof (nth_error_arrive onSettled i l resume Hi) as Hnext.
    pose proof (nth_error_arrive onSettled0 i l0 resume Hi0) as Hnext0.
    rewrite <- (R_tasks _ _ HR'), Hnext in Hnext0. injection Hnext0 as Heq.
    rewrite <- Heq. now apply IH.
Qed.

Lemma drain_R (l : Loop A B) (l0 : Loop A B0) :
  R l l0 -> R (drain onSettled l) (drain onSettled0 l0).
Proof.
  intros HR. unfold drain. rewrite <- (R_tasks l l0 HR).
  generalize (seq 0 (length (tasks l))) as indices.
  intros indices. revert l l0 HR.
  induction indices as [| i indices IH]; intros l l0 HR; [exact HR |].
  cbn [fold_left]. apply IH. rewrite <- (R_tasks l l0 HR).
  destruct (nth_error (tasks l) i) as [t |] eqn:Hi; [| exact HR].
  now apply complete_R.
Qed.

End TwoRuns.

(** ** Every call settles *)

Section Settles.

Context {A B : Type}.
Variable onSettled : Settled (list A) -> Promise B.

Lemma tasks_complete (i : nat) (t : Task A) (l : Loop A B) :
  nth_error (tasks l) i = Some t ->
  exists r, tasks (complete onSettled i t l) = update i (Settle r) (tasks l).
Proof.
  revert l. induction t as [r | resume IH] using Task_induction; intros l Hi.
  - exists r. cbn [complete]. symmetry. now apply update_same.
  - rewrite (complete_waiting onSettled i l resume Hi).
    destruct (IH (world l) (arrive onSettled i l)) as [r Hr].
    + now apply nth_error_arrive.
    + exists r. rewrite Hr, (arrive_waiting onSettled i l resume Hi), tasks_notify.
      cbn [tasks]. apply update_update.
Qed.

(** The calls before place [m] have settled. *)
Lemma drain_settled_from (n s : nat) (l : Loop A B) :
  s + n = length (tasks l) ->
  (forall j, j < s -> exists r, nth_error (tasks l) j = Some (Settle r)) ->
  forall j, j < s + n ->
    exists r,
      nth_error
        (tasks (fold_left
                  (fun l i =>
                     match nth_error (tasks l) i with
                     | Some t => complete onSettled i t l
                     | None => l
                     end)
                  (seq s n) l)) j
      = Some (Settle r).
Proof.
  revert s l. induction n as [| n IH]; intros s l Hlen Hdone j Hj.
  - cbn. apply Hdone. lia.
  - cbn [seq fold_left].
    destruct (nth_error (tasks l) s) as [t |] eqn:Hs.
    + destruct (tasks_complete s t l Hs) as [r Hr].
      apply IH.
      * rewrite Hr, length_update. lia.
      * intros j' Hj'. rewrite Hr, nth_error_update.
        destruct (Nat.eqb_spec s j') as [<- | Hne]; cbn [andb].
        -- assert (Hlt : s < length (tasks l)) by lia.
           apply Nat.ltb_lt in Hlt. rewrite Hlt. now exists r.
        -- apply Hdone. lia.
      * lia.
    + apply nth_error_None in Hs. lia.
Qed.

Lemma length_tasks_drained (indices : list nat) (l : Loop A B) :
  length
    (tasks (fold_left
              (fun l i =>
                 match nth_error (tasks l) i with
                 | Some t => complete onSettled i t l
                 | None => l
                 end)
              indices l))
  = length (tasks l).
Proof.
  revert l. induction indices as [| i indices IH]; intros l; [reflexivity |].
  cbn [fold_left]. rewrite IH.
  destruct (nth_error (tasks l) i) as [t |] eqn:Hi; [| reflexivity].
  destruct (tasks_complete i t l Hi) as [r ->]. apply length_update.
Qed.

Lemma all_settled (ts : list (Task A)) :
  (forall j, j < length ts -> exists r, nth_error ts j = Some (Settle r)) ->
  ts = map Settle (results ts).
Proof.
  induction ts as [| t ts IH]; intros Hall; [reflexivity |].
  destruct (Hall 0 ltac:(cbn; lia)) as [r Hr]. cbn in Hr. injection Hr as ->.
  cbn [results map]. f_equal. apply IH.
  intros j Hj. apply (Hall (S j)). cbn. lia.
Qed.

Lemma drain_settled (l : Loop A B) :
  tasks (drain onSettled l) = map Settle (results (tasks (drain onSettled l))) /\
  length (tasks (drain onSettled l)) = length (tasks l).
Proof.
  assert (Hlen : length (tasks (drain onSettled l)) = length (tasks l))
    by apply length_tasks_drained.
  split; [| exact Hlen].
  apply all_settled. rewrite Hlen. intros j Hj. unfold drain.
  apply (drain_settled_from (length (tasks l)) 0 l); [reflexivity | | exact Hj].
  intros j' Hj'. lia.
Qed.

End Settles.

(** ** Runs that differ by the toasts shown *)

Section InStep.

Context {A B B0 : Type}.
Variable onSettled : Settled (list A) -> Promise B.
Variable onSettled0 : Settled (list A) -> Promise B0.
Variable Qs : list (Settled A -> list Toast -> Prop).
Variables pre pre0 noticed noticed0 : list Toast.
Variable caughtWith : Settled B.
Variable caughtWith0 : Settled B0.
Variable goesOn : list A -> Settled B.
Variable goesOn0 : list A -> Settled B0.
Hypothesis onSettled_goesOn : goesOnWith onSettled noticed caughtWith goesOn.
Hypothesis onSettled0_goesOn : goesOnWith onSettled0 noticed0 caughtWith0 goesOn0.

Lemma firstRejection_kept (i : nat) (t' : Task A) (ts : list (Task A))
  (resume : World -> Task A * World) (e : Thrown) :
  nth_error ts i = Some (Wait resume) -> firstRejection ts = Some e ->
  exists e', firstRejection (update i t' ts) = Some e'.
Proof.
  revert i. induction ts as [| t ts IH]; intros [| i] Hi He; cbn in *;
    try discriminate.
  - injection Hi as ->. cbn in He.
    destruct t' as [[a | e'] | resume']; eauto.
  - destruct t as [[a | e0] | resume0]; eauto.
Qed.

Lemma firstRejection_new (i : nat) (t' : Task A) (ts : list (Task A))
  (resume : World -> Task A * World) :
  nth_error ts i = Some (Wait resume) -> firstRejection ts = None ->
  firstRejection (update i t' ts) =
    match t' with
    | Settle (Rejected e) => Some e
    | _ => None
    end.
Proof.
  revert i. induction ts as [| t ts IH]; intros [| i] Hi He; cbn in *;
    try discriminate.
  - injection Hi as ->. cbn in He.
    destruct t' as [[a | e'] | resume']; auto.
  - destruct t as [[a | e0] | resume0]; try discriminate; now apply IH.
Qed.

Lemma inStep_tasks (l : Loop A B) (l0 : Loop A B0) :
  inStep Qs pre pre0 noticed noticed0 caughtWith caughtWith0 l l0 ->
  tasks l = tasks l0.
Proof. now intros [H _]. Qed.

Lemma inStep_arrive (l : Loop A B) (l0 : Loop A B0) (i : nat)
  (resume : World -> Task A * World) :
  inStep Qs pre pre0 noticed noticed0 caughtWith caughtWith0 l l0 ->
  nth_error (tasks l) i = Some (Wait resume) ->
  inStep Qs pre pre0 noticed noticed0 caughtWith caughtWith0
    (arrive onSettled i l) (arrive onSettled0 i l0).
Proof.
  intros HR Hi.
  assert (Hi0 : nth_error (tasks l0) i = Some (Wait resume))
    by (now rewrite <- (inStep_tasks l l0 HR)).
  rewrite (arrive_waiting onSettled i l resume Hi).
  rewrite (arrive_waiting onSettled0 i l0 resume Hi0).
  destruct l as [ts c [shown b tk]], l0 as [ts0 c0 [shown0 b0 tk0]].
  destruct HR as (Hts & Hb & Htk & qs & x & y & Hfst & Hall & Hperm & Hcase).
  cbn [tasks world caught bucket tick toasts] in *. subst ts0 b0 tk0.
  destruct (Forall2_nth_error _ _ _ _ _ Hall Hi) as (q & Hq & Hspec).
  cbn [emitsT] in Hspec.
  destruct (Hspec b tk) as (tsn & b' & tk' & Hframe & Hnext).
  set (t' := fst (resume (mkWorld [] b tk))) in *.
  rewrite (Hframe shown), (Hframe shown0). cbn [fst snd].
  set (qs' := update i (fst q, snd q ++ tsn) qs).
  assert (Hfst' : map fst qs' = Qs).
  { subst qs'. rewrite map_update. cbn [fst]. rewrite <- Hfst.
    apply update_same. now rewrite nth_error_map, Hq. }
  assert (Hall' : Forall2 (fun q t => emitsT (fst q) (snd q) t) qs' (update i t' ts))
    by (now apply Forall2_update).
  assert (Hperm' : Permutation (x ++ y ++ tsn) (concat (map snd qs'))).
  { subst qs'. rewrite map_update. cbn [snd]. symmetry.
    rewrite concat_update by (now rewrite nth_error_map, Hq).
    rewrite app_assoc. apply Permutation_app_tail. now symmetry. }
  destruct onSettled_goesOn as [Hcatch _], onSettled0_goesOn as [Hcatch0 _].
  destruct (firstRejection ts) as [e |] eqn:Hrej.
  - destruct Hcase as (-> & -> & -> & ->).
    destruct (firstRejection_kept i t' ts resume e Hi Hrej) as [e' He'].
    unfold notify. cbn [caught tasks world].
    repeat split; cbn [tasks world bucket tick toasts].
    exists qs', x, (y ++ tsn). rewrite He'.
    repeat split; try assumption; now rewrite <- !app_assoc.
  - destruct Hcase as (-> & -> & -> & -> & ->).
    pose proof (firstRejection_new i t' ts resume Hi Hrej) as Hnew.
    rewrite app_nil_l in Hperm'.
    unfold notify. cbn [caught tasks world]. rewrite Hnew.
    destruct t' as [[a | e] | resume'].
    + repeat split. exists qs', (x ++ tsn), []. cbn [tasks]. rewrite Hnew.
      rewrite app_nil_r. repeat split; try assumption;
        cbn [world toasts]; now rewrite <- ?app_assoc.
    + rewrite Hcatch, Hcatch0. cbn [toasts bucket tick].
      repeat split. exists qs', (x ++ tsn), []. cbn [tasks]. rewrite Hnew.
      rewrite !app_nil_r. repeat split; try assumption;
        cbn [world toasts]; now rewrite <- ?app_assoc.
    + repeat split. exists qs', (x ++ tsn), []. cbn [tasks]. rewrite Hnew.
      rewrite app_nil_r. repeat split; try assumption;
        cbn [world toasts]; now rewrite <- ?app_assoc.
Qed.

Lemma callAll_emits (ps : list (Async A)) :
  Forall2 (fun Q p => emitsA Q p) Qs ps ->
  forall b tk, exists ts qs b' tk',
    map fst qs = Qs /\
    Forall2 (fun q t => emitsT (fst q) (snd q) t) qs ts /\
    forall shown,
      callAll ps (mkWorld shown b tk)
      = (ts, mkWorld (shown ++ concat (map snd qs)) b' tk').
Proof.
  intros H. induction H as [| Q p Qs' ps' Hp H IH]; intros b tk.
  - exists [], [], b, tk. repeat split; [constructor |].
    intros shown. cbn. now rewrite app_nil_r.
  - destruct (Hp b tk) as (t & ts1 & b1 & tk1 & Hrun & Ht).
    destruct (IH b1 tk1) as (ts & qs & b' & tk' & Hfst & Hall & Hrest).
    exists (t :: ts), ((Q, ts1) :: qs), b', tk'. repeat split.
    + cbn. now rewrite Hfst.
    + now constructor.
    + intros shown. cbn [callAll]. rewrite Hrun, Hrest. cbn.
      now rewrite app_assoc.
Qed.

Lemma eventLoops_inStep (ps : list (Async A)) (arrival : list nat)
  (b : list (string * S3Object)) (tk : nat) :
  Forall2 (fun Q p => emitsA Q p) Qs ps ->
  inStep Qs pre pre0 noticed noticed0 caughtWith caughtWith0
    (eventLoop onSettled arrival ps (mkWorld pre b tk))
    (eventLoop onSettled0 arrival ps (mkWorld pre0 b tk)).
Proof.
  intros Hps. unfold eventLoop.
  destruct (callAll_emits ps Hps b tk) as (ts & qs & b' & tk' & Hfst & Hall & Hrun).
  rewrite !Hrun.
  apply (drain_R onSettled onSettled0 _ inStep_tasks inStep_arrive).
  apply (events_R onSettled onSettled0 _ inStep_tasks inStep_arrive).
  destruct onSettled_goesOn as [Hcatch _], onSettled0_goesOn as [Hcatch0 _].
  unfold notify. cbn [caught tasks world].
  destruct (firstRejection ts) as [e |] eqn:Hrej.
  - rewrite Hcatch, Hcatch0. cbn [toasts bucket tick].
    repeat split. exists qs, (concat (map snd qs)), []. cbn [tasks]. rewrite Hrej.
    rewrite !app_nil_r. repeat split; try assumption; try reflexivity;
      cbn [world toasts]; now rewrite <- ?app_assoc.
  - repeat split. exists qs, (concat (map snd qs)), []. cbn [tasks]. rewrite Hrej.
    rewrite !app_nil_r. repeat split; try assumption; reflexivity.
Qed.

End InStep.

(** ** Calls and the toasts they add *)

Section AsyncFrames.

Lemma emitsT_weaken {A} (Q Q' : Settled A -> list Toast -> Prop)
  (sofar : list Toast) (t : Task A) :
  (forall r ts, Q r ts -> Q' r ts) -> emitsT Q sofar t -> emitsT Q' sofar t.
Proof.
  intros HQ. revert sofar.
  induction t as [r | resume IH] using Task_induction; intros sofar; cbn [emitsT].
  - apply HQ.
  - intros H b tk. destruct (H b tk) as (ts & b' & tk' & Hframe & Hnext).
    exists ts, b', tk'. split; [exact Hframe |]. now apply IH.
Qed.

Lemma emitsT_shift {A} (Q : Settled A -> list Toast -> Prop)
  (before sofar : list Toast) (t : Task A) :
  emitsT (fun r ts => Q r (before ++ ts)) sofar t -> emitsT Q (before ++ sofar) t.
Proof.
  revert sofar.
  induction t as [r | resume IH] using Task_induction; intros sofar; cbn [emitsT].
  - exact (fun H => H).
  - intros H b tk. destruct (H b tk) as (ts & b' & tk' & Hframe & Hnext).
    exists ts, b', tk'. split; [exact Hframe |].
    rewrite <- app_assoc. now apply IH.
Qed.

Lemma emitsA_weaken {A} (Q Q' : Settled A -> list Toast -> Prop) (p : Async A) :
  (forall r ts, Q r ts -> Q' r ts) -> emitsA Q p -> emitsA Q' p.
Proof.
  intros HQ Hp b tk. destruct (Hp b tk) as (t & ts & b' & tk' & Hrun & Ht).
  exists t, ts, b', tk'. split; [exact Hrun |]. now apply (emitsT_weaken Q).
Qed.

Lemma emitsA_now {A} (Q : Settled A -> list Toast -> Prop) (p : Promise A) :
  emits Q p -> emitsA Q (Async.now p).
Proof.
  intros Hp b tk. destruct (Hp b tk) as (r & ts & b' & tk' & HQ & Hrun).
  exists (Settle r), ts, b', tk'. split; [| exact HQ].
  intros shown. unfold Async.now. now rewrite Hrun.
Qed.

Lemma emitsA_onEvent {A} (Q : Settled A -> list Toast -> Prop) (p : Promise A) :
  emits Q p -> emitsA Q (Async.onEvent p).
Proof.
  intros Hp b tk. exists (Wait (Async.now p)), [], b, tk. split.
  - intros shown. unfold Async.onEvent. now rewrite app_nil_r.
  - cbn [emitsT]. intros b1 tk1.
    destruct (Hp b1 tk1) as (r & ts & b' & tk' & HQ & Hrun).
    exists ts, b', tk'. unfold Async.now. rewrite (Hrun []). cbn [fst].
    split; [| exact HQ]. intros shown. now rewrite Hrun.
Qed.

Lemma emitsT_andThen {A B} (Q1 : Settled A -> list Toast -> Prop)
  (Q : Settled B -> list Toast -> Prop) (k : A -> Async B)
  (sofar : list Toast) (t : Task A) :
  emitsT Q1 sofar t ->
  (forall a ts1, Q1 (Fulfilled a) ts1 ->
     emitsA (fun r ts2 => Q r (ts1 ++ ts2)) (k a)) ->
  (forall e ts1, Q1 (Rejected e) ts1 -> Q (Rejected e) ts1) ->
  forall b tk, exists t2 ts b' tk',
    (forall shown,
       Async.andThen t k (mkWorld shown b tk) = (t2, mkWorld (shown ++ ts) b' tk')) /\
    emitsT Q (sofar ++ ts) t2.
Proof.
  intros Ht Hk He. revert sofar Ht.
  induction t as [[a | e] | resume IH] using Task_induction;
    intros sofar Ht b tk; cbn [emitsT] in Ht.
  - destruct (Hk a sofar Ht b tk) as (t2 & ts & b' & tk' & Hrun & Ht2).
    exists t2, ts, b', tk'. split; [exact Hrun |]. now apply emitsT_shift.
  - exists (Settle (Rejected e)), [], b, tk. split.
    + intros shown. cbn. now rewrite app_nil_r.
    + cbn. rewrite app_nil_r. now apply He.
  - eexists. exists [], b, tk. split.
    + intros shown. cbn [Async.andThen]. rewrite app_nil_r. reflexivity.
    + cbn [emitsT]. intros b1 tk1.
      destruct (Ht b1 tk1) as (ts1 & b2 & tk2 & Hframe & Hnext).
      destruct (IH (mkWorld [] b1 tk1) (sofar ++ ts1) Hnext b2 tk2)
        as (t2 & ts2 & b' & tk' & Hrun & Ht2).
      exists (ts1 ++ ts2), b', tk'.
      rewrite (Hframe []). cbn [fst app]. rewrite (Hrun ts1). cbn [fst]. split.
      * intros shown. rewrite (Hframe shown), Hrun. now rewrite app_assoc.
      * now rewrite app_nil_r, app_assoc.
Qed.

Lemma emitsA_await {A B} (Q1 : Settled A -> list Toast -> Prop)
  (Q : Settled B -> list Toast -> Prop) (p : Async A) (k : A -> Async B) :
  emitsA Q1 p ->
  (forall a ts1, Q1 (Fulfilled a) ts1 ->
     emitsA (fun r ts2 => Q r (ts1 ++ ts2)) (k a)) ->
  (forall e ts1, Q1 (Rejected e) ts1 -> Q (Rejected e) ts1) ->
  emitsA Q (Async.await p k).
Proof.
  intros Hp Hk He b tk.
  destruct (Hp b tk) as (t & ts1 & b1 & tk1 & Hrun & Ht).
  destruct (emitsT_andThen Q1 Q k ts1 t Ht Hk He b1 tk1)
    as (t2 & ts2 & b' & tk' & Hrun2 & Ht2).
  exists t2, (ts1 ++ ts2), b', tk'. split; [| exact Ht2].
  intros shown. unfold Async.await. rewrite Hrun, Hrun2. now rewrite app_assoc.
Qed.

Lemma emitsT_orHandle {A} (Q1 Q : Settled A -> list Toast -> Prop)
  (handler : Thrown -> Async A) (sofar : list Toast) (t : Task A) :
  emitsT Q1 sofar t ->
  (forall a ts1, Q1 (Fulfilled a) ts1 -> Q (Fulfilled a) ts1) ->
  (forall e ts1, Q1 (Rejected e) ts1 ->
     emitsA (fun r ts2 => Q r (ts1 ++ ts2)) (handler e)) ->
  forall b tk, exists t2 ts b' tk',
    (forall shown,
       Async.orHandle t handler (mkWorld shown b tk)
       = (t2, mkWorld (shown ++ ts) b' tk')) /\
    emitsT Q (sofar ++ ts) t2.
Proof.
  intros Ht Ha Hh. revert sofar Ht.
  induction t as [[a | e] | resume IH] using Task_induction;
    intros sofar Ht b tk; cbn [emitsT] in Ht.
  - exists (Settle (Fulfilled a)), [], b, tk. split.
    + intros shown. cbn. now rewrite app_nil_r.
    + cbn. rewrite app_nil_r. now apply Ha.
  - destruct (Hh e sofar Ht b tk) as (t2 & ts & b' & tk' & Hrun & Ht2).
    exists t2, ts, b', tk'. split; [exact Hrun |]. now apply emitsT_shift.
  - eexists. exists [], b, tk. split.
    + intros shown. cbn [Async.orHandle]. rewrite app_nil_r. reflexivity.
    + cbn [emitsT]. intros b1 tk1.
      destruct (Ht b1 tk1) as (ts1 & b2 & tk2 & Hframe & Hnext).
      destruct (IH (mkWorld [] b1 tk1) (sofar ++ ts1) Hnext b2 tk2)
        as (t2 & ts2 & b' & tk' & Hrun & Ht2).
      exists (ts1 ++ ts2), b', tk'.
      rewrite (Hframe []). cbn [fst app]. rewrite (Hrun ts1). cbn [fst]. split.
      * intros shown. rewrite (Hframe shown), Hrun. now rewrite app_assoc.
      * now rewrite app_nil_r, app_assoc.
Qed.

Lemma emitsA_tryCatch {A} (Q1 Q : Settled A -> list Toast -> Prop)
  (p : Async A) (handler : Thrown -> Async A) :
  emitsA Q1 p ->
  (forall a ts1, Q1 (Fulfilled a) ts1 -> Q (Fulfilled a) ts1) ->
  (forall e ts1, Q1 (Rejected e) ts1 ->
     emitsA (fun r ts2 => Q r (ts1 ++ ts2)) (handler e)) ->
  emitsA Q (Async.tryCatch p handler).
Proof.
  intros Hp Ha Hh b tk.
  destruct (Hp b tk) as (t & ts1 & b1 & tk1 & Hrun & Ht).
  destruct (emitsT_orHandle Q1 Q handler ts1 t Ht Ha Hh b1 tk1)
    as (t2 & ts2 & b' & tk' & Hrun2 & Ht2).
  exists t2, (ts1 ++ ts2), b', tk'. split; [| exact Ht2].
  intros shown. unfold Async.tryCatch. rewrite Hrun, Hrun2. now rewrite app_assoc.
Qed.

(** The simple calls. *)
Lemma emitsA_resolve {A} (a : A) :
  emitsA (fun r ts => r = Fulfilled a /\ ts = []) (Async.resolve a).
Proof.
  apply emitsA_now. intros b tk. exists (Fulfilled a), [], b, tk.
  split; [now split |]. intros shown. unfold resolve. now rewrite app_nil_r.
Qed.

Lemma emitsA_reject {A} (e : Thrown) :
  emitsA (fun r ts => r = @Rejected A e /\ ts = []) (Async.reject e).
Proof.
  apply emitsA_now. intros b tk. exists (Rejected e), [], b, tk.
  split; [now split |]. intros shown. unfold reject. now rewrite app_nil_r.
Qed.

Lemma emitsA_toast (t : Toast) :
  emitsA (fun r ts => r = Fulfilled tt /\ ts = [t]) (Async.toast t).
Proof.
  apply emitsA_now. intros b tk. exists (Fulfilled tt), [t], b, tk.
  split; [now split |]. intros shown. reflexivity.
Qed.

Lemma emitsA_json {A} (body : A) :
  emitsA (fun r ts => r = Fulfilled body /\ ts = []) (Async.json body).
Proof.
  apply emitsA_onEvent. intros b tk. exists (Fulfilled body), [], b, tk.
  split; [now split |]. intros shown. unfold settled. now rewrite app_nil_r.
Qed.

End AsyncFrames.

(** ** The builds, however the events arrive *)

Section BuildFrames.

Variable env : Env.

Lemma fetch_keeps_name (file : File) (w w' : World) (result : S3UploadResult) :
  fetch env file w = (Fulfilled (JsonResult result), w') ->
  Meta.original_name (metadata result) = name file.
Proof.
  unfold fetch. destruct (fetchFails env (tick w)) as [message |]; [discriminate |].
  destruct (isCADFile file) eqn:Hcad.
  - destruct (sendFails env (tick w)) as [e |] eqn:Hsend.
    + rewrite (POST_store_fails env file w e Hcad Hsend). discriminate.
    + rewrite (POST_accepts env file w Hcad Hsend).
      intros H. now injection H as <- _.
  - rewrite (POST_rejects_extension env file w Hcad). discriminate.
Qed.

Lemma emits_fetch (file : File) :
  emits (fun r ts =>
           ts = [] /\
           forall result, r = Fulfilled (JsonResult result) ->
                          Meta.original_name (metadata result) = name file)
        (fetch env file).
Proof.
  intros b tk. destruct (silent_fetch env file b tk) as (r & ts & b' & tk' & -> & Hrun).
  exists r, [], b', tk'. split; [| exact Hrun].
  split; [reflexivity |]. intros result ->.
  exact (fetch_keeps_name file _ _ result (Hrun [])).
Qed.

Lemma emits_fileToBase64 (file : File) :
  emits (fun r ts => ts = [] /\ forall e, r = Rejected e -> e = ErrorEvent)
        (fileToBase64 env file).
Proof.
  intros b tk. unfold fileToBase64. destruct (readFails env file).
  - exists (Rejected ErrorEvent), [], b, tk. split.
    + split; [reflexivity |]. intros e H. now injection H as <-.
    + intros shown. unfold reject. now rewrite app_nil_r.
  - exists (Fulfilled (stripDataUrlPrefix (readAsDataURL file))), [], b, tk. split.
    + split; [reflexivity |]. intros e H. discriminate H.
    + intros shown. unfold resolve. now rewrite app_nil_r.
Qed.

(** What the upload client gives, and that it shows nothing. *)
Lemma emitsA_uploadFileToS3 (file : File) :
  emitsA (fun r ts =>
            ts = [] /\
            match r with
            | Fulfilled result => Meta.original_name (metadata result) = name file
            | Rejected e => exists message, e = Error message
            end)
         (Async.uploadFileToS3 env file).
Proof.
  unfold Async.uploadFileToS3.
  apply (emitsA_tryCatch
           (fun r ts =>
              ts = [] /\
              forall result, r = Fulfilled result ->
                             Meta.original_name (metadata result) = name file)).
  - apply (emitsA_await
             (fun r ts =>
                ts = [] /\
                forall result, r = Fulfilled (JsonResult result) ->
                               Meta.original_name (metadata result) = name file)).
    + apply emitsA_onEvent, emits_fetch.
    + intros [error s | body] ts1 [-> Hname].
      * apply (emitsA_await (fun r ts => r = Fulfilled error /\ ts = [])).
        -- apply emitsA_json.
        -- intros errorData ts1 [_ ->].
           eapply emitsA_weaken; [| apply emitsA_reject].
           intros r ts [-> ->]. split; [reflexivity | discriminate].
        -- intros e ts1 [H _]. discriminate H.
      * apply (emitsA_await (fun r ts => r = Fulfilled body /\ ts = [])).
        -- apply emitsA_json.
        -- intros result ts1 [Hbody ->]. injection Hbody as ->.
           eapply emitsA_weaken; [| apply emitsA_resolve].
           intros r ts [-> ->]. split; [reflexivity |].
           intros result' H. injection H as <-. now apply Hname.
        -- intros e ts1 [H _]. discriminate H.
    + intros e ts1 [-> _]. split; [reflexivity | discriminate].
  - intros result ts1 [-> Hname]. split; [reflexivity | now apply Hname].
  - intros e ts1 [-> _].
    eapply emitsA_weaken; [| apply emitsA_reject].
    intros r ts [-> ->]. split; [reflexivity | now eexists].
Qed.

Ltac quiet_toasts :=
  repeat constructor;
  first [apply quiet_info | apply quiet_success | apply quiet_error; discriminate].

Lemma emitsA_uploadBranch (file : File) :
  emitsA (builtFrom file) (Async.uploadBranch env file).
Proof.
  unfold Async.uploadBranch.
  set (info := toast_info ("Uploading " +++ name file +++ " to cloud storage...")).
  set (success := toast_success (name file +++ " uploaded successfully!")).
  set (failure := toast_error ("Failed to upload " +++ name file +++ ". Please try again.")).
  apply (emitsA_tryCatch
           (fun r ts =>
              match r with
              | Fulfilled b => ts = [info; success] /\ shownName b = name file
              | Rejected e => ts = [info] /\ exists message, e = Error message
              end)).
  - apply (emitsA_await (fun r ts => r = Fulfilled tt /\ ts = [info]));
      [apply emitsA_toast | | intros e ts1 [H _]; discriminate H].
    intros _ ts1 [_ ->].
    eapply emitsA_await; [apply emitsA_uploadFileToS3 | |].
    + intros s3Result ts1 [-> Hname].
      apply (emitsA_await (fun r ts => r = Fulfilled tt /\ ts = [success]));
        [apply emitsA_toast | | intros e ts1 [H _]; discriminate H].
      intros _ ts1 [_ ->].
      eapply emitsA_weaken; [| apply emitsA_resolve].
      intros r ts [-> ->]. split; [reflexivity | exact Hname].
    + intros e ts1 [-> Herror]. split; [reflexivity | exact Herror].
  - intros b ts1 [-> Hname]. subst info success. split; [quiet_toasts |].
    split; [reflexivity |]. intros b' H. now injection H as <-.
  - intros e ts1 [-> [message ->]].
    apply (emitsA_await (fun r ts => r = Fulfilled tt /\ ts = [failure]));
      [apply emitsA_toast | | intros e ts1 [H _]; discriminate H].
    intros _ ts1 [_ ->].
    eapply emitsA_weaken; [| apply emitsA_reject].
    intros r ts [-> ->]. subst info failure. split; [quiet_toasts |].
    split; [reflexivity | discriminate].
Qed.

(** A toast and a rejection with an [Error]: how a build gives up. *)
Lemma emitsA_give_up (file : File) (c : ascii) (notice message : string)
  (before : list Toast) :
  c <> "E"%char -> before = [] ->
  emitsA (fun r ts => builtFrom file r (before ++ ts))
    (Async.await (Async.toast (toast_error (String c notice)))
       (fun _ => Async.reject (Error message))).
Proof.
  intros Hc ->.
  apply (emitsA_await
           (fun r ts => r = Fulfilled tt /\ ts = [toast_error (String c notice)]));
    [apply emitsA_toast | | intros e ts1 [H _]; discriminate H].
  intros _ ts1 [_ ->].
  eapply emitsA_weaken; [| apply emitsA_reject].
  intros r ts [-> ->]. split.
  - repeat constructor. now apply quiet_error.
  - split; [reflexivity | discriminate].
Qed.

Lemma builtFrom_block (file : File) (b : ContentBlock) :
  shownName b = name file ->
  forall r ts, r = Fulfilled b /\ ts = [] -> builtFrom file r ([] ++ ts).
Proof.
  intros Hname r ts [-> ->]. split; [constructor |].
  split; [reflexivity |]. intros b' H. now injection H as <-.
Qed.

Lemma emitsA_fileToContentBlock (file : File) :
  emitsA (builtFrom file) (Async.fileToContentBlock env file).
Proof.
  unfold Async.fileToContentBlock.
  destruct (negb (isSupported file));
    [apply (emitsA_give_up file _ _ _ []); [discriminate | reflexivity] |].
  apply (emitsA_await
           (fun r ts => ts = [] /\ forall e, r = Rejected e -> e = ErrorEvent)).
  - apply emitsA_onEvent, emits_fileToBase64.
  - intros data ts1 [-> _].
    destruct (includes supportedImageTypes (type file)).
    { eapply emitsA_weaken; [| apply emitsA_resolve]. now apply builtFrom_block. }
    destruct (type file === "application/pdf").
    { eapply emitsA_weaken; [| apply emitsA_resolve]. now apply builtFrom_block. }
    destruct (includes supportedCADTypes (type file) || isCADFile file
              || includes supportedPythonTypes (type file) || isPythonFile file).
    { apply emitsA_uploadBranch. }
    apply emitsA_give_up; [discriminate | reflexivity].
  - intros e ts1 [-> He]. rewrite (He e eq_refl).
    split; [constructor |]. split; [reflexivity | discriminate].
Qed.

Lemma emitsA_inlineFileToContentBlock (file : File) :
  emitsA (builtFrom file) (Async.inlineFileToContentBlock env file).
Proof.
  unfold Async.inlineFileToContentBlock.
  destruct (negb (Legacy.isSupported file));
    [apply (emitsA_give_up file _ _ _ []); [discriminate | reflexivity] |].
  apply (emitsA_await
           (fun r ts => ts = [] /\ forall e, r = Rejected e -> e = ErrorEvent)).
  - apply emitsA_onEvent, emits_fileToBase64.
  - intros data ts1 [-> _].
    destruct (includes supportedImageTypes (type file)).
    { eapply emitsA_weaken; [| apply emitsA_resolve]. now apply builtFrom_block. }
    destruct (type file === "application/pdf").
    { eapply emitsA_weaken; [| apply emitsA_resolve]. now apply builtFrom_block. }
    destruct (includes supportedCADTypes (type file) || isCADFile file).
    { eapply emitsA_weaken; [| apply emitsA_resolve]. now apply builtFrom_block. }
    apply emitsA_give_up; [discriminate | reflexivity].
  - intros e ts1 [-> He]. rewrite (He e eq_refl).
    split; [constructor |]. split; [reflexivity | discriminate].
Qed.

End BuildFrames.

(** ** Batches *)

Section Joins.

Lemma eventLoop_settled {A B} (onSettled : Settled (list A) -> Promise B)
  (arrival : list nat) (ps : list (Async A)) (w : World) :
  tasks (eventLoop onSettled arrival ps w)
  = map Settle (results (tasks (eventLoop onSettled arrival ps w))).
Proof.
  unfold eventLoop. destruct (callAll ps w) as [ts w1].
  apply drain_settled.
Qed.

Lemma results_settled {A} (rs : list (Settled A)) : results (map Settle rs) = rs.
Proof. induction rs as [| r rs IH]; cbn; [reflexivity | now rewrite IH]. Qed.

Lemma firstRejection_settled {A} (rs : list (Settled A)) :
  match firstRejection (map Settle rs) with
  | Some _ => exists e, In (Rejected e) rs
  | None => (forall e, ~ In (Rejected e) rs) /\ exists values, joinAll rs = Fulfilled values
  end.
Proof.
  induction rs as [| [a | e] rs IH]; cbn.
  - split; [intros e [] | now exists []].
  - destruct (firstRejection (map Settle rs)).
    + destruct IH as [e He]. exists e. now right.
    + destruct IH as [Hnone [values ->]]. split; [| now eexists].
      intros e [H | H]; [discriminate | now apply (Hnone e)].
  - exists e. now left.
Qed.

Lemma joinAll_no_rejection {A} (rs : list (Settled A)) (values : list A) :
  joinAll rs = Fulfilled values -> forall e, ~ In (Rejected e) rs.
Proof.
  revert values. induction rs as [| [a | e0] rs IH]; intros values H e Hin; cbn in *.
  - contradiction.
  - destruct (joinAll rs) as [l |] eqn:Hj; [| discriminate].
    destruct Hin as [Heq | Hin]; [discriminate |]. now apply (IH l eq_refl e).
  - discriminate.
Qed.

Lemma filter_length_Permutation {X} (f : X -> bool) (l l' : list X) :
  Permutation l l' -> length (filter f l) = length (filter f l').
Proof.
  intros H. induction H as [| x l l' H IH | x y l | l l' l'' H1 IH1 H2 IH2]; cbn.
  - reflexivity.
  - destruct (f x); cbn; now rewrite IH.
  - destruct (f x), (f y); reflexivity.
  - now rewrite IH1.
Qed.

Lemma settled_specs {A} (qs : list ((Settled A -> list Toast -> Prop) * list Toast))
  (rs : list (Settled A)) :
  Forall2 (fun q t => emitsT (fst q) (snd q) t) qs (map Settle rs) ->
  Forall2 (fun q r => fst q r (snd q)) qs rs.
Proof.
  revert qs. induction rs as [| r rs IH]; intros qs H; inversion H; subst.
  - constructor.
  - constructor; [assumption | now apply IH].
Qed.

(** What the builds of a batch have shown and given, once all have
    settled. *)
Lemma builds_settled (files : list File)
  (qs : list ((Settled ContentBlock -> list Toast -> Prop) * list Toast))
  (rs : list (Settled ContentBlock)) :
  map fst qs = map builtFrom files ->
  Forall2 (fun q r => fst q r (snd q)) qs rs ->
  Forall quiet (concat (map snd qs)) /\
  length (filter isFailureNotice (concat (map snd qs)))
    = length (filter isErrorRejection rs) /\
  (forall values, joinAll rs = Fulfilled values ->
                  map shownName values = map name files).
Proof.
  intros Hfst H. revert files Hfst.
  induction H as [| [Q sofar] r qs rs Hq H IH]; intros files Hfst.
  - split; [constructor |]. split; [reflexivity |].
    intros values Hj. injection Hj as <-. now destruct files.
  - destruct files as [| file files]; [discriminate |].
    cbn in Hfst. injection Hfst as -> Hfst. cbn [fst snd] in Hq.
    destruct Hq as (Hquiet & Hcount & Hname).
    destruct (IH files Hfst) as (IHquiet & IHcount & IHname).
    cbn [map snd concat]. split; [now apply Forall_app |]. split.
    + rewrite filter_app, length_app, Hcount, IHcount. cbn [filter].
      now destruct (isErrorRejection r).
    + intros values Hj. cbn [joinAll] in Hj.
      destruct r as [b | e]; [| discriminate].
      destruct (joinAll rs) as [l |]; [| discriminate].
      injection Hj as <-. cbn [map]. f_equal; [now apply Hname | now apply IHname].
Qed.

Lemma handler_goesOn (contentBlocks : list ContentBlock) (notice : string) :
  goesOnWith
    (fun joined =>
       tryCatch
         (newBlocks <- settled joined ;; resolve (contentBlocks ++ newBlocks))
         (fun error => toast (toast_error notice) ;; resolve contentBlocks))
    [toast_error notice] (Fulfilled contentBlocks)
    (fun values => Fulfilled (contentBlocks ++ values)).
Proof. split; reflexivity. Qed.

Lemma outcomes_goesOn {A} :
  goesOnWith (fun _ : Settled (list A) => resolve tt) [] (Fulfilled tt)
             (fun _ => Fulfilled tt).
Proof.
  split; [| reflexivity]. intros e [shown b tk]. unfold resolve. cbn.
  now rewrite app_nil_r.
Qed.

End Joins.

Section Batches.

(** The builder of the hook, any whose builds are as [builtFrom] says. *)
Variable build : File -> Async ContentBlock.
Hypothesis build_emits : forall file, emitsA (builtFrom file) (build file).

Lemma builds_emit (files : list File) :
  Forall2 (fun Q p => emitsA Q p) (map builtFrom files) (map build files).
Proof. induction files; constructor; auto. Qed.

(** The builds of a batch, joined by a handler, beside the same builds
    joined by nobody. *)
Lemma joined_batch
  (contentBlocks : list ContentBlock) (notice : string) (files : list File)
  (arrival : list nat) (w : World) (leftOut : list Toast) :
  let joinedBy :=
    Promise_all
      (fun joined =>
         tryCatch
           (newBlocks <- settled joined ;; resolve (contentBlocks ++ newBlocks))
           (fun error => toast (toast_error notice) ;; resolve contentBlocks))
      arrival (map build files)
      (mkWorld (toasts w ++ leftOut) (bucket w) (tick w)) in
  let outs := outcomes arrival (map build files) w in
  exists before after,
    Forall quiet (before ++ after) /\
    length (filter isFailureNotice (before ++ after))
      = length (filter isErrorRejection outs) /\
    (forall values, joinAll outs = Fulfilled values ->
                    map shownName values = map name files) /\
    match firstRejection (map Settle outs) with
    | Some _ =>
        fst joinedBy = Fulfilled contentBlocks /\
        toasts (snd joinedBy)
        = toasts w ++ leftOut ++ before ++ [toast_error notice] ++ after
    | None =>
        after = [] /\
        (forall values, joinAll outs = Fulfilled values ->
                        fst joinedBy = Fulfilled (contentBlocks ++ values)) /\
        toasts (snd joinedBy) = toasts w ++ leftOut ++ before
    end.
Proof.
  intros joinedBy outs. subst joinedBy outs.
  destruct w as [shown b tk]. cbn [toasts bucket tick].
  pose proof (eventLoops_inStep _ _ (map builtFrom files)
                (shown ++ leftOut) shown [toast_error notice] []
                (Fulfilled contentBlocks) (Fulfilled tt) _ _
                (handler_goesOn contentBlocks notice) outcomes_goesOn
                (map build files) arrival b tk (builds_emit files)) as HR.
  unfold Promise_all, outcomes.
  set (l := eventLoop _ arrival (map build files) (mkWorld (shown ++ leftOut) b tk)) in *.
  set (l0 := eventLoop _ arrival (map build files) (mkWorld shown b tk)) in *.
  destruct HR as (Hts & _ & _ & qs & x & y & Hfst & Hall & Hperm & Hcase).
  assert (Hsettled : tasks l0 = map Settle (results (tasks l0)))
    by apply eventLoop_settled.
  rewrite Hts, Hsettled in Hall. apply settled_specs in Hall.
  destruct (builds_settled files qs _ Hfst Hall) as (Hquiet & Hcount & Hname).
  exists x, y.
  split; [apply (Permutation_Forall (Permutation_sym Hperm) Hquiet) |].
  split; [now rewrite (filter_length_Permutation _ _ _ Hperm) |].
  split; [exact Hname |].
  rewrite <- Hsettled, <- Hts.
  destruct (firstRejection (tasks l)) eqn:Hrej.
  - destruct Hcase as (Hcaught & _ & Hshown & _). rewrite Hcaught. cbn [fst snd].
    split; [reflexivity |]. rewrite Hshown. now rewrite <- !app_assoc.
  - destruct Hcase as (Hcaught & _ & -> & Hshown & _). rewrite Hcaught.
    pose proof (firstRejection_settled (results (tasks l0))) as Hjoin.
    rewrite <- Hsettled, <- Hts, Hrej in Hjoin. destruct Hjoin as [_ [values Hjoin]].
    rewrite Hjoin. unfold tryCatch, await, settled, resolve. cbn [fst snd].
    split; [reflexivity |]. split.
    + intros values' H. now injection H as <-.
    + rewrite Hshown. now rewrite <- app_assoc.
Qed.

End Batches.

Section JoinedBatches.

Variable build : File -> Async ContentBlock.
Hypothesis build_emits : forall file, emitsA (builtFrom file) (build file).

Lemma outcomes_nil {A} (arrival : list nat) (w : World) :
  @outcomes A arrival [] w = [].
Proof.
  unfold outcomes, eventLoop. cbn [callAll].
  assert (H : forall l : Loop A unit, tasks l = [] ->
            tasks (drain (fun _ => resolve tt)
                         (events (fun _ => resolve tt) arrival l)) = []).
  { intros l Hl.
    assert (He : events (fun _ => resolve tt) arrival l = l).
    { revert l Hl. induction arrival as [| i arrival IH]; intros l Hl; [reflexivity |].
      cbn [events fold_left]. rewrite arrive_settled.
      - now apply IH.
      - intros resume. rewrite Hl. now destruct i. }
    rewrite He. unfold drain. now rewrite Hl. }
  rewrite H; reflexivity.
Qed.

(** The builds of a batch of which one is rejected, and the failure notice
    of the handler that joins them. *)
Lemma failed_batch_tail
  (contentBlocks : list ContentBlock) (uniqueFiles : list File)
  (notice : string) (arrival : list nat) (w : World) (leftOut : list Toast) :
  let outs := outcomes arrival (map build uniqueFiles) w in
  (exists e, In (Rejected e) outs) ->
  exists before after w',
    Forall quiet (before ++ after) /\
    length (filter isFailureNotice (before ++ after))
      = length (filter isErrorRejection outs) /\
    (if 0 <? length uniqueFiles then
       Promise_all
         (fun joined =>
            tryCatch
              (newBlocks <- settled joined ;; resolve (contentBlocks ++ newBlocks))
              (fun error => toast (toast_error notice) ;; resolve contentBlocks))
         arrival (map build uniqueFiles)
     else resolve contentBlocks)
      (mkWorld (toasts w ++ leftOut) (bucket w) (tick w))
    = (Fulfilled contentBlocks, w') /\
    toasts w' = toasts w ++ leftOut ++ before ++ [toast_error notice] ++ after.
Proof.
  intros outs Hfail.
  assert (Hlen : (0 <? length uniqueFiles) = true).
  { destruct uniqueFiles; [| reflexivity]. subst outs. cbn [map] in Hfail.
    rewrite outcomes_nil in Hfail. now destruct Hfail. }
  rewrite Hlen.
  destruct (joined_batch build build_emits contentBlocks notice uniqueFiles
              arrival w leftOut)
    as (before & after & Hquiet & Hcount & _ & Hcase).
  fold outs in Hcount, Hcase.
  pose proof (firstRejection_settled outs) as Hrej.
  destruct (firstRejection (map Settle outs)).
  - destruct Hcase as [Hresult Hshown].
    exists before, after. eexists.
    split; [exact Hquiet |]. split; [exact Hcount |].
    split; [| exact Hshown].
    rewrite <- Hresult. apply surjective_pairing.
  - destruct Hrej as [Hnone _]. destruct Hfail as [e He]. now contradiction (Hnone e).
Qed.

(** The builds of a batch that are all fulfilled, joined by a handler. *)
Lemma built_batch_tail
  (contentBlocks newBlocks : list ContentBlock) (uniqueFiles : list File)
  (notice : string) (arrival : list nat) (w : World) (leftOut : list Toast) :
  joinAll (outcomes arrival (map build uniqueFiles) w) = Fulfilled newBlocks ->
  map shownName newBlocks = map name uniqueFiles /\
  exists reported w',
    Forall quiet reported /\
    (if 0 <? length uniqueFiles then
       Promise_all
         (fun joined =>
            tryCatch
              (newBlocks <- settled joined ;; resolve (contentBlocks ++ newBlocks))
              (fun error => toast (toast_error notice) ;; resolve contentBlocks))
         arrival (map build uniqueFiles)
     else resolve contentBlocks)
      (mkWorld (toasts w ++ leftOut) (bucket w) (tick w))
    = (Fulfilled (contentBlocks ++ newBlocks), w') /\
    toasts w' = toasts w ++ leftOut ++ reported.
Proof.
  intros Hjoin.
  destruct (joined_batch build build_emits contentBlocks notice uniqueFiles
              arrival w leftOut)
    as (before & after & Hquiet & _ & Hname & Hcase).
  split; [now apply Hname |].
  destruct uniqueFiles as [| file rest].
  - cbn [map] in Hjoin. rewrite outcomes_nil in Hjoin. injection Hjoin as <-.
    exists [], (mkWorld (toasts w ++ leftOut) (bucket w) (tick w)).
    split; [constructor |]. cbn. rewrite !app_nil_r. now split.
  - change (0 <? length (file :: rest)) with true. cbv iota.
    pose proof (firstRejection_settled
                  (outcomes arrival (map build (file :: rest)) w)) as Hrej.
    destruct (firstRejection (map Settle (outcomes arrival (map build (file :: rest)) w))).
    + destruct Hrej as [e He].
      now contradiction (joinAll_no_rejection _ _ Hjoin e).
    + destruct Hcase as (-> & Hresult & Hshown).
      exists before. eexists. rewrite app_nil_r in Hquiet.
      split; [exact Hquiet |]. split; [| exact Hshown].
      rewrite <- (Hresult newBlocks Hjoin). apply surjective_pairing.
Qed.

End JoinedBatches.

(** ** The three handlers *)

Lemma notices_first {A} (c1 c2 : bool) (n1 n2 : Toast) (k : Promise A) (w : World) :
  (UseFileUpload.when c1 (toast n1) ;; UseFileUpload.when c2 (toast n2) ;; k) w
  = k (mkWorld (toasts w ++ (if c1 then [n1] else []) ++ (if c2 then [n2] else []))
               (bucket w) (tick w)).
Proof.
  destruct w as [shown b t].
  destruct c1, c2; unfold await, UseFileUpload.when, toast, resolve;
    cbn [toasts bucket tick]; rewrite <- ?app_assoc, ?app_nil_r; reflexivity.
Qed.

Lemma quiet_notices (c1 c2 : bool) (x y : ascii) (m1 m2 : string) :
  x <> "E"%char -> y <> "E"%char ->
  Forall quiet ((if c1 then [toast_error (String x m1)] else [])
                ++ (if c2 then [toast_error (String y m2)] else [])).
Proof.
  intros Hx Hy. apply Forall_app.
  split; [destruct c1 | destruct c2]; repeat constructor; now apply quiet_error.
Qed.

Lemma quiet_not_in (notice : string) (shown : list Toast) :
  Forall quiet shown -> ~ In (toast_error (String "E"%char notice)) shown.
Proof.
  intros Hq Hin. rewrite Forall_forall in Hq. now apply (Hq _ Hin notice).
Qed.

Lemma nothing_left_out (valid duplicate : File -> bool) (files : list File) :
  filter (fun file => negb (duplicate file)) (filter valid files) = files ->
  filter (fun file => negb (valid file)) files = [] /\
  filter duplicate (filter valid files) = [].
Proof.
  intros Hall.
  assert (Hin : forall file, In file files ->
                  valid file = true /\ duplicate file = false).
  { intros file Hf. rewrite <- Hall in Hf.
    apply filter_In in Hf. destruct Hf as [Hf Hd].
    apply filter_In in Hf. destruct Hf as [_ Hv].
    split; [exact Hv | now apply negb_true_iff]. }
  assert (Hnone : forall (f : File -> bool) (l : list File),
            (forall x, In x l -> f x = false) -> filter f l = []).
  { intros f l. induction l as [| x l IH]; intros H; [reflexivity |].
    cbn [filter]. rewrite (H x (or_introl eq_refl)).
    apply IH. intros y Hy. apply H. now right. }
  split; apply Hnone.
  - intros x Hx. destruct (Hin x Hx) as [-> _]. reflexivity.
  - intros x Hx. apply filter_In in Hx. destruct Hx as [Hx _].
    now destruct (Hin x Hx).
Qed.

Section FailedBatches.

Variable build : File -> Async ContentBlock.
Hypothesis build_emits : forall file, emitsA (builtFrom file) (build file).

(** The end of the three proofs below: the notices about the files left
    out, then the builds and the notice of the handler. *)
Ltac failed_batch contentBlocks notice arrival w Hfail :=
  rewrite notices_first;
  match goal with
  | |- context [mkWorld (toasts w ++ ?leftOut) _ _] =>
      match goal with
      | |- context [Promise_all _ arrival (map build ?uniqueFiles)] =>
          destruct (failed_batch_tail build build_emits contentBlocks uniqueFiles
                      notice arrival w leftOut Hfail)
            as (before & after & w' & Hq & Hn & Hrun & Htoasts);
          exists leftOut, before, after, w';
          split; [exact Hrun |]; split; [exact Htoasts |];
          split;
          [ intros Hall; apply nothing_left_out in Hall;
            destruct Hall as [Hinvalid Hduplicate];
            rewrite ?Hinvalid, ?Hduplicate; reflexivity
          | split; [exact Hn |];
            apply quiet_not_in, Forall_app; split;
            [apply quiet_notices; discriminate | exact Hq] ]
      end
  end.

(** A batch with a failed build, in each of the three handlers. *)
Lemma failed_selection
  (arrival : list nat) (contentBlocks : list ContentBlock) (files : list File)
  (w : World) :
  let uniqueFiles :=
    filter (fun file => negb (UseFileUpload.isDuplicate file contentBlocks))
           (filter UseFileUpload.isValidFile files) in
  let outs := outcomes arrival (map build uniqueFiles) w in
  (exists e, In (Rejected e) outs) ->
  exists leftOut before after w',
    UseFileUpload.handleFileUpload build arrival contentBlocks (Some files) w
      = (Fulfilled contentBlocks, w') /\
    toasts w' = toasts w ++ leftOut ++ before
                  ++ [toast_error "Error processing files. Please try again."]
                  ++ after /\
    (uniqueFiles = files -> leftOut = []) /\
    length (filter isFailureNotice (before ++ after))
      = length (filter isErrorRejection outs) /\
    ~ In (toast_error "Error processing files. Please try again.")
         (leftOut ++ before ++ after).
Proof.
  intros uniqueFiles outs Hfail. subst outs uniqueFiles.
  unfold UseFileUpload.handleFileUpload.
  failed_batch contentBlocks "Error processing files. Please try again." arrival w Hfail.
Qed.

Lemma failed_drop
  (arrival : list nat) (contentBlocks : list ContentBlock) (files : list File)
  (w : World) :
  let uniqueFiles :=
    filter (fun file => negb (UseFileUpload.isDuplicate file contentBlocks))
           (filter UseFileUpload.isValidFile files) in
  let outs := outcomes arrival (map build uniqueFiles) w in
  (exists e, In (Rejected e) outs) ->
  exists leftOut before after w',
    UseFileUpload.handleWindowDrop build arrival contentBlocks (Some files) w
      = (Fulfilled contentBlocks, w') /\
    toasts w' = toasts w ++ leftOut ++ before
                  ++ [toast_error "Error processing dropped files. Please try again."]
                  ++ after /\
    (uniqueFiles = files -> leftOut = []) /\
    length (filter isFailureNotice (before ++ after))
      = length (filter isErrorRejection outs) /\
    ~ In (toast_error "Error processing dropped files. Please try again.")
         (leftOut ++ before ++ after).
Proof.
  intros uniqueFiles outs Hfail. subst outs uniqueFiles.
  unfold UseFileUpload.handleWindowDrop.
  failed_batch contentBlocks
    "Error processing dropped files. Please try again." arrival w Hfail.
Qed.

Lemma failed_paste
  (arrival : list nat) (contentBlocks : list ContentBlock)
  (items : list UseFileUpload.DataTransferItem) (w : World) :
  let files := UseFileUpload.pastedFiles items in
  let uniqueFiles :=
    filter (fun file => negb (UseFileUpload.isDuplicatePaste contentBlocks file))
           (filter UseFileUpload.isValidFile files) in
  let outs := outcomes arrival (map build uniqueFiles) w in
  (exists e, In (Rejected e) outs) ->
  exists leftOut before after w',
    UseFileUpload.handlePaste build arrival contentBlocks (Some items) w
      = (Fulfilled contentBlocks, w') /\
    toasts w' = toasts w ++ leftOut ++ before
                  ++ [toast_error "Error processing pasted files. Please try again."]
                  ++ after /\
    (uniqueFiles = files -> leftOut = []) /\
    length (filter isFailureNotice (before ++ after))
      = length (filter isErrorRejection outs) /\
    ~ In (toast_error "Error processing pasted files. Please try again.")
         (leftOut ++ before ++ after).
Proof.
  intros files uniqueFiles outs Hfail. subst outs uniqueFiles.
  unfold UseFileUpload.handlePaste. fold files.
  assert (Hsome : (length files =? 0) = false).
  { destruct files as [| file rest]; [| reflexivity].
    cbn [filter map] in Hfail. rewrite outcomes_nil in Hfail.
    destruct Hfail as [e []]. }
  rewrite Hsome.
  failed_batch contentBlocks
    "Error processing pasted files. Please try again." arrival w Hfail.
Qed.

(** A selection of one file that is valid and new: the build runs as it
    does alone, whatever the arrivals. *)
Lemma handleFileUpload_one
  (arrival : list nat) (contentBlocks : list ContentBlock) (file : File) (w : World) :
  UseFileUpload.isValidFile file = true ->
  UseFileUpload.isDuplicate file contentBlocks = false ->
  UseFileUpload.handleFileUpload build arrival contentBlocks (Some [file]) w
  = match alone (build file) w with
    | (Fulfilled b, w') => (Fulfilled (contentBlocks ++ [b]), w')
    | (Rejected e, w') =>
        (Fulfilled contentBlocks,
         mkWorld (toasts w' ++ [toast_error "Error processing files. Please try again."])
                 (bucket w') (tick w'))
    end.
Proof.
  intros Hvalid Hnew. unfold UseFileUpload.handleFileUpload.
  rewrite notices_first. cbn [filter]. rewrite Hvalid. cbn [filter negb].
  rewrite Hnew. cbn [negb length Nat.ltb Nat.leb map app].
  rewrite Promise_all_single.
  destruct w as [shown b tk]. cbn [toasts bucket tick]. rewrite app_nil_r.
  destruct (alone (build file) (mkWorld shown b tk)) as [[block | e] w']; reflexivity.
Qed.

End FailedBatches.

(** C2, at the failing input.  A drawing that was added as an uploaded
    block is not recognised when the same file is selected again: the test
    compares the name of the file with the generated name of the upload, the
    file is uploaded a second time, and the collection holds two file blocks
    with one original name.  With the inline-only builder the second
    selection is rejected as a duplicate.  This is so however the events
    arrive. *)
Theorem C2_uploaded_file_added_twice :
  let build := Async.fileToContentBlock Sample.healthy in
  exists b1 w1 b2 w2,
    (forall arrival,
       UseFileUpload.handleFileUpload build arrival [] (Some [Sample.drawing])
         Sample.world0
       = (Fulfilled [b1], w1)) /\
    block_type b1 = "file" /\ block_source_type b1 = "s3" /\
    shownName b1 = name Sample.drawing /\
    UseFileUpload.isDuplicate Sample.drawing [b1] = false /\
    (forall arrival,
       UseFileUpload.handleFileUpload build arrival [b1] (Some [Sample.drawing]) w1
       = (Fulfilled [b1; b2], w2)) /\
    block_type b2 = "file" /\ shownName b2 = shownName b1 /\
    (let inline := Async.inlineFileToContentBlock Sample.healthy in
     exists c1 v1 v2,
       (forall arrival,
          UseFileUpload.handleFileUpload inline arrival [] (Some [Sample.drawing])
            Sample.world0
          = (Fulfilled [c1], v1)) /\
       UseFileUpload.isDuplicate Sample.drawing [c1] = true /\
       (forall arrival,
          UseFileUpload.handleFileUpload inline arrival [c1] (Some [Sample.drawing]) v1
          = (Fulfilled [c1], v2))).
Proof.
  cbv zeta.
  eexists. eexists. eexists. eexists.
  split.
  { intros arrival. rewrite handleFileUpload_one by reflexivity.
    rewrite alone_fileToContentBlock. vm_compute. reflexivity. }
  do 3 (split; [reflexivity |]).
  split; [vm_compute; reflexivity |].
  split.
  { intros arrival. rewrite handleFileUpload_one by (vm_compute; reflexivity).
    rewrite alone_fileToContentBlock. vm_compute. reflexivity. }
  do 2 (split; [reflexivity |]).
  eexists. eexists. eexists.
  split.
  { intros arrival. rewrite handleFileUpload_one by reflexivity.
    rewrite alone_inlineFileToContentBlock. vm_compute. reflexivity. }
  split; [reflexivity |].
  intros arrival. reflexivity.
Qed.

(** C1, as amended.  In each of the three handlers (selection, drop,
    paste), however the events of the builds arrive, when the build of some
    file of the accepted unique set is rejected, no block of the batch is
    added: the handler ends with the collection it started from.  Its batch
    failure notice is shown once, as soon as a build is rejected and while
    the other builds go on, and it is none of the other toasts of the
    action: these are the notices about the files left out (none when no
    file is), which come first, and what the builds report before and after
    it, among which one failure notice for each build that is rejected with
    an error of its own (a failed upload, a type the builder refuses) and
    none for a file that cannot be read. *)
Theorem C1_failed_batch_leaves_collection
  (env : Env) (arrival : list nat) (contentBlocks : list ContentBlock) (w : World) :
  let build := Async.fileToContentBlock env in
  (forall files,
     let uniqueFiles :=
       filter (fun file => negb (UseFileUpload.isDuplicate file contentBlocks))
              (filter UseFileUpload.isValidFile files) in
     let outs := outcomes arrival (map build uniqueFiles) w in
     (exists e, In (Rejected e) outs) ->
     exists leftOut before after w',
       UseFileUpload.handleFileUpload build arrival contentBlocks (Some files) w
         = (Fulfilled contentBlocks, w') /\
       toasts w' = toasts w ++ leftOut ++ before
                     ++ [toast_error "Error processing files. Please try again."]
                     ++ after /\
       (uniqueFiles = files -> leftOut = []) /\
       length (filter isFailureNotice (before ++ after))
         = length (filter isErrorRejection outs) /\
       ~ In (toast_error "Error processing files. Please try again.")
            (leftOut ++ before ++ after)) /\
  (forall files,
     let uniqueFiles :=
       filter (fun file => negb (UseFileUpload.isDuplicate file contentBlocks))
              (filter UseFileUpload.isValidFile files) in
     let outs := outcomes arrival (map build uniqueFiles) w in
     (exists e, In (Rejected e) outs) ->
     exists leftOut before after w',
       UseFileUpload.handleWindowDrop build arrival contentBlocks (Some files) w
         = (Fulfilled contentBlocks, w') /\
       toasts w' = toasts w ++ leftOut ++ before
                     ++ [toast_error "Error processing dropped files. Please try again."]
                     ++ after /\
       (uniqueFiles = files -> leftOut = []) /\
       length (filter isFailureNotice (before ++ after))
         = length (filter isErrorRejection outs) /\
       ~ In (toast_error "Error processing dropped files. Please try again.")
            (leftOut ++ before ++ after)) /\
  (forall items,
     let files := UseFileUpload.pastedFiles items in
     let uniqueFiles :=
       filter (fun file => negb (UseFileUpload.isDuplicatePaste contentBlocks file))
              (filter UseFileUpload.isValidFile files) in
     let outs := outcomes arrival (map build uniqueFiles) w in
     (exists e, In (Rejected e) outs) ->
     exists leftOut before after w',
       UseFileUpload.handlePaste build arrival contentBlocks (Some items) w
         = (Fulfilled contentBlocks, w') /\
       toasts w' = toasts w ++ leftOut ++ before
                     ++ [toast_error "Error processing pasted files. Please try again."]
                     ++ after /\
       (uniqueFiles = files -> leftOut = []) /\
       length (filter isFailureNotice (before ++ after))
         = length (filter isErrorRejection outs) /\
       ~ In (toast_error "Error processing pasted files. Please try again.")
            (leftOut ++ before ++ after)).
Proof.
  intros build.
  split; [| split].
  - intros files. apply failed_selection, emitsA_fileToContentBlock.
  - intros files. apply failed_drop, emitsA_fileToContentBlock.
  - intros items. apply failed_paste, emitsA_fileToContentBlock.
Qed.

(** Two drawings that the store refuses, the events of the first arriving
    before those of the second. *)
Lemma C1_failed_batch_leaves_collection_witness :
  let build := Async.fileToContentBlock Sample.storeDown in
  let arrival := [0; 0; 0; 1; 1; 1] in
  let batch := [Sample.drawing; Sample.outline] in
  let outs := outcomes arrival (map build batch) Sample.world0 in
  exists leftOut before after w',
    UseFileUpload.handleFileUpload build arrival [] (Some batch) Sample.world0
      = (Fulfilled [], w') /\
    toasts w' = toasts Sample.world0 ++ leftOut ++ before
                  ++ [toast_error "Error processing files. Please try again."]
                  ++ after /\
    (batch = batch -> leftOut = []) /\
    length (filter isFailureNotice (before ++ after))
      = length (filter isErrorRejection outs) /\
    ~ In (toast_error "Error processing files. Please try again.")
         (leftOut ++ before ++ after).
Proof.
  intros build arrival batch outs.
  apply (proj1 (C1_failed_batch_leaves_collection Sample.storeDown arrival []
                  Sample.world0) batch).
  eexists. apply (nth_error_In _ 0). vm_compute. reflexivity.
Defined.

(** C1, as stated, fails: a batch of three files whose second file is a
    drawing that the store refuses leaves the collection as it was, but the
    user is shown two failure notices, the builder's and the handler's; and
    with a second drawing in the batch, the toasts of its build come after
    the notice of the handler. *)
Lemma C1_counterexample :
  let build := Async.fileToContentBlock Sample.storeDown in
  let batch := [Sample.photo; Sample.drawing; Sample.sketch] in
  let arrival := [0; 1; 2; 1; 1] in
  filter (fun file => negb (UseFileUpload.isDuplicate file []))
         (filter UseFileUpload.isValidFile batch) = batch /\
  (exists e,
     nth_error (outcomes arrival (map build batch) Sample.world0) 1
     = Some (Rejected e)) /\
  (exists w',
     UseFileUpload.handleFileUpload build arrival [] (Some batch) Sample.world0
       = (Fulfilled [], w') /\
     filter isFailureNotice (toasts w') =
       [ toast_error "Failed to upload plan.dwg. Please try again.";
         toast_error "Error processing files. Please try again." ] /\
     length (filter isFailureNotice (toasts w')) <> 1) /\
  (exists w',
     UseFileUpload.handleFileUpload build [0; 0; 0; 1; 1; 1] []
       (Some [Sample.drawing; Sample.outline]) Sample.world0
       = (Fulfilled [], w') /\
     toasts w' =
       [ toast_info "Uploading plan.dwg to cloud storage...";
         toast_error "Failed to upload plan.dwg. Please try again.";
         toast_error "Error processing files. Please try again.";
         toast_info "Uploading outline.dxf to cloud storage...";
         toast_error "Failed to upload outline.dxf. Please try again." ]).
Proof.
  cbv zeta. split; [reflexivity |]. split; [| split].
  - eexists. vm_compute. reflexivity.
  - eexists. split; [vm_compute; reflexivity |].
    split; [reflexivity | discriminate].
  - eexists. split; vm_compute; reflexivity.
Qed.


(** * Further properties of the code *)

(** ** The two tests of a drawing's name *)

Lemma toLowerCase_no_dot_suffix (lower suffix : string) :
  mem "."%char lower = false -> endsWith lower (String "."%char suffix) = false.
Proof.
  intros Hdot. destruct (endsWith lower (String "."%char suffix)) eqn:H; [| reflexivity].
  apply endsWith_iff in H. destruct H as [p ->].
  rewrite mem_append in Hdot. simpl in Hdot. now rewrite orb_true_r in Hdot.
Qed.

Lemma endsWith_last_segment (lower ext : string) :
  mem "."%char ext = false ->
  mem "."%char lower = true ->
  endsWith lower (String "."%char ext) = strictEq (pop (split "."%char lower)) ext.
Proof.
  intros Hext Hdot.
  destruct (pop_split_decompose "."%char lower Hdot) as (stem & e & Hl & He & Hpop).
  rewrite Hpop. cbn [strictEq].
  destruct (String.eqb_spec e ext) as [-> | Hne].
  - apply endsWith_iff. now exists stem.
  - destruct (endsWith lower (String "."%char ext)) eqn:H; [| reflexivity].
    apply endsWith_iff in H. destruct H as [p Hp].
    pose proof (pop_split_suffix "."%char p ext Hext) as Hpop'.
    rewrite <- Hp, Hpop in Hpop'. now injection Hpop'.
Qed.

Lemma hook_isCADFile_eq (file : File) :
  UseFileUpload.isCADFile file =
    isCADFile file
    || (toLowerCase (name file) === "dwg") || (toLowerCase (name file) === "dxf").
Proof.
  unfold UseFileUpload.isCADFile, isCADFile. cbv zeta.
  set (lower := toLowerCase (name file)).
  destruct (mem "."%char lower) eqn:Hdot.
  - rewrite !endsWith_last_segment by (reflexivity || exact Hdot).
    assert (Hd : forall ext, mem "."%char ext = false -> (lower === ext) = false).
    { intros ext Hext. apply String.eqb_neq. intros Heq. congruence. }
    rewrite !Hd by reflexivity. now rewrite !orb_false_r.
  - rewrite !toLowerCase_no_dot_suffix by exact Hdot.
    rewrite (split_without_sep _ _ Hdot). reflexivity.
Qed.

(** The hook reads the last dot-separated segment of the name, the library
    a suffix of it: the hook's test accepts what the library's accepts, and
    besides it only the names that are, whatever their case, [dwg] or [dxf]
    without a dot. *)
Theorem hook_isCADFile_characterised (file : File) :
  (isCADFile file = true -> UseFileUpload.isCADFile file = true) /\
  (UseFileUpload.isCADFile file = true <->
   isCADFile file = true
   \/ toLowerCase (name file) = "dwg" \/ toLowerCase (name file) = "dxf").
Proof.
  rewrite hook_isCADFile_eq. split.
  - intros ->. reflexivity.
  - rewrite !orb_true_iff, !String.eqb_eq. tauto.
Qed.

Lemma SUPPORTED_FILE_TYPES_supported (mediaType : string) :
  includes UseFileUpload.SUPPORTED_FILE_TYPES mediaType = true ->
  includes supportedFileTypes mediaType = true.
Proof.
  rewrite !includes_In. unfold UseFileUpload.SUPPORTED_FILE_TYPES.
  intros H. simpl in H.
  repeat (destruct H as [<- | H]; [simpl; tauto |]). contradiction.
Qed.

(** The third test of [isValidFile] never decides. *)
Lemma isValidFile_two_tests (file : File) :
  UseFileUpload.isValidFile file =
    UseFileUpload.isCADFile file
    || includes UseFileUpload.SUPPORTED_FILE_TYPES (type file).
Proof.
  unfold UseFileUpload.isValidFile.
  destruct (UseFileUpload.isCADFile file); [reflexivity |].
  destruct (includes UseFileUpload.SUPPORTED_FILE_TYPES (type file)) eqn:Hin;
    [reflexivity |].
  destruct (String.eqb_spec (type file) "application/octet-stream") as [Heq | _];
    [| reflexivity].
  rewrite Heq in Hin. discriminate Hin.
Qed.

(** The files that the hook accepts and the builder then refuses as
    unsupported are those named [dwg] or [dxf] alone, in any case, with a
    media type outside the builder's list. *)
Theorem valid_but_unsupported (file : File) :
  UseFileUpload.isValidFile file = true /\ classify file = Unsupported
  <->
  (toLowerCase (name file) = "dwg" \/ toLowerCase (name file) = "dxf") /\
  includes supportedFileTypes (type file) = false.
Proof.
  rewrite isValidFile_two_tests, hook_isCADFile_eq.
  assert (Hclass : classify file = Unsupported <-> isSupported file = false).
  { unfold classify. destruct (isSupported file); cbn [negb]; [| tauto].
    split; [| discriminate].
    destruct (includes supportedImageTypes (type file)); [discriminate |].
    destruct (type file === "application/pdf"); [discriminate |].
    destruct (_ || _); [discriminate |]. destruct (_ || _); discriminate. }
  rewrite Hclass. unfold isSupported. split.
  - intros [Hvalid Hsup].
    apply orb_false_iff in Hsup. destruct Hsup as [Hsup Hpy].
    apply orb_false_iff in Hsup. destruct Hsup as [Hin Hcad].
    rewrite Hcad in Hvalid. cbn [orb] in Hvalid.
    split; [| exact Hin].
    apply orb_true_iff in Hvalid. destruct Hvalid as [Hname | Hty].
    + apply orb_true_iff in Hname.
      destruct Hname as [H | H]; apply String.eqb_eq in H; tauto.
    + apply SUPPORTED_FILE_TYPES_supported in Hty. congruence.
  - intros [Hname Hin]. rewrite Hin.
    assert (Hlow : mem "."%char (toLowerCase (name file)) = false)
      by (destruct Hname as [-> | ->]; reflexivity).
    unfold isCADFile, isPythonFile. cbv zeta.
    rewrite !toLowerCase_no_dot_suffix by exact Hlow.
    split; [| reflexivity]. cbn [orb].
    destruct Hname as [-> | ->]; reflexivity.
Qed.

(** A Python file is accepted by the hook for its declared media type only,
    and never for a Python media type: the handlers report it as invalid
    and do not build it. *)
Theorem python_files_valid_by_type_only (file : File) :
  isPythonFile file = true ->
  UseFileUpload.isValidFile file
    = includes UseFileUpload.SUPPORTED_FILE_TYPES (type file) /\
  (includes supportedPythonTypes (type file) = true ->
   UseFileUpload.isValidFile file = false).
Proof.
  intros Hpy. rewrite isValidFile_two_tests.
  assert (Hcad : UseFileUpload.isCADFile file = false).
  { unfold isPythonFile in Hpy. cbv zeta in Hpy.
    apply endsWith_iff in Hpy. destruct Hpy as [p Hp].
    unfold UseFileUpload.isCADFile. cbv zeta. rewrite Hp.
    change (p +++ ".py") with (p +++ String "."%char "py").
    now rewrite pop_split_suffix. }
  rewrite Hcad. split; [reflexivity |].
  rewrite includes_In. unfold supportedPythonTypes.
  intros [<- | [<- | []]]; reflexivity.
Qed.

Lemma python_files_valid_by_type_only_witness :
  UseFileUpload.isValidFile Sample.script
    = includes UseFileUpload.SUPPORTED_FILE_TYPES (type Sample.script) /\
  (includes supportedPythonTypes (type Sample.script) = true ->
   UseFileUpload.isValidFile Sample.script = false).
Proof.
  apply (python_files_valid_by_type_only Sample.script). reflexivity.
Defined.

(** ** Duplicates, once more *)

Lemma existsb_orb {A} (f g : A -> bool) (l : list A) :
  existsb (fun x => f x || g x) l = existsb f l || existsb g l.
Proof.
  induction l as [| x l IH]; [reflexivity |]. cbn [existsb]. rewrite IH.
  destruct (f x), (g x), (existsb f l); reflexivity.
Qed.

(** The duplicate test of the paste handler finds what the test of the two
    other handlers finds, and besides it an image block that carries the
    name of a drawing. *)
Theorem isDuplicatePaste_characterised (file : File) (blocks : list ContentBlock) :
  UseFileUpload.isDuplicatePaste blocks file =
    UseFileUpload.isDuplicate file blocks
    || (negb (type file === "application/pdf")
        && UseFileUpload.isCADFile file
        && existsb (fun b => (block_type b === "image")
                             && strictEq (metadata_name b) (name file)) blocks).
Proof.
  unfold UseFileUpload.isDuplicatePaste, UseFileUpload.isDuplicate.
  destruct (type file === "application/pdf"); cbn [negb andb];
    [now rewrite orb_false_r |].
  rewrite isValidFile_two_tests.
  destruct (UseFileUpload.isCADFile file); cbn [orb andb].
  - rewrite existsb_orb. apply orb_comm.
  - now rewrite orb_false_r.
Qed.

(** What a fulfilled build of the inline-only variant returned. *)
Lemma Legacy_fileToContentBlock_fulfilled
  (env : Env) (file : File) (w w' : World) (b : ContentBlock) :
  Legacy.fileToContentBlock env file w = (Fulfilled b, w') ->
  let data := stripDataUrlPrefix (readAsDataURL file) in
  (includes supportedImageTypes (type file) = true /\
   b = ImageBlock (type file) data (name file))
  \/ (includes supportedImageTypes (type file) = false /\
      type file = "application/pdf" /\
      b = InlineFileBlock "application/pdf" data (name file))
  \/ (includes supportedImageTypes (type file) = false /\
      (type file === "application/pdf") = false /\
      includes supportedCADTypes (type file) || isCADFile file = true /\
      b = InlineFileBlock (Legacy.cadMimeType file) data (name file)).
Proof.
  unfold Legacy.fileToContentBlock, fileToBase64.
  destruct (negb (Legacy.isSupported file)); [run_promise; discriminate |].
  destruct (readFails env file); [run_promise; discriminate |].
  run_promise.
  destruct (includes supportedImageTypes (type file)).
  { intros H. injection H as <- _. left. now split. }
  destruct (String.eqb_spec (type file) "application/pdf") as [Hpdf | Hpdf].
  { intros H. injection H as <- _. right. left. now repeat split. }
  destruct (includes supportedCADTypes (type file) || isCADFile file) eqn:Hcad.
  { intros H. injection H as <- _. right. right. now repeat split. }
  discriminate.
Qed.

Lemma existsb_last {A} (f : A -> bool) (l : list A) (x : A) :
  f x = true -> existsb f (l ++ [x]) = true.
Proof.
  intros Hx. rewrite existsb_app. cbn [existsb]. rewrite Hx.
  now rewrite orb_true_r.
Qed.

Lemma supportedCADTypes_valid (mediaType : string) :
  includes supportedCADTypes mediaType = true ->
  includes UseFileUpload.SUPPORTED_FILE_TYPES mediaType = true.
Proof.
  rewrite !includes_In. unfold supportedCADTypes. intros H. simpl in H.
  repeat (destruct H as [<- | H]; [simpl; tauto |]). contradiction.
Qed.

Lemma supportedImageTypes_valid (mediaType : string) :
  includes supportedImageTypes mediaType = true ->
  includes UseFileUpload.SUPPORTED_FILE_TYPES mediaType = true /\
  (mediaType === "application/pdf") = false.
Proof.
  rewrite !includes_In. unfold supportedImageTypes. intros H. simpl in H.
  repeat (destruct H as [<- | H]; [split; [simpl; tauto | reflexivity] |]).
  contradiction.
Qed.

(** With the inline-only builder, a file that was built is found again by
    both duplicate tests, wherever its block stands in the collection;
    the one exception of the selection and drop test is a file with an image
    media type and the name of a drawing. *)
Theorem inline_block_found_again
  (env : Env) (file : File) (w w' : World) (b : ContentBlock)
  (blocks : list ContentBlock) :
  Legacy.fileToContentBlock env file w = (Fulfilled b, w') ->
  UseFileUpload.isDuplicatePaste (blocks ++ [b]) file = true /\
  (includes supportedImageTypes (type file) && UseFileUpload.isCADFile file = false ->
   UseFileUpload.isDuplicate file (blocks ++ [b]) = true).
Proof.
  intros Hbuild. apply Legacy_fileToContentBlock_fulfilled in Hbuild.
  cbv zeta in Hbuild.
  unfold UseFileUpload.isDuplicatePaste, UseFileUpload.isDuplicate.
  destruct Hbuild as [[Himg ->] | [(Himg & Hpdf & ->) | (Himg & Hpdf & Hcad & ->)]].
  - destruct (supportedImageTypes_valid _ Himg) as [Hvalid ->].
    rewrite isValidFile_two_tests, Hvalid, orb_true_r, Himg.
    split.
    + apply existsb_last. cbn. now rewrite String.eqb_refl.
    + cbn [andb]. intros ->. apply existsb_last. cbn. now rewrite String.eqb_refl.
  - rewrite Hpdf. cbn [String.eqb Ascii.eqb Bool.eqb].
    split; [| intros _]; apply existsb_last; cbn; now rewrite String.eqb_refl.
  - rewrite Hpdf.
    assert (Hvalid : UseFileUpload.isValidFile file = true).
    { rewrite isValidFile_two_tests, hook_isCADFile_eq.
      apply orb_true_iff in Hcad. destruct Hcad as [Hty | Hname].
      - rewrite (supportedCADTypes_valid _ Hty). now rewrite orb_true_r.
      - now rewrite Hname. }
    rewrite Hvalid.
    split; [| intros _; destruct (UseFileUpload.isCADFile file)];
      apply existsb_last; cbn; rewrite String.eqb_refl;
      now rewrite ?orb_true_r.
Qed.

Lemma inline_block_found_again_witness :
  exists b w',
    Legacy.fileToContentBlock Sample.healthy Sample.drawing Sample.world0
      = (Fulfilled b, w') /\
    UseFileUpload.isDuplicatePaste ([] ++ [b]) Sample.drawing = true /\
    (includes supportedImageTypes (type Sample.drawing)
       && UseFileUpload.isCADFile Sample.drawing = false ->
     UseFileUpload.isDuplicate Sample.drawing ([] ++ [b]) = true).
Proof.
  eexists. eexists. split; [reflexivity |].
  eapply (inline_block_found_again Sample.healthy Sample.drawing Sample.world0).
  reflexivity.
Defined.

(** ** Batches with nothing to build, and batches that are built *)

Lemma filter_none_or_all {A} (f : A -> bool) (l : list A) :
  filter f l = [] -> filter (fun x => negb (f x)) l = l.
Proof.
  induction l as [| x l IH]; [reflexivity |]. cbn [filter].
  destruct (f x); [discriminate |]. cbn [negb]. intros H. f_equal. now apply IH.
Qed.

Section NothingToBuild.

Variable build : File -> Async ContentBlock.
Variable arrival : list nat.
Variable contentBlocks : list ContentBlock.

(** When every file of a selection or of a drop is invalid or a duplicate,
    the builder is not run, whatever the arrivals: the collection, the store and the count of
    requests are as before, and the toasts added are failure notices, at
    most two, and at least one unless the batch is empty. *)
Theorem left_out_files_never_built (files : list File) (w : World) :
  filter (fun file => negb (UseFileUpload.isDuplicate file contentBlocks))
         (filter UseFileUpload.isValidFile files) = [] ->
  exists leftOut,
    UseFileUpload.handleFileUpload build arrival contentBlocks (Some files) w
      = (Fulfilled contentBlocks,
         mkWorld (toasts w ++ leftOut) (bucket w) (tick w)) /\
    UseFileUpload.handleWindowDrop build arrival contentBlocks (Some files) w
      = (Fulfilled contentBlocks,
         mkWorld (toasts w ++ leftOut) (bucket w) (tick w)) /\
    forallb isFailureNotice leftOut = true /\
    length leftOut <= 2 /\
    (files <> [] -> leftOut <> []).
Proof.
  intros Hnone.
  unfold UseFileUpload.handleFileUpload, UseFileUpload.handleWindowDrop.
  rewrite !notices_first, Hnone.
  change (0 <? length (@nil File)) with false. cbv iota.
  eexists. split; [reflexivity |]. split; [reflexivity |].
  set (invalid := filter (fun file => negb (UseFileUpload.isValidFile file)) files).
  set (valid := filter UseFileUpload.isValidFile files) in *.
  set (dups := filter (fun file => UseFileUpload.isDuplicate file contentBlocks) valid).
  split; [| split].
  - destruct (0 <? length invalid), (0 <? length dups); reflexivity.
  - destruct (0 <? length invalid), (0 <? length dups); cbn; lia.
  - intros Hfiles Hnil.
    assert (Hinv : invalid = []).
    { destruct invalid; [reflexivity |].
      change (0 <? length (f :: invalid)) with true in Hnil. discriminate. }
    assert (Hdup : dups = []).
    { rewrite Hinv in Hnil. destruct dups; [reflexivity |].
      change (0 <? length (f :: dups)) with true in Hnil. discriminate. }
    apply filter_none_or_all in Hdup. fold valid in Hnone.
    rewrite Hnone in Hdup. subst invalid valid.
    apply Hfiles. clear - Hinv Hdup.
    induction files as [| x l IH]; [reflexivity |]. cbn [filter] in *.
    destruct (UseFileUpload.isValidFile x); cbn [negb] in *; discriminate.
Qed.

End NothingToBuild.

Lemma left_out_files_never_built_witness :
  let build := Async.fileToContentBlock Sample.healthy in
  let arrival := [0; 0] in
  let files := [Sample.script] in
  exists leftOut,
    UseFileUpload.handleFileUpload build arrival [] (Some files) Sample.world0
      = (Fulfilled [],
         mkWorld (toasts Sample.world0 ++ leftOut) (bucket Sample.world0)
                 (tick Sample.world0)) /\
    UseFileUpload.handleWindowDrop build arrival [] (Some files) Sample.world0
      = (Fulfilled [],
         mkWorld (toasts Sample.world0 ++ leftOut) (bucket Sample.world0)
                 (tick Sample.world0)) /\
    forallb isFailureNotice leftOut = true /\
    length leftOut <= 2 /\
    (files <> [] -> leftOut <> []).
Proof.
  intros build arrival files.
  apply (left_out_files_never_built build arrival [] files Sample.world0). reflexivity.
Defined.

(** An index at or past the end removes nothing. *)
Theorem removeBlock_out_of_range (prev : list ContentBlock) (idx : nat) :
  length prev <= idx -> UseFileUpload.removeBlock idx prev = prev.
Proof.
  intros Hidx. unfold UseFileUpload.removeBlock.
  enough (H : forall i, UseFileUpload.filterIndexed
                          (fun (_ : ContentBlock) j => negb (j =? idx)) i prev
                        = prev \/ idx < i + length prev) by
    (destruct (H 0) as [H0 | H0]; [exact H0 | simpl in H0; lia]).
  induction prev as [| x l IH]; intros i; [now left |].
  cbn [UseFileUpload.filterIndexed length].
  destruct (Nat.eqb_spec i idx) as [-> | Hne]; [right; lia |].
  cbn [negb]. destruct (IH ltac:(simpl in Hidx; lia) (S i)) as [-> | H];
    [now left | right; lia].
Qed.

Lemma removeBlock_out_of_range_witness :
  let a := ImageBlock "image/png" (Some "QQ==") "a.png" in
  UseFileUpload.removeBlock 1 [a] = [a].
Proof.
  intros a. apply (removeBlock_out_of_range [a] 1). simpl. lia.
Defined.

(** ** The endpoint and the upload client, end to end *)

(** The endpoint answers a file with a result exactly when the client's
    [shouldUploadToS3] holds of the file and the store takes the write. *)
Theorem POST_accepts_iff (env : Env) (file : File) (w : World) :
  (exists result w',
     POST env (FormDataBody (Some (EntryFile file))) w
       = (Fulfilled (JsonResult result), w'))
  <-> shouldUploadToS3 file = true /\ sendFails env (tick w) = None.
Proof.
  change (shouldUploadToS3 file) with (isCADFile file). split.
  - intros (result & w' & Hpost).
    destruct (POST_answers env (FormDataBody (Some (EntryFile file))) w)
      as (response & w1 & Hp & _ & _ & Hcase).
    rewrite Hp in Hpost. injection Hpost as -> ->.
    destruct Hcase as [(error & s & Heq & _) | (f & r & Hreq & Hcad & Hsend & _)];
      [discriminate |].
    injection Hreq as <-. now split.
  - intros [Hcad Hsend]. rewrite (POST_accepts env file w Hcad Hsend).
    now eexists; eexists.
Qed.

(** A part named [file] that is no file: the empty text is answered 400 as
    a missing file, any other text 500; a body that does not parse is
    answered 500 with the message of the failure.  Nothing is written. *)
Theorem POST_without_a_file (env : Env) (w : World) :
  (forall s, exists response,
     POST env (FormDataBody (Some (EntryString s))) w
       = (Fulfilled response, mkWorld (toasts w) (bucket w) (S (tick w))) /\
     status response = if s === "" then 400 else 500) /\
  (forall e,
     POST env (MalformedBody e) w
       = (Fulfilled (JsonError ("Upload failed: " +++ messageOf e "Unknown error")
                               InternalServerError),
          mkWorld (toasts w) (bucket w) (S (tick w)))).
Proof.
  split.
  - intros [| c s]; eexists; split; reflexivity.
  - intros e. reflexivity.
Qed.


(** ** What a build leaves of the store *)

(** A build writes to the store only for a name that ends in [.dwg] or
    [.dxf], and sends a request only on the upload branch: for an image, a
    PDF and a file it refuses, the store and the count of requests are as
    before. *)
Theorem build_touches_store_for_drawings_only (env : Env) (file : File) (w : World) :
  let w' := snd (fileToContentBlock env file w) in
  (isCADFile file = false -> bucket w' = bucket w) /\
  (classify file <> CADLike -> classify file <> CodeLike ->
   bucket w' = bucket w /\ tick w' = tick w).
Proof.
  cbv zeta. rewrite fileToContentBlock_by_category. split.
  - intros Hcad.
    assert (Hup : forall w0, bucket (snd (uploadBranch env file w0)) = bucket w0).
    { intros w0. unfold uploadBranch. run_promise.
      match goal with
      | |- context [uploadFileToS3 env file ?w1] =>
          destruct (uploadFileToS3_rejects env file w1 Hcad) as [message ->]
      end. reflexivity. }
    unfold fileToBase64.
    destruct (classify file); destruct (readFails env file); run_promise;
      try reflexivity; apply Hup.
  - intros H1 H2. unfold fileToBase64.
    destruct (classify file); try contradiction;
      destruct (readFails env file); run_promise; now split.
Qed.

Lemma classify_inline (file : File) :
  (classify file = Image -> includes supportedImageTypes (type file) = true) /\
  (classify file = PDF ->
   includes supportedImageTypes (type file) = false /\
   type file = "application/pdf").
Proof.
  unfold classify.
  destruct (isSupported file); cbn [negb]; [| split; discriminate].
  destruct (includes supportedImageTypes (type file)); [split; [reflexivity | discriminate] |].
  destruct (String.eqb_spec (type file) "application/pdf") as [Hpdf | Hpdf];
    [split; [discriminate | now split] |].
  destruct (_ || _); [split; discriminate |].
  destruct (_ || _); split; discriminate.
Qed.

(** On an image and on a PDF the two variants of the builder are one. *)
Theorem variants_agree_on_inline_files (env : Env) (file : File) :
  classify file = Image \/ classify file = PDF ->
  fileToContentBlock env file = Legacy.fileToContentBlock env file.
Proof.
  intros Hc. rewrite fileToContentBlock_by_category.
  unfold Legacy.fileToContentBlock, Legacy.isSupported, Legacy.supportedFileTypes.
  destruct (classify_inline file) as [HI HP].
  destruct Hc as [Hc | Hc]; rewrite Hc.
  - specialize (HI Hc).
    assert (Hin : includes (supportedImageTypes ++ ["application/pdf"]
                     ++ supportedCADTypes ++ ["text/plain"]) (type file) = true).
    { apply includes_In, in_or_app. left. now apply includes_In. }
    rewrite Hin, HI. reflexivity.
  - destruct (HP Hc) as [Himg Hpdf]. rewrite Himg, Hpdf. reflexivity.
Qed.

Lemma variants_agree_on_inline_files_witness :
  fileToContentBlock Sample.healthy Sample.report
  = Legacy.fileToContentBlock Sample.healthy Sample.report.
Proof.
  apply (variants_agree_on_inline_files Sample.healthy Sample.report).
  right. reflexivity.
Defined.

(** ** Batches that are built *)

(** A selection or a drop whose builds are all fulfilled, however their
    events arrive: the new blocks are appended to the collection in the
    order of the files that were neither invalid nor duplicates, each block
    showing the name of its file, and no toast of the action is a batch
    failure notice. *)
Theorem built_batch_appended_in_order
  (env : Env) (arrival : list nat) (contentBlocks newBlocks : list ContentBlock)
  (files : list File) (w : World) :
  let build := Async.fileToContentBlock env in
  let uniqueFiles :=
    filter (fun file => negb (UseFileUpload.isDuplicate file contentBlocks))
           (filter UseFileUpload.isValidFile files) in
  joinAll (outcomes arrival (map build uniqueFiles) w) = Fulfilled newBlocks ->
  map shownName newBlocks = map name uniqueFiles /\
  (exists shown w',
     UseFileUpload.handleFileUpload build arrival contentBlocks (Some files) w
       = (Fulfilled (contentBlocks ++ newBlocks), w') /\
     toasts w' = toasts w ++ shown /\ Forall quiet shown) /\
  (exists shown w',
     UseFileUpload.handleWindowDrop build arrival contentBlocks (Some files) w
       = (Fulfilled (contentBlocks ++ newBlocks), w') /\
     toasts w' = toasts w ++ shown /\ Forall quiet shown).
Proof.
  intros build uniqueFiles Hjoin.
  unfold UseFileUpload.handleFileUpload, UseFileUpload.handleWindowDrop.
  rewrite !notices_first. fold uniqueFiles.
  split; [| split].
  - apply (built_batch_tail build (emitsA_fileToContentBlock env)
             contentBlocks newBlocks uniqueFiles "" arrival w [] Hjoin).
  - match goal with
    | |- context [mkWorld (toasts w ++ ?leftOut) _ _] =>
        destruct (built_batch_tail build (emitsA_fileToContentBlock env)
                    contentBlocks newBlocks uniqueFiles
                    "Error processing files. Please try again."
                    arrival w leftOut Hjoin)
          as (_ & reported & w' & Hq & Hrun & Htoasts);
        exists (leftOut ++ reported), w'
    end.
    split; [exact Hrun |]. split; [exact Htoasts |].
    apply Forall_app. split; [apply quiet_notices; discriminate | exact Hq].
  - match goal with
    | |- context [mkWorld (toasts w ++ ?leftOut) _ _] =>
        destruct (built_batch_tail build (emitsA_fileToContentBlock env)
                    contentBlocks newBlocks uniqueFiles
                    "Error processing dropped files. Please try again."
                    arrival w leftOut Hjoin)
          as (_ & reported & w' & Hq & Hrun & Htoasts);
        exists (leftOut ++ reported), w'
    end.
    split; [exact Hrun |]. split; [exact Htoasts |].
    apply Forall_app. split; [apply quiet_notices; discriminate | exact Hq].
Qed.

Lemma built_batch_appended_in_order_witness :
  let build := Async.fileToContentBlock Sample.healthy in
  let arrival := [1; 0; 1; 1] in
  let files := [Sample.photo; Sample.script; Sample.drawing] in
  exists newBlocks,
    map shownName newBlocks = ["site.png"; "plan.dwg"] /\
    (exists shown w',
       UseFileUpload.handleFileUpload build arrival [] (Some files) Sample.world0
         = (Fulfilled ([] ++ newBlocks), w') /\
       toasts w' = toasts Sample.world0 ++ shown /\ Forall quiet shown) /\
    (exists shown w',
       UseFileUpload.handleWindowDrop build arrival [] (Some files) Sample.world0
         = (Fulfilled ([] ++ newBlocks), w') /\
       toasts w' = toasts Sample.world0 ++ shown /\ Forall quiet shown).
Proof.
  intros build arrival files. eexists.
  apply (built_batch_appended_in_order Sample.healthy arrival [] _ files Sample.world0).
  vm_compute. reflexivity.
Defined.

(** ** The guards, old and new *)

Ltac split_eqb :=
  repeat match goal with
         | |- context [?a === ?b] =>
             lazymatch a with
             | String _ _ => fail
             | EmptyString => fail
             | _ => destruct (String.eqb_spec a b); [subst a |]
             end
         | H : context [?a === ?b] |- _ =>
             lazymatch a with
             | String _ _ => fail
             | EmptyString => fail
             | _ => destruct (String.eqb_spec a b); [subst a |]
             end
         end.

(** The guard kept under the old name accepts every value that the guard
    of the inline-only variant accepted; what it accepts besides is an
    inline file block with a Python media type. *)
Theorem guard_backward_compatible (block : JsValue) :
  (Legacy.isBase64ContentBlock block = true -> isBase64ContentBlock block = true) /\
  (isBase64ContentBlock block = true -> Legacy.isBase64ContentBlock block = false ->
   exists props,
     block = JsObject props /\
     propIs props "type" "file" = true /\
     propIs props "source_type" "base64" = true /\
     (stringProp props "mime_type" = Some "text/x-python" \/
      stringProp props "mime_type" = Some "application/x-python-code")).
Proof.
  destruct block as [| | n | s | props]; try (split; discriminate).
  unfold isBase64ContentBlock, isContentBlock, Legacy.isBase64ContentBlock,
    sourceTypeIs, propIs, hasProp, isStringProp, stringProp.
  destruct (getProp props "type") as [[| | n | ty | p] |] eqn:Ht;
    destruct (getProp props "source_type") as [[| | n' | src | p'] |] eqn:Hs;
    destruct (getProp props "mime_type") as [[| | n'' | mime | p''] |] eqn:Hm;
    cbn [negb andb orb]; try (split; discriminate);
    split_eqb; cbn; try (split; discriminate);
    try (split; [intros H; exact H | intros H1 H2; congruence]);
    try (destruct (getProp props "s3_key"), (getProp props "s3_bucket"),
           (getProp props "s3_region"); cbn; split; discriminate).
  all: try (destruct (startsWith mime "image/"); cbn;
            split_eqb; cbn;
            try (split; [reflexivity | discriminate]);
            try (split; discriminate)).
  all: split; [discriminate | intros _ _];
    exists props; rewrite Ht, Hs, Hm; cbn; tauto.
Qed.

Lemma Legacy_guard_image (m : string) (d : option string) (n : string) :
  Legacy.isBase64ContentBlock (toJs (ImageBlock m d n)) = startsWith m "image/".
Proof.
  unfold Legacy.isBase64ContentBlock, toJs. cbn.
  destruct (startsWith m "image/"); reflexivity.
Qed.

Lemma Legacy_guard_inline_file (m : string) (d : option string) (n : string) :
  Legacy.isBase64ContentBlock (toJs (InlineFileBlock m d n)) =
    startsWith m "image/"
    || (m === "application/pdf") || (m === "application/acad")
    || (m === "application/dwg") || (m === "application/dxf")
    || (m === "image/vnd.dwg") || (m === "image/vnd.dxf")
    || (m === "image/x-dwg").
Proof. reflexivity. Qed.

(** The blocks of the inline-only builder and the guard of the same
    variant.  For a file that declares one of the listed media types, or
    none, the block that is built passes the guard, except when the declared
    type is [application/octet-stream] or [application/x-dwg]: the builder
    takes these for drawings and the guard does not know them. *)
Theorem inline_guard_on_inline_blocks
  (env : Env) (file : File) (w w' : World) (b : ContentBlock) :
  Legacy.fileToContentBlock env file w = (Fulfilled b, w') ->
  includes Legacy.supportedFileTypes (type file) = true \/ type file = "" ->
  Legacy.isBase64ContentBlock (toJs b) =
    negb ((type file === "application/octet-stream")
          || (type file === "application/x-dwg")).
Proof.
  intros Hbuild Hty. apply Legacy_fileToContentBlock_fulfilled in Hbuild.
  cbv zeta in Hbuild.
  destruct Hbuild as [[Himg ->] | [(Himg & Hpdf & ->) | (Himg & Hpdf & Hcad & ->)]].
  - rewrite Legacy_guard_image.
    apply includes_In in Himg. unfold supportedImageTypes in Himg. simpl in Himg.
    repeat (destruct Himg as [Heq | Himg]; [rewrite <- Heq; reflexivity |]).
    contradiction.
  - rewrite Hpdf. reflexivity.
  - rewrite Legacy_guard_inline_file. unfold Legacy.cadMimeType. cbv zeta.
    assert (Hname : type file = "" \/ type file = "text/plain" ->
              (if endsWith (toLowerCase (name file)) ".dwg" then "application/acad"
               else if endsWith (toLowerCase (name file)) ".dxf" then "application/dxf"
               else type file) = "application/acad"
              \/ (if endsWith (toLowerCase (name file)) ".dwg" then "application/acad"
                  else if endsWith (toLowerCase (name file)) ".dxf" then "application/dxf"
                  else type file) = "application/dxf").
    { intros Hplain. unfold isCADFile in Hcad. cbv zeta in Hcad.
      destruct (endsWith (toLowerCase (name file)) ".dwg"); [now left |].
      destruct (endsWith (toLowerCase (name file)) ".dxf"); [now right |].
      destruct Hplain as [Heq | Heq]; rewrite Heq in Hcad; discriminate Hcad. }
    destruct Hty as [Hin | Hempty].
    + apply includes_In in Hin. unfold Legacy.supportedFileTypes in Hin.
      simpl in Hin.
      repeat (destruct Hin as [Heq | Hin];
              [ first
                  [ rewrite <- Heq in Himg; vm_compute in Himg; discriminate Himg
                  | rewrite <- Heq in Hpdf; vm_compute in Hpdf; discriminate Hpdf
                  | pose proof (Hname (or_intror (eq_sym Heq))) as Hm;
                    rewrite <- Heq in Hm |- *;
                    change (("text/plain" === "") || ("text/plain" === "text/plain"))
                      with true;
                    cbv iota; destruct Hm as [-> | ->]; reflexivity
                  | rewrite <- Heq; reflexivity ] |]).
      contradiction.
    + pose proof (Hname (or_introl Hempty)) as Hm.
      rewrite Hempty in Hm |- *.
      change (("" === "") || ("" === "text/plain")) with true.
      cbv iota. destruct Hm as [-> | ->]; reflexivity.
Qed.

Lemma inline_guard_on_inline_blocks_witness :
  let file := mkFile "site.dwg" "application/octet-stream" [] in
  exists b w',
    Legacy.fileToContentBlock Sample.healthy file Sample.world0 = (Fulfilled b, w') /\
    Legacy.isBase64ContentBlock (toJs b) = false.
Proof.
  intros file. eexists. eexists. split; [reflexivity |].
  eapply (inline_guard_on_inline_blocks Sample.healthy file Sample.world0);
    [reflexivity | left; reflexivity].
Defined.

(** ** The drag state *)

Section DragFacts.
Import Drag.
Local Open Scope Z_scope.

Lemma handle_keeps_counter (e : Event) (s : State) :
  0 <= dragCounter s -> 0 <= dragCounter (handle e s).
Proof.
  intros Hs. destruct e as [[|] | [|] | | | | | | |]; cbn; try lia.
  destruct (Z.leb_spec (dragCounter s - 1) 0); cbn; lia.
Qed.

Lemma handle_window_keeps_hover (e : Event) (s : State) :
  onWindow e = true ->
  dragOver s = (0 <? dragCounter s) -> 0 <= dragCounter s ->
  dragOver (handle e s) = (0 <? dragCounter (handle e s)).
Proof.
  intros He Hs Hc. destruct e as [[|] | [|] | | | | | | |]; try discriminate He;
    cbn; try assumption; try reflexivity.
  - symmetry. apply Z.ltb_lt. lia.
  - destruct (Z.leb_spec (dragCounter s - 1) 0); cbn; [reflexivity |].
    rewrite Hs. transitivity true; [apply Z.ltb_lt; lia |].
    symmetry. apply Z.ltb_lt. lia.
Qed.

Lemma handle_keeps_open_hover (e : Event) (s : State) :
  offElement e = true ->
  (0 < dragCounter s -> dragOver s = true) ->
  0 < dragCounter (handle e s) -> dragOver (handle e s) = true.
Proof.
  intros He Hs. destruct e as [[|] | [|] | | | | | | |]; try discriminate He;
    cbn; try assumption; try reflexivity; try lia.
  destruct (Z.leb_spec (dragCounter s - 1) 0); cbn; [lia |].
  intros _. apply Hs. lia.
Qed.

Lemma run_invariant (events : list Event) (s : State) :
  0 <= dragCounter s ->
  0 <= dragCounter (run events s) /\
  (forallb offElement events = true ->
   (0 < dragCounter s -> dragOver s = true) ->
   0 < dragCounter (run events s) -> dragOver (run events s) = true) /\
  (forallb onWindow events = true ->
   dragOver s = (0 <? dragCounter s) ->
   dragOver (run events s) = (0 <? dragCounter (run events s))).
Proof.
  revert s. induction events as [| e events IH]; intros s Hs.
  - cbn. repeat split; auto.
  - cbn [run fold_left forallb].
    destruct (IH (handle e s) (handle_keeps_counter e s Hs)) as (Hc & Ho & Hh).
    split; [exact Hc |]. split.
    + intros Hw Hd. apply andb_true_iff in Hw. destruct Hw as [He Hw].
      apply (Ho Hw). now apply handle_keeps_open_hover.
    + intros Hw Hd. apply andb_true_iff in Hw. destruct Hw as [He Hw].
      apply (Hh Hw). now apply handle_window_keeps_hover.
Qed.

(** Whatever is heard, in whatever order, and whenever [contentBlocks]
    changes, the counter of the drag state is never negative between two
    handlers.  As long as the listeners of the drop element are not heard,
    a positive counter means that the zone is shown as hovered.  The zone
    is shown as hovered exactly when the counter is positive as long as only
    the listeners of the window are heard and [contentBlocks] does not
    change: a change during a hover sets the counter to zero and leaves the
    zone hovered. *)
Theorem drag_counter_invariant (events : list Event) :
  let s := run events initial in
  0 <= dragCounter s /\
  (forallb offElement events = true -> 0 < dragCounter s -> dragOver s = true) /\
  (forallb onWindow events = true -> dragOver s = (0 <? dragCounter s)) /\
  (forallb onWindow events = true -> dragOver s = true ->
   run (events ++ [ContentBlocksChange]) initial = mkState 0 true).
Proof.
  cbv zeta. destruct (run_invariant events initial) as (Hc & Ho & Hh); [cbn; lia |].
  split; [exact Hc |]. split; [| split].
  - intros Hw. apply (Ho Hw). cbn. lia.
  - intros Hw. now apply Hh.
  - intros Hw Hover. unfold run. rewrite fold_left_app. cbn [fold_left].
    fold (run events initial). cbn [handle]. unfold effectCleanup.
    now rewrite Hover.
Qed.

Lemma run_app (a b : list Event) (s : State) :
  run (a ++ b) s = run b (run a s).
Proof. unfold run. apply fold_left_app. Qed.

Lemma run_enters (n : nat) (s : State) :
  run (repeat (WindowDragEnter true) (S n)) s
  = mkState (dragCounter s + Z.of_nat (S n)) true.
Proof.
  revert s. induction n as [| n IH]; intros s.
  - reflexivity.
  - change (run (repeat (WindowDragEnter true) (S (S n))) s)
      with (run (repeat (WindowDragEnter true) (S n))
              (handle (WindowDragEnter true) s)).
    rewrite IH. cbn [handle handleWindowDragEnter dragCounter]. f_equal. lia.
Qed.

Lemma run_leaves (k : nat) (c : Z) :
  0 < c ->
  run (repeat (WindowDragLeave true) k) (mkState c true)
  = if Z.of_nat k <? c then mkState (c - Z.of_nat k) true else initial.
Proof.
  revert c. induction k as [| k IH]; intros c Hc.
  - cbn [repeat run fold_left]. destruct (Z.ltb_spec (Z.of_nat 0) c); [| lia].
    f_equal. lia.
  - change (run (repeat (WindowDragLeave true) (S k)) (mkState c true))
      with (run (repeat (WindowDragLeave true) k)
              (handle (WindowDragLeave true) (mkState c true))).
    cbn [handle handleWindowDragLeave dragCounter dragOver].
    destruct (Z.leb_spec (c - 1) 0).
    + destruct (Z.ltb_spec (Z.of_nat (S k)) c); [lia |].
      clear. induction k as [| k IHk]; [reflexivity |].
      change (run (repeat (WindowDragLeave true) (S k)) (mkState 0 false))
        with (run (repeat (WindowDragLeave true) k) (mkState 0 false)).
      exact IHk.
    + rewrite IH by lia.
      destruct (Z.ltb_spec (Z.of_nat k) (c - 1));
        destruct (Z.ltb_spec (Z.of_nat (S k)) c); try lia; [| reflexivity].
      f_equal. lia.
Qed.

(** Nested drags: after [n] entries into the window and [k] exits, the zone
    is still hovered, with [n - k] entries open, when [k < n], and the state
    is the initial one as soon as the exits make up for the entries; further
    exits leave it there. *)
Theorem nested_drag_enter_leave (n k : nat) :
  run (repeat (WindowDragEnter true) n ++ repeat (WindowDragLeave true) k) initial
  = if (k <? n)%nat then mkState (Z.of_nat (n - k)) true else initial.
Proof.
  rewrite run_app. destruct n as [| n].
  - cbn [repeat run fold_left]. destruct (Nat.ltb_spec k 0); [lia |].
    clear. induction k as [| k IHk]; [reflexivity |].
    change (run (repeat (WindowDragLeave true) (S k)) initial)
      with (run (repeat (WindowDragLeave true) k) initial).
    exact IHk.
  - rewrite run_enters. cbn [initial dragCounter].
    rewrite run_leaves by lia.
    destruct (Nat.ltb_spec k (S n));
      destruct (Z.ltb_spec (Z.of_nat k) (0 + Z.of_nat (S n))); try lia;
      [| reflexivity].
    f_equal. lia.
Qed.

End DragFacts.

(** ** The path of the geometry viewer *)

Section GeometryFacts.
Import Geometry.

Lemma dropPrefix_Some (p s rest : string) :
  dropPrefix p s = Some rest -> s = p +++ rest.
Proof.
  revert s. induction p as [| a p IH]; intros [| b s]; cbn; try discriminate.
  - intros H. now injection H as <-.
  - intros H. now injection H as <-.
  - destruct (Ascii.eqb_spec a b) as [-> | _]; [| discriminate].
    intros H. now rewrite (IH s H).
Qed.

Lemma dropPrefix_append (p rest : string) : dropPrefix p (p +++ rest) = Some rest.
Proof.
  induction p as [| a p IH]; cbn; [now destruct rest |].
  now rewrite Ascii.eqb_refl.
Qed.

Lemma substring_prefix (a b : string) :
  substring 0 (String.length a) (a +++ b) = a.
Proof.
  induction a as [| c a IH]; cbn; [now destruct b | now rewrite IH].
Qed.

Lemma substring_take (a b : string) :
  substring 0 (String.length (a +++ b) - String.length b) (a +++ b) = a.
Proof.
  replace (String.length (a +++ b) - String.length b) with (String.length a)
    by (rewrite length_append; lia).
  apply substring_prefix.
Qed.

(** What [[^\s]+] consumed when the pattern matched. *)
Lemma plusNotSpace_Some {A} (s : string) (k : string -> option A) (x : A) :
  plusNotSpace s k = Some x ->
  exists taken rest,
    s = taken +++ rest /\ taken <> "" /\ noSpace taken = true /\ k rest = Some x.
Proof.
  induction s as [| c s IH]; cbn; [discriminate |].
  destruct (isSpace c) eqn:Hc; [discriminate |].
  destruct (plusNotSpace s k) as [y |] eqn:Hrec.
  - intros H. injection H as ->.
    destruct (IH eq_refl) as (taken & rest & -> & _ & Hns & Hk).
    exists (String c taken), rest. repeat split; try discriminate; [| exact Hk].
    cbn. now rewrite Hc.
  - intros Hk. exists (String c ""), s. repeat split; try discriminate; [| exact Hk].
    cbn. now rewrite Hc.
Qed.

Lemma matchHere_Some (s path : string) :
  matchHere s = Some path ->
  exists body post,
    s = "VTP file created: " +++ path +++ post /\
    path = "/tmp/" +++ body +++ ".vtp" /\
    body <> "" /\ noSpace body = true.
Proof.
  unfold matchHere.
  destruct (dropPrefix "VTP file created: " s) as [group |] eqn:Hg; [| discriminate].
  destruct (dropPrefix "/tmp/" group) as [body |] eqn:Hb; [| discriminate].
  intros H. apply plusNotSpace_Some in H.
  destruct H as (taken & rest & -> & Hne & Hns & Hk).
  destruct (dropPrefix ".vtp" rest) as [after |] eqn:Ha; [| discriminate].
  apply dropPrefix_Some in Hg, Hb, Ha. subst rest group s.
  assert (Hp : path = "/tmp/" +++ taken +++ ".vtp").
  { rewrite <- (append_assoc taken ".vtp" after),
      <- (append_assoc "/tmp/" (taken +++ ".vtp") after) in Hk.
    rewrite substring_take in Hk. congruence. }
  exists taken, after. repeat split; try assumption.
  rewrite Hp. now rewrite !append_assoc.
Qed.

Lemma search_Some (s path : string) :
  search s = Some path ->
  exists before here, s = before +++ here /\ matchHere here = Some path.
Proof.
  induction s as [| c s IH]; cbn [search].
  - destruct (matchHere "") eqn:Hm; [| discriminate].
    intros H. injection H as ->. now exists "", "".
  - destruct (matchHere (String c s)) as [p |] eqn:Hm.
    + intros H. injection H as ->. now exists "", (String c s).
    + intros H. destruct (IH H) as (before & here & -> & Hh).
      now exists (String c before), here.
Qed.

Lemma extractVtpPath_search (r : string) : extractVtpPath (Some r) = search r.
Proof. now destruct r. Qed.

Lemma extractVtpPath_not_empty (result : option string) (path : string) :
  extractVtpPath result = Some path -> exists rest, path = "/tmp/" +++ rest.
Proof.
  destruct result as [r |]; [| discriminate].
  rewrite extractVtpPath_search. intros H.
  destruct (search_Some r path H) as (before & here & _ & Hh).
  destruct (matchHere_Some here path Hh) as (body & post & _ & -> & _).
  now exists (body +++ ".vtp").
Qed.

(** A path that [extractVtpPath] returns stands in the result text right
    after [VTP file created: ], starts with [/tmp/], ends in [.vtp], has
    something in between, and holds no space. *)
Theorem extractVtpPath_shape (result : option string) (path : string) :
  extractVtpPath result = Some path ->
  exists r before body post,
    result = Some r /\
    r = before +++ "VTP file created: " +++ path +++ post /\
    path = "/tmp/" +++ body +++ ".vtp" /\
    body <> "" /\ noSpace path = true.
Proof.
  destruct result as [r |]; [| discriminate].
  rewrite extractVtpPath_search. intros H.
  destruct (search_Some r path H) as (before & here & -> & Hh).
  destruct (matchHere_Some here path Hh) as (body & post & -> & Hp & Hne & Hns).
  exists (before +++ "VTP file created: " +++ path +++ post), before, body, post.
  repeat split; try assumption. subst path. clear - Hns.
  cbn. induction body as [| c body IH]; [reflexivity |].
  cbn in Hns |- *. apply andb_true_iff in Hns. destruct Hns as [-> Hns].
  now apply IH.
Qed.

Lemma extractVtpPath_shape_witness :
  exists r before body post,
    Some "Done. VTP file created: /tmp/out/frame.vtp (12 kB)" = Some r /\
    r = before +++ "VTP file created: " +++ "/tmp/out/frame.vtp" +++ post /\
    "/tmp/out/frame.vtp" = "/tmp/" +++ body +++ ".vtp" /\
    body <> "" /\ noSpace "/tmp/out/frame.vtp" = true.
Proof.
  apply (extractVtpPath_shape
           (Some "Done. VTP file created: /tmp/out/frame.vtp (12 kB)")
           "/tmp/out/frame.vtp").
  reflexivity.
Defined.

Lemma search_skips (before s : string) :
  mem "V"%char before = false -> search (before +++ s) = search s.
Proof.
  induction before as [| c before IH]; [reflexivity |].
  cbn [mem]. intros H. apply orb_false_iff in H. destruct H as [Hc Hb].
  cbn [String.append search]. unfold matchHere at 1. cbn [dropPrefix].
  rewrite Ascii.eqb_sym, Hc. now apply IH.
Qed.

Lemma plusNotSpace_stops {A} (post : string) (k : string -> option A) :
  post = "" \/ (exists c rest, post = String c rest /\ isSpace c = true) ->
  plusNotSpace post k = None.
Proof.
  intros [-> | (c & rest & -> & Hc)]; cbn; [reflexivity | now rewrite Hc].
Qed.

(** The longest run that leaves the rest of the pattern to match wins. *)
Lemma plusNotSpace_longest {A} (body t : string) (k : string -> option A) (x : A) :
  body <> "" -> noSpace body = true ->
  plusNotSpace t k = None ->
  k t = Some x ->
  plusNotSpace (body +++ t) k = Some x.
Proof.
  intros Hne Hns Hstop Hk.
  induction body as [| c body IH]; [contradiction |].
  cbn in Hns. apply andb_true_iff in Hns. destruct Hns as [Hc Hns].
  apply negb_true_iff in Hc.
  change (String c body +++ t) with (String c (body +++ t)).
  cbn [plusNotSpace]. rewrite Hc.
  destruct body as [| d body].
  - change ("" +++ t) with t. now rewrite Hstop.
  - rewrite IH; [reflexivity | discriminate | exact Hns].
Qed.

Lemma dropPrefix_stops (post : string) :
  post = "" \/ (exists c rest, post = String c rest /\ isSpace c = true) ->
  dropPrefix ".vtp" post = None.
Proof.
  intros [-> | (c & rest & -> & Hc)]; [reflexivity |].
  cbn [dropPrefix].
  destruct (Ascii.eqb_spec "."%char c) as [<- | _]; [discriminate Hc | reflexivity].
Qed.

(** Nothing after the first [.vtp] lets the pattern end later. *)
Lemma plusNotSpace_no_later_end {A} (post : string) (f : string -> A) :
  post = "" \/ (exists c rest, post = String c rest /\ isSpace c = true) ->
  plusNotSpace (".vtp" +++ post)
    (fun rest => match dropPrefix ".vtp" rest with
                 | Some after => Some (f after)
                 | None => None
                 end) = None.
Proof.
  intros Hpost.
  cbn [String.append plusNotSpace].
  change (isSpace "."%char) with false. change (isSpace "v"%char) with false.
  change (isSpace "t"%char) with false. change (isSpace "p"%char) with false.
  cbv iota. rewrite (plusNotSpace_stops post _ Hpost).
  rewrite (dropPrefix_stops post Hpost). reflexivity.
Qed.

Lemma matchHere_finds (body post : string) :
  body <> "" -> noSpace body = true ->
  post = "" \/ (exists c rest, post = String c rest /\ isSpace c = true) ->
  matchHere ("VTP file created: " +++ "/tmp/" +++ body +++ ".vtp" +++ post)
  = Some ("/tmp/" +++ body +++ ".vtp").
Proof.
  intros Hne Hns Hpost. unfold matchHere.
  rewrite dropPrefix_append. cbv beta iota.
  rewrite dropPrefix_append. cbv beta iota.
  apply plusNotSpace_longest; [exact Hne | exact Hns | |].
  - apply (plusNotSpace_no_later_end post
             (fun after =>
                substring 0
                  (String.length ("/tmp/" +++ body +++ ".vtp" +++ post)
                   - String.length after)
                  ("/tmp/" +++ body +++ ".vtp" +++ post))).
    exact Hpost.
  - rewrite dropPrefix_append. f_equal.
    rewrite <- (append_assoc body ".vtp" post),
      <- (append_assoc "/tmp/" (body +++ ".vtp") post).
    apply substring_take.
Qed.

Lemma search_eq (s : string) :
  search s = match matchHere s with
             | Some path => Some path
             | None => match s with
                       | EmptyString => None
                       | String _ s' => search s'
                       end
             end.
Proof. now destruct s. Qed.

(** When the result text names one path in the expected form, that path is
    what [extractVtpPath] returns: the text before holds no capital V, the
    path holds no space and is followed by a space or by the end. *)
Theorem extractVtpPath_finds (before body post : string) :
  mem "V"%char before = false ->
  body <> "" -> noSpace body = true ->
  post = "" \/ (exists c rest, post = String c rest /\ isSpace c = true) ->
  extractVtpPath
    (Some (before +++ "VTP file created: /tmp/" +++ body +++ ".vtp" +++ post))
  = Some ("/tmp/" +++ body +++ ".vtp").
Proof.
  intros Hbefore Hne Hns Hpost.
  rewrite extractVtpPath_search, search_skips by exact Hbefore.
  change ("VTP file created: /tmp/" +++ body +++ ".vtp" +++ post)
    with ("VTP file created: " +++ "/tmp/" +++ body +++ ".vtp" +++ post).
  now rewrite search_eq, matchHere_finds.
Qed.

Lemma extractVtpPath_finds_witness :
  extractVtpPath (Some "Done. VTP file created: /tmp/out/frame.vtp (12 kB)")
  = Some "/tmp/out/frame.vtp".
Proof.
  apply (extractVtpPath_finds "Done. " "out/frame" " (12 kB)").
  - reflexivity.
  - discriminate.
  - reflexivity.
  - right. exists " "%char, "(12 kB)". split; reflexivity.
Defined.

(** The viewer is never given an empty path: a given [vtpFilePath] that is
    not empty wins, then a path found in the result text (which is never
    empty, so [||] never skips it), then the default file. *)
Theorem vtpPath_never_empty (props : Props) :
  (vtpPath props === "") = false /\
  vtpPath props =
    match vtpFilePath props with
    | Some (String c given) => String c given
    | _ => match extractVtpPath (codeExecutionResult props) with
           | Some path => path
           | None => "/structural_building.vtp"
           end
    end.
Proof.
  destruct props as [given result]. unfold vtpPath. cbn [vtpFilePath codeExecutionResult].
  destruct given as [[| c given] |]; cbn [orElse]; try (split; reflexivity);
    (destruct (extractVtpPath result) as [path |] eqn:Hx; [| split; reflexivity];
     destruct (extractVtpPath_not_empty result path Hx) as [rest ->];
     split; reflexivity).
Qed.

End GeometryFacts.

(** ** A paste with nothing to build *)

Section NothingToPaste.

Variable build : File -> Async ContentBlock.
Variable arrival : list nat.
Variable contentBlocks : list ContentBlock.

(** A paste whose items give no file that is valid and new does not run the
    builder, whatever the arrivals: the collection, the store and the count of requests are as
    before.  The toasts added are failure notices, at most two; there is
    none exactly when the items give no file at all (text, or file items
    without a file), the case in which the handler returns at once. *)
Theorem paste_without_new_files (items : list UseFileUpload.DataTransferItem) (w : World) :
  filter (fun file => negb (UseFileUpload.isDuplicatePaste contentBlocks file))
         (filter UseFileUpload.isValidFile (UseFileUpload.pastedFiles items)) = [] ->
  exists leftOut,
    UseFileUpload.handlePaste build arrival contentBlocks (Some items) w
      = (Fulfilled contentBlocks,
         mkWorld (toasts w ++ leftOut) (bucket w) (tick w)) /\
    forallb isFailureNotice leftOut = true /\
    length leftOut <= 2 /\
    (leftOut = [] <-> UseFileUpload.pastedFiles items = []).
Proof.
  intros Hnone. unfold UseFileUpload.handlePaste. cbv zeta.
  destruct (UseFileUpload.pastedFiles items) as [| file files] eqn:Hfiles.
  - exists []. cbn. destruct w as [shown b t]. cbn. rewrite app_nil_r.
    repeat split; lia.
  - change (length (file :: files) =? 0) with false. cbv iota.
    rewrite notices_first, Hnone.
    change (0 <? length (@nil File)) with false. cbv iota.
    eexists. split; [reflexivity |].
    set (all := file :: files) in *.
    set (invalid := filter (fun file => negb (UseFileUpload.isValidFile file)) all).
    set (valid := filter UseFileUpload.isValidFile all) in *.
    set (dups := filter (UseFileUpload.isDuplicatePaste contentBlocks) valid).
    split; [| split; [| split; [| discriminate]]].
    + destruct (0 <? length invalid), (0 <? length dups); reflexivity.
    + destruct (0 <? length invalid), (0 <? length dups); cbn; lia.
    + intros Hnil. exfalso.
      assert (Hinv : invalid = []).
      { destruct invalid; [reflexivity |].
        change (0 <? length (f :: invalid)) with true in Hnil. discriminate. }
      assert (Hdup : dups = []).
      { rewrite Hinv in Hnil. destruct dups; [reflexivity |].
        change (0 <? length (f :: dups)) with true in Hnil. discriminate. }
      apply filter_none_or_all in Hdup. rewrite Hnone in Hdup.
      subst invalid valid all. cbn [filter] in Hinv, Hdup.
      destruct (UseFileUpload.isValidFile file); cbn [negb] in *; discriminate.
Qed.

End NothingToPaste.

Lemma paste_without_new_files_witness :
  let build := Async.fileToContentBlock Sample.healthy in
  let arrival := [0] in
  let items := [UseFileUpload.mkItem "string" None;
                UseFileUpload.mkItem "file" (Some Sample.script)] in
  exists leftOut,
    UseFileUpload.handlePaste build arrival [] (Some items) Sample.world0
      = (Fulfilled [],
         mkWorld (toasts Sample.world0 ++ leftOut) (bucket Sample.world0)
                 (tick Sample.world0)) /\
    forallb isFailureNotice leftOut = true /\
    length leftOut <= 2 /\
    (leftOut = [] <-> UseFileUpload.pastedFiles items = []).
Proof.
  intros build arrival items.
  apply (paste_without_new_files build arrival [] items Sample.world0). reflexivity.
Defined.
